(** * Analytics Zoo: error metrics and the Parquet dataset layer

    A shallow embedding of
      - [pyzoo/zoo/automl/common/metrics.py]       (module [Metrics]) and
      - [pyzoo/zoo/orca/data/image/parquet_dataset.py] (module [Parquet]),
    together with the properties their specification states about them.

    Numbers are IEEE-754 binary64 values (the kernel's primitive floats), as
    [np.float64] is; Python exceptions are the constructors of [exn]; a call
    that may raise returns a [result]. *)

From Stdlib Require Import ZArith Floats Uint63 Ascii Lia.
From stdpp Require Import base list strings gmap pretty sorting.

(** ** Python exceptions and fallible calls *)

Inductive exn :=
  | ValueError
  | TypeError
  | AttributeError
  | IndexError
  | ZeroDivisionError
  | KeyError
  | AssertionError
  | OSError
  | AnalysisException.

Inductive result (A : Type) :=
  | Ok (a : A)
  | Raise (e : exn).
Arguments Ok {A} a.
Arguments Raise {A} e.

#[global] Instance result_ret : MRet result := @Ok.
#[global] Instance result_bind : MBind result :=
  fun A B f r => match r with Ok a => f a | Raise e => Raise e end.
#[global] Instance result_fmap : FMap result :=
  fun A B f r => match r with Ok a => Ok (f a) | Raise e => Raise e end.

Definition raises {A} (r : result A) (e : exn) : Prop := r = Raise e.
Definition returns {A} (r : result A) : Prop := exists a, r = Ok a.

(** ** binary64 helpers *)

Module Float64.
Local Open Scope float_scope.

(** [float(n)] for a count [n] (an int64 in numpy). *)
Definition float_of_nat (n : nat) : float :=
  of_uint63 (Uint63.of_Z (Z.of_nat n)).

(** Python's [v == 0]: true of both signed zeros. *)
Definition eq0 (v : float) : bool := v =? 0.

(** A usable divisor: a number other than zero. *)
Definition nonzero_number (v : float) : bool :=
  negb (is_nan v) && negb (v =? 0).

(** The integer a float holds, when it holds one that fits an int64. *)
Definition to_int64 (v : float) : option Z :=
  match Prim2SF v with
  | S754_zero _ => Some 0%Z
  | S754_finite s m e =>
      let mag :=
        if (0 <=? e)%Z then Some (Z.pos m * 2 ^ e)%Z
        else if (Z.pos m mod 2 ^ (- e) =? 0)%Z
             then Some (Z.pos m / 2 ^ (- e))%Z else None in
      match mag with
      | Some z =>
          let z := if s then (- z)%Z else z in
          if ((- 2 ^ 63 <=? z) && (z <? 2 ^ 63))%Z then Some z else None
      | None => None
      end
  | _ => None
  end.

(** [v != v.astype(int)] element-wise: the cast truncates, so the test holds
    of every value that is not an integer of the int64 range (NaN, the
    infinities and out-of-range values cast to a value that differs too). *)
Definition differs_from_int_cast (v : float) : bool :=
  match to_int64 v with Some _ => false | None => true end.

(** Sum of a sequence, accumulated from its first element on. *)
Definition fsum (l : list float) : float :=
  match l with
  | [] => 0
  | x :: xs => fold_left PrimFloat.add xs x
  end.

Fixpoint insert_sorted (x : float) (l : list float) : list float :=
  match l with
  | [] => [x]
  | y :: ys => if x <=? y then x :: l else y :: insert_sorted x ys
  end.

Definition sort (l : list float) : list float := foldr insert_sorted [] l.

(** Classes of values, read off the IEEE-754 representation: a zero of
    either sign, and a value of a given sign that is finite and not zero, or
    infinite. *)
Definition zerof (v : float) : Prop := exists b, Prim2SF v = S754_zero b.

(** A number that is not negative, and a positive one (an infinity counts). *)
Definition nonnegf (v : float) : Prop :=
  match Prim2SF v with
  | S754_zero false | S754_finite false _ _ | S754_infinity false => True
  | _ => False
  end.

Definition posf (v : float) : Prop :=
  match Prim2SF v with
  | S754_finite false _ _ | S754_infinity false => True
  | _ => False
  end.

Definition sf_positive (s : bool) (x : spec_float) : Prop :=
  (exists m e, x = S754_finite s m e) \/ x = S754_infinity s.
End Float64.

(** ** The part of numpy the two files use *)

Module Np.
Import Float64.
Local Open Scope float_scope.

(** An [ndarray]: its shape and its elements in row-major (C) order. *)
Record ndarray := NDArray { shape : list nat; data : list float }.

Definition size_of (s : list nat) : nat := foldr Nat.mul 1%nat s.
Definition ndim (a : ndarray) : nat := length (shape a).
Definition wf (a : ndarray) : Prop := length (data a) = size_of (shape a).

(** A count numpy can hold and divide by: positive, below 2^63. *)
Definition count_ok (n : nat) : Prop := (0 < n)%nat /\ (Z.of_nat n < 2 ^ 63)%Z.

(** [a.shape[0]] and [a.shape[1]] of a 2-D array. *)
Definition nrows (a : ndarray) : nat := nth 0 (shape a) 0%nat.
Definition ncols (a : ndarray) : nat := nth 1 (shape a) 0%nat.

(** [a.reshape(newshape)], where at most one entry of [newshape] is [-1].
    The elements keep their order. *)
Definition reshape (a : ndarray) (newshape : list Z) : result ndarray :=
  let size := Z.of_nat (size_of (shape a)) in
  let known := foldr Z.mul 1%Z (filter (fun d => d ≠ (-1)%Z) newshape) in
  if existsb (fun d => (d <? -1)%Z) newshape then Raise ValueError
  else match length (filter (fun d => d = (-1)%Z) newshape) with
       | O =>
           if (known =? size)%Z
           then Ok (NDArray (Z.to_nat <$> newshape) (data a))
           else Raise ValueError
       | S O =>
           if ((known =? 0) || negb (size mod known =? 0))%Z
           then Raise ValueError
           else Ok (NDArray
                      ((fun d => if (d =? -1)%Z then Z.to_nat (size / known)
                                 else Z.to_nat d) <$> newshape)
                      (data a))
       | _ => Raise ValueError
       end.

(** The rows of an [(n, k)] array, and its columns. *)
Fixpoint rows_of (n k : nat) (d : list float) : list (list float) :=
  match n with
  | O => []
  | S n' => take k d :: rows_of n' k (drop k d)
  end.

Fixpoint transpose (k : nat) (rows : list (list float)) : list (list float) :=
  match rows with
  | [] => replicate k []
  | r :: rs => zip_with cons r (transpose k rs)
  end.

Definition columns (a : ndarray) : list (list float) :=
  transpose (ncols a) (rows_of (nrows a) (ncols a) (data a)).

(** Element-wise binary operation on arrays of one shape. *)
Definition map2 (f : float -> float -> float) (a b : ndarray) : ndarray :=
  NDArray (shape a) (zip_with f (data a) (data b)).

Definition map1 (f : float -> float) (a : ndarray) : ndarray :=
  NDArray (shape a) (f <$> data a).

(** [np.sum(a, axis=0)], [np.mean(a, axis=0)] and [np.median(a, axis=0)] of
    an [(n, k)] array: arrays of shape [(k,)]. *)
Definition sum_axis0 (a : ndarray) : ndarray :=
  NDArray [ncols a] (fsum <$> columns a).

Definition mean_axis0 (a : ndarray) : ndarray :=
  NDArray [ncols a] ((fun c => fsum c / float_of_nat (nrows a)) <$> columns a).

Definition median1 (c : list float) : float :=
  let n := length c in
  if (n =? 0)%nat then nan
  else if existsb is_nan c then nan
  else let s := sort c in
       if Nat.odd n then nth (n / 2) s nan
       else (nth (n / 2 - 1) s nan + nth (n / 2) s nan) / 2.

Definition median_axis0 (a : ndarray) : ndarray :=
  NDArray [ncols a] (median1 <$> columns a).

(** [np.mean(a)] and [np.average(a)] over all elements: a scalar. *)
Definition mean (a : ndarray) : float :=
  fsum (data a) / float_of_nat (size_of (shape a)).

(** [np.squeeze(a)]: the axes of length one are dropped. *)
Definition squeeze (a : ndarray) : ndarray :=
  NDArray (filter (fun d => d ≠ 1%nat) (shape a)) (data a).
End Np.

(** ** The part of scikit-learn the metrics call

    [sklearn.metrics] is an external library: the four regression scores and
    [accuracy_score] are written here after its documented formulas and the
    argument checks of its source ([_check_reg_targets], [check_array],
    [_check_targets], [type_of_target]).  [np.log1p] is not one of the
    kernel's float primitives and stays a parameter. *)

Module Sk.
Import Float64 Np.
Local Open Scope float_scope.

(** The [multioutput] argument: [None] or a string. *)
Inductive multioutput_arg :=
  | MoNone
  | MoStr (s : string).

Definition mo_eq (mo : multioutput_arg) (s : string) : bool :=
  match mo with
  | MoStr t => String.eqb t s
  | MoNone => false
  end.

(** What a metric returns: a numpy scalar, an array, or a built-in float. *)
Inductive retval :=
  | RScalar (v : float)
  | RArray (a : ndarray)
  | RPyFloat (v : float).

(** [check_array]: every element finite, at least one sample and one
    feature. *)
Definition check_array (a : ndarray) : result unit :=
  if negb (forallb is_finite (data a)) then Raise ValueError
  else if ((nrows a =? 0) || (ncols a =? 0))%nat then Raise ValueError
  else Ok tt.

Definition _check_reg_targets (y_true y_pred : ndarray) : result unit :=
  _ ← check_array y_true; check_array y_pred.

(** The end of the three error scores: the raw errors, or their
    [np.average]; a string other than the two is handed to [np.average] as
    weights, which fails. *)
Definition reduce_errors (output_errors : ndarray) (multioutput : multioutput_arg)
  : result retval :=
  match multioutput with
  | MoNone => Ok (RScalar (mean output_errors))
  | MoStr s =>
      if String.eqb s "raw_values" then Ok (RArray output_errors)
      else if String.eqb s "uniform_average" then Ok (RScalar (mean output_errors))
      else Raise TypeError
  end.

Definition mean_squared_error (y_true y_pred : ndarray) (multioutput : multioutput_arg)
  : result retval :=
  _ ← _check_reg_targets y_true y_pred;
  let output_errors :=
    mean_axis0 (map1 (fun d => d * d) (map2 PrimFloat.sub y_true y_pred)) in
  reduce_errors output_errors multioutput.

Definition mean_absolute_error (y_true y_pred : ndarray) (multioutput : multioutput_arg)
  : result retval :=
  _ ← _check_reg_targets y_true y_pred;
  let output_errors := mean_axis0 (map1 abs (map2 PrimFloat.sub y_pred y_true)) in
  reduce_errors output_errors multioutput.

Section Log1p.
Variable log1p : float -> float.

Definition mean_squared_log_error (y_true y_pred : ndarray)
  (multioutput : multioutput_arg) : result retval :=
  _ ← _check_reg_targets y_true y_pred;
  if existsb (fun v => v <? 0) (data y_true) || existsb (fun v => v <? 0) (data y_pred)
  then Raise ValueError
  else mean_squared_error (map1 log1p y_true) (map1 log1p y_pred) multioutput.
End Log1p.

(** [np.average(a, weights=w)]. *)
Definition average_weighted (a w : ndarray) : result float :=
  let scl := fsum (data w) in
  if scl =? 0 then Raise ZeroDivisionError
  else Ok (fsum (zip_with PrimFloat.mul (data a) (data w)) / scl).

Definition r2_output_score (numerator denominator : float) : float :=
  let nonzero_denominator := negb (denominator =? 0) in
  let nonzero_numerator := negb (numerator =? 0) in
  if nonzero_denominator && nonzero_numerator then 1 - numerator / denominator
  else if nonzero_numerator && negb nonzero_denominator then 0
  else 1.

Definition r2_score (y_true y_pred : ndarray) (multioutput : multioutput_arg)
  : result retval :=
  _ ← _check_reg_targets y_true y_pred;
  if (nrows y_pred <? 2)%nat then Ok (RPyFloat nan)
  else
    let weight := 1 in
    let sq_dev (a b : ndarray) :=
      map1 (fun d => weight * (d * d)) (map2 PrimFloat.sub a b) in
    let numerator := sum_axis0 (sq_dev y_true y_pred) in
    let avg := mean_axis0 y_true in
    let centred :=
      NDArray (shape y_true)
        (concat ((fun r => zip_with PrimFloat.sub r (data avg))
                   <$> rows_of (nrows y_true) (ncols y_true) (data y_true))) in
    let denominator :=
      sum_axis0 (map1 (fun d => weight * (d * d)) centred) in
    let output_scores :=
      NDArray [ncols y_true]
        (zip_with r2_output_score (data numerator) (data denominator)) in
    match multioutput with
    | MoNone => Ok (RScalar (mean output_scores))
    | MoStr s =>
        if String.eqb s "raw_values" then Ok (RArray output_scores)
        else if String.eqb s "uniform_average" then Ok (RScalar (mean output_scores))
        else if String.eqb s "variance_weighted" then
          if negb (existsb (fun d => negb (d =? 0)) (data denominator)) then
            if negb (existsb (fun d => negb (d =? 0)) (data numerator))
            then Ok (RPyFloat 1) else Ok (RPyFloat 0)
          else v ← average_weighted output_scores denominator; Ok (RScalar v)
        else Raise TypeError
    end.

(** *** [accuracy_score] *)

(** [np.squeeze] of an argument: an array, or the 0-d object array numpy
    wraps around a value that is no sequence ([None], a dict). *)
Inductive squeezed :=
  | SqArray (a : ndarray)
  | SqObject.

Inductive target_type :=
  | Binary
  | Multiclass
  | MultilabelIndicator
  | Continuous
  | ContinuousMultioutput
  | MulticlassMultioutput
  | Unknown.

(** The number of distinct values ([len(np.unique(y))]). *)
Fixpoint n_unique (l : list float) : nat :=
  match l with
  | [] => 0
  | x :: xs => if existsb (fun y => x =? y) xs then n_unique xs else S (n_unique xs)
  end.

Definition is_multilabel (y : ndarray) : bool :=
  (ndim y =? 2)%nat && (1 <? ncols y)%nat && (n_unique (data y) <? 3)%nat
  && negb (existsb differs_from_int_cast (data y)).

Definition type_of_target (y : ndarray) : result target_type :=
  if is_multilabel y then Ok MultilabelIndicator
  else if (2 <? ndim y)%nat then Ok Unknown
  else if ((ndim y =? 2) && (ncols y =? 0))%nat then Ok Unknown
  else
    let multioutput := ((ndim y =? 2) && (1 <? ncols y))%nat in
    if existsb differs_from_int_cast (data y) then
      if negb (forallb is_finite (data y)) then Raise ValueError
      else Ok (if multioutput then ContinuousMultioutput else Continuous)
    else if (2 <? n_unique (data y))%nat || multioutput then
      Ok (if multioutput then MulticlassMultioutput else Multiclass)
    else Ok Binary.

(** [_check_targets]: the common type of the two targets, when there is one
    that [accuracy_score] supports. *)
Definition common_type (t p : target_type) : result target_type :=
  match t, p with
  | Binary, Binary => Ok Binary
  | Binary, Multiclass | Multiclass, Binary | Multiclass, Multiclass => Ok Multiclass
  | MultilabelIndicator, MultilabelIndicator => Ok MultilabelIndicator
  | _, _ => Raise ValueError
  end.

Definition count_true (l : list bool) : nat := length (filter (fun b => b = true) l).

Definition accuracy_score (y_true : squeezed) (y_pred : ndarray) : result retval :=
  match y_true with
  | SqObject => Raise TypeError
  | SqArray t =>
      if ((ndim t =? 0) || (ndim y_pred =? 0))%nat then Raise TypeError
      else if negb (nrows t =? nrows y_pred)%nat then Raise ValueError
      else
        type_true ← type_of_target t;
        type_pred ← type_of_target y_pred;
        y_type ← common_type type_true type_pred;
        match y_type with
        | MultilabelIndicator =>
            if negb (ncols t =? ncols y_pred)%nat then Raise ValueError
            else
              let differing :=
                rows_of (nrows t) (ncols t)
                  (zip_with PrimFloat.sub (data t) (data y_pred)) in
              let score := (fun r => forallb (fun d => d =? 0) r) <$> differing in
              Ok (RScalar (float_of_nat (count_true score) / float_of_nat (length score)))
        | _ =>
            let score := zip_with PrimFloat.eqb (data t) (data y_pred) in
            Ok (RScalar (float_of_nat (count_true score) / float_of_nat (length score)))
        end
  end.
End Sk.

(** ** [metrics.py] *)

Module Metrics.
Import Float64 Np Sk.
Local Open Scope float_scope.

(** [EPSILON = 1e-10], the binary64 value nearest to it. *)
Definition EPSILON : float := 0x1.b7cdfd9d7bdbbp-34.

(** What a caller may pass as [y_true] or [y_pred].  A list or tuple carries
    the array [np.array] builds from it, a DataFrame the array [to_numpy]
    gives; [PyDict] stands for a container of another type (a dict), which
    has none of the ndarray attributes. *)
Inductive pyobj :=
  | PyNone
  | PyList (a : ndarray)
  | PyTuple (a : ndarray)
  | PyNdarray (a : ndarray)
  | PyDataFrame (a : ndarray)
  | PyDict.

Definition is_None (o : pyobj) : bool :=
  match o with PyNone => true | _ => false end.

(** [isinstance(o, (list, tuple, np.ndarray, pd.DataFrame))] *)
Definition is_array_like (o : pyobj) : bool :=
  match o with
  | PyList _ | PyTuple _ | PyNdarray _ | PyDataFrame _ => true
  | _ => false
  end.

Definition is_DataFrame (o : pyobj) : bool :=
  match o with PyDataFrame _ => true | _ => false end.

(** [np.array(o)] when [o] is a list or a tuple, [o] itself otherwise. *)
Definition array_of_sequence (o : pyobj) : pyobj :=
  match o with
  | PyList a | PyTuple a => PyNdarray a
  | _ => o
  end.

Definition to_numpy (o : pyobj) : pyobj :=
  match o with PyDataFrame a => PyNdarray a | _ => o end.

(** [o.astype(np.float64)]: arrays and DataFrames have the method. *)
Definition astype_float64 (o : pyobj) : result pyobj :=
  match o with
  | PyNdarray a => Ok (PyNdarray a)
  | PyDataFrame a => Ok (PyDataFrame a)
  | _ => Raise AttributeError
  end.

(** [o.shape] of an array or a DataFrame. *)
Definition shape_of (o : pyobj) : list nat :=
  match o with
  | PyList a | PyTuple a | PyNdarray a | PyDataFrame a => shape a
  | _ => []
  end.

(** Lines 53-61: the 2-D form of one input.  A DataFrame has [ndim] 2 and no
    [reshape]; [shape[0]] of a 0-d array is out of range. *)
Definition to_2d (o : pyobj) : result ndarray :=
  match o with
  | PyNdarray a =>
      if (ndim a =? 1)%nat then reshape a [(-1)%Z; 1%Z]
      else match shape a with
           | [] => Raise IndexError
           | s0 :: _ => reshape a [Z.of_nat s0; (-1)%Z]
           end
  | _ => Raise AttributeError
  end.

Definition allowed_multioutput_str : list string :=
  ["raw_values"; "uniform_average"; "variance_weighted"].

(** Lines 35-61 of [_standardize_input]: the two inputs as 2-D arrays and the
    shape of one sample of [y_true]. *)
Definition standardized_forms (y_true y_pred : pyobj)
  : result (ndarray * ndarray * list nat) :=
  if is_None y_true || is_None y_pred then Raise ValueError
  else if negb (is_array_like y_true) then Raise ValueError
  else
    let y_true := array_of_sequence y_true in
    let y_pred := array_of_sequence y_pred in
    let '(y_true, y_pred) :=
      if is_DataFrame y_true && is_DataFrame y_pred
      then (to_numpy y_true, to_numpy y_pred) else (y_true, y_pred) in
    y_true ← astype_float64 y_true;
    y_pred ← astype_float64 y_pred;
    let original_shape := tail (shape_of y_true) in
    y_true ← to_2d y_true;
    y_pred ← to_2d y_pred;
    Ok (y_true, y_pred, original_shape).

(** Lines 63-77: the checks on the 2-D forms and on [multioutput]. *)
Definition _standardize_input (y_true y_pred : pyobj) (multioutput : multioutput_arg)
  : result (ndarray * ndarray * list nat) :=
  '(y_true, y_pred, original_shape) ← standardized_forms y_true y_pred;
  if negb (nrows y_true =? nrows y_pred)%nat then Raise ValueError
  else if negb (ncols y_true =? ncols y_pred)%nat then Raise ValueError
  else
    match multioutput with
    | MoStr s =>
        if bool_decide (s ∈ allowed_multioutput_str)
        then Ok (y_true, y_pred, original_shape)
        else Raise ValueError
    | MoNone => Ok (y_true, y_pred, original_shape)
    end.

(** The last three lines of the metrics computed with numpy. *)
Definition raw_or_mean (output_errors : ndarray) (original_shape : list nat)
  (multioutput : multioutput_arg) : result retval :=
  if mo_eq multioutput "raw_values"
  then a ← reshape output_errors (Z.of_nat <$> original_shape); Ok (RArray a)
  else Ok (RScalar (mean output_errors)).

(** [result.reshape(original_shape)] of what scikit-learn returned. *)
Definition reshape_result (res : retval) (original_shape : list nat)
  : result retval :=
  match res with
  | RArray a => a ← reshape a (Z.of_nat <$> original_shape); Ok (RArray a)
  | RScalar v => a ← reshape (NDArray [] [v]) (Z.of_nat <$> original_shape); Ok (RArray a)
  | RPyFloat _ => Raise AttributeError
  end.

(** The last three lines of the metrics computed by scikit-learn. *)
Definition raw_or_result (res : retval) (original_shape : list nat)
  (multioutput : multioutput_arg) : result retval :=
  if mo_eq multioutput "raw_values" then reshape_result res original_shape
  else Ok res.

Definition sMAPE (y_true y_pred : pyobj) (multioutput : multioutput_arg) : result retval :=
  '(y_true, y_pred, original_shape) ← _standardize_input y_true y_pred multioutput;
  let output_errors :=
    mean_axis0
      (map2 (fun t p => 100 * abs (t - p) / (abs t + abs p + EPSILON)) y_true y_pred) in
  raw_or_mean output_errors original_shape multioutput.

Definition MPE (y_true y_pred : pyobj) (multioutput : multioutput_arg) : result retval :=
  '(y_true, y_pred, original_shape) ← _standardize_input y_true y_pred multioutput;
  let output_errors :=
    mean_axis0 (map2 (fun t p => 100 * (t - p) / (t + EPSILON)) y_true y_pred) in
  raw_or_mean output_errors original_shape multioutput.

Definition MAPE (y_true y_pred : pyobj) (multioutput : multioutput_arg) : result retval :=
  '(y_true, y_pred, original_shape) ← _standardize_input y_true y_pred multioutput;
  let output_errors :=
    map1 (fun m => 100 * m)
      (mean_axis0 (map2 (fun t p => abs ((t - p) / (t + EPSILON))) y_true y_pred)) in
  raw_or_mean output_errors original_shape multioutput.

Definition MDAPE (y_true y_pred : pyobj) (multioutput : multioutput_arg) : result retval :=
  '(y_true, y_pred, original_shape) ← _standardize_input y_true y_pred multioutput;
  let output_errors :=
    median_axis0
      (map2 (fun t p => 100 * abs ((t - p) / (t + EPSILON))) y_true y_pred) in
  raw_or_mean output_errors original_shape multioutput.

Definition sMDAPE (y_true y_pred : pyobj) (multioutput : multioutput_arg) : result retval :=
  '(y_true, y_pred, original_shape) ← _standardize_input y_true y_pred multioutput;
  let output_errors :=
    median_axis0
      (map2 (fun t p => 100 * abs (t - p) / (abs t + abs p + EPSILON)) y_true y_pred) in
  raw_or_mean output_errors original_shape multioutput.

Definition ME (y_true y_pred : pyobj) (multioutput : multioutput_arg) : result retval :=
  '(y_true, y_pred, original_shape) ← _standardize_input y_true y_pred multioutput;
  let output_errors := mean_axis0 (map2 PrimFloat.sub y_true y_pred) in
  raw_or_mean output_errors original_shape multioutput.

Definition MSPE (y_true y_pred : pyobj) (multioutput : multioutput_arg) : result retval :=
  '(y_true, y_pred, original_shape) ← _standardize_input y_true y_pred multioutput;
  let output_errors :=
    mean_axis0 (map1 (fun d => d * d) (map2 PrimFloat.sub y_true y_pred)) in
  raw_or_mean output_errors original_shape multioutput.

Definition R2 (y_true y_pred : pyobj) (multioutput : multioutput_arg) : result retval :=
  '(y_true, y_pred, original_shape) ← _standardize_input y_true y_pred multioutput;
  res ← r2_score y_true y_pred multioutput;
  raw_or_result res original_shape multioutput.

Definition MAE (y_true y_pred : pyobj) (multioutput : multioutput_arg) : result retval :=
  '(y_true, y_pred, original_shape) ← _standardize_input y_true y_pred multioutput;
  res ← mean_absolute_error y_true y_pred multioutput;
  raw_or_result res original_shape multioutput.

Definition MSE (y_true y_pred : pyobj) (multioutput : multioutput_arg) : result retval :=
  '(y_true, y_pred, original_shape) ← _standardize_input y_true y_pred multioutput;
  res ← mean_squared_error y_true y_pred multioutput;
  raw_or_result res original_shape multioutput.

(** [np.sqrt]: element-wise; of a 0-d array or a scalar, a numpy scalar. *)
Definition np_sqrt (r : retval) : retval :=
  match r with
  | RArray a =>
      match shape a, data a with
      | [], [v] => RScalar (PrimFloat.sqrt v)
      | _, _ => RArray (map1 PrimFloat.sqrt a)
      end
  | RScalar v | RPyFloat v => RScalar (PrimFloat.sqrt v)
  end.

Definition RMSE (y_true y_pred : pyobj) (multioutput : multioutput_arg) : result retval :=
  np_sqrt <$> MSE y_true y_pred multioutput.

(** The calls that leave [multioutput] out. *)
Definition RMSE_default (y_true y_pred : pyobj) : result retval :=
  RMSE y_true y_pred (MoStr "raw_values").

Definition MSE_default (y_true y_pred : pyobj) : result retval :=
  MSE y_true y_pred (MoStr "uniform_average").

(** The values a result holds, in order, and its [shape]. *)
Definition values_of (r : retval) : list float :=
  match r with
  | RArray a => data a
  | RScalar v | RPyFloat v => [v]
  end.

Definition ret_shape (r : retval) : list nat :=
  match r with
  | RArray a => shape a
  | RScalar _ | RPyFloat _ => []
  end.

(** The skeleton the seven numpy metrics share, and the one the four
    scikit-learn metrics share; each metric above is an instance. *)
Definition np_metric (errors : ndarray -> ndarray -> ndarray)
  (y_true y_pred : pyobj) (multioutput : multioutput_arg) : result retval :=
  '(y_true, y_pred, original_shape) ← _standardize_input y_true y_pred multioutput;
  raw_or_mean (errors y_true y_pred) original_shape multioutput.

Definition sk_metric (score : ndarray -> ndarray -> multioutput_arg -> result retval)
  (y_true y_pred : pyobj) (multioutput : multioutput_arg) : result retval :=
  '(y_true, y_pred, original_shape) ← _standardize_input y_true y_pred multioutput;
  res ← score y_true y_pred multioutput;
  raw_or_result res original_shape multioutput.

(** A score whose raw values, when it returns an array, average to its
    uniform average. *)
Definition averages (score : ndarray -> ndarray -> multioutput_arg -> result retval)
  : Prop :=
  forall t p res,
    score t p (MoStr "raw_values") = Ok res ->
    (exists e, res = RArray e
               /\ score t p (MoStr "uniform_average") = Ok (RScalar (mean e)))
    \/ (exists v, res = RPyFloat v).

(** A call that returns zeros only, and the two [multioutput] values of the
    specification. *)
Definition zero_result (r : result retval) : Prop :=
  exists v, r = Ok v /\ Forall zerof (values_of v).

Definition raw_or_uniform (mo : multioutput_arg) : Prop :=
  mo = MoStr "raw_values" \/ mo = MoStr "uniform_average".

(** *** [Accuracy] *)

Definition np_squeeze (o : pyobj) : squeezed :=
  match o with
  | PyList a | PyTuple a | PyNdarray a | PyDataFrame a => SqArray (squeeze a)
  | PyNone | PyDict => SqObject
  end.

(** [np.where(y_pred > 0.5, 1, 0)] *)
Definition where_gt_half (p : ndarray) : ndarray :=
  map1 (fun v => if 0.5 <? v then 1 else 0) p.

(** The index of the first maximum of a sequence; a NaN counts as one. *)
Fixpoint argmax_from (best_i : nat) (best : float) (i : nat) (l : list float) : nat :=
  match l with
  | [] => best_i
  | x :: xs =>
      if negb (is_nan best) && (is_nan x || (best <? x))
      then argmax_from i x (S i) xs
      else argmax_from best_i best (S i) xs
  end.

Definition argmax_list (l : list float) : nat :=
  match l with
  | [] => 0%nat
  | x :: xs => argmax_from 0 x 1 xs
  end.

(** [np.argmax(p, axis=1)]; an array with no axis 1 raises [numpy.AxisError],
    which is a [ValueError]. *)
Definition argmax_axis1 (p : ndarray) : result ndarray :=
  match shape p with
  | n :: k :: rest =>
      if (k =? 0)%nat then Raise ValueError
      else
        let inner := size_of rest in
        Ok (NDArray (n :: rest)
              (i ← seq 0 n; r ← seq 0 inner;
               [float_of_nat
                  (argmax_list
                     ((fun j => nth ((i * k + j) * inner + r)%nat (data p) nan)
                        <$> seq 0 k))]))
  | _ => Raise ValueError
  end.

(** [y_pred.astype(int)] of a 0-d object array calls [int] on the wrapped
    value, a [TypeError]. *)
Definition Accuracy (y_true y_pred : pyobj) (multioutput : multioutput_arg) : result retval :=
  let y_true := np_squeeze y_true in
  let y_pred := np_squeeze y_pred in
  match y_pred with
  | SqObject => Raise TypeError
  | SqArray p =>
      y_pred ← (if existsb differs_from_int_cast (data p)
                then if (ndim p =? 1)%nat then Ok (where_gt_half p)
                     else argmax_axis1 p
                else Ok p);
      accuracy_score y_true y_pred
  end.

(** *** [Evaluator] *)

Definition metric_fn : Type := pyobj -> pyobj -> multioutput_arg -> result retval.

Section Evaluator.
Variable log1p : float -> float.

Definition MSLE (y_true y_pred : pyobj) (multioutput : multioutput_arg) : result retval :=
  '(y_true, y_pred, original_shape) ← _standardize_input y_true y_pred multioutput;
  res ← mean_squared_log_error log1p y_true y_pred multioutput;
  raw_or_result res original_shape multioutput.

Definition metrics_items : list (string * metric_fn) :=
  [ ("me", ME); ("mae", MAE); ("mse", MSE); ("rmse", RMSE); ("msle", MSLE);
    ("r2", R2); ("mpe", MPE); ("mape", MAPE); ("mspe", MSPE); ("smape", sMAPE);
    ("mdape", MDAPE); ("smdape", sMDAPE); ("accuracy", Accuracy) ].

Definition metrics_func : gmap string metric_fn := list_to_map metrics_items.

Definition max_mode_metrics : list string := ["r2"; "accuracy"].

(** [metric] is [None] or a string; [not metric] holds of [None] and of the
    empty string. *)
Definition check_metric (metric : option string) : result unit :=
  match metric with
  | None | Some EmptyString => Raise ValueError
  | Some m =>
      if bool_decide (is_Some (metrics_func !! m)) then Ok tt
      else Raise ValueError
  end.

Definition evaluate (metric : option string) (y_true y_pred : pyobj)
  (multioutput : multioutput_arg) : result retval :=
  _ ← check_metric metric;
  match metric ≫= (metrics_func !!.) with
  | Some f => f y_true y_pred multioutput
  | None => Raise KeyError
  end.

Definition get_metric_mode (metric : option string) : result string :=
  _ ← check_metric metric;
  match metric with
  | Some m => if bool_decide (m ∈ max_mode_metrics) then Ok "max" else Ok "min"
  | None => Raise TypeError
  end.

End Evaluator.
End Metrics.

(** ** [parquet_dataset.py] *)

Module Parquet.

(** [os.path.join(a, b)] for a relative [b]. *)
Fixpoint ends_with_slash (a : string) : bool :=
  match a with
  | EmptyString => false
  | String c EmptyString => bool_decide (c = "/"%char)
  | String _ rest => ends_with_slash rest
  end.

Definition path_join (a b : string) : string :=
  if bool_decide (a = "") then b
  else if ends_with_slash a then a +:+ b
  else a +:+ "/" +:+ b.

(** [f"chunk={i}"] *)
Definition chunk_name (i : nat) : string := "chunk=" +:+ pretty i.

(** *** [ParquetDataset.write] *)

(** Modelled from the spec: [chunks] of [zoo.orca.data.image.utils] is not
    among the sources.  The glossary has a chunk as "one partition-sized
    subset of records": the records are cut, in order, into blocks of
    [n] records, the last block holding what is left.  A block size of zero
    yields no block. *)
Fixpoint chunks_upto {A} (fuel : nat) (l : list A) (n : nat) : list (list A) :=
  match fuel with
  | O => []
  | S fuel' =>
      match l with
      | [] => []
      | _ => take n l :: chunks_upto fuel' (drop n l) n
      end
  end.

Definition chunks {A} (l : list A) (n : nat) : list (list A) :=
  if (n =? 0)%nat then [] else chunks_upto (length l) l n.

(** [ceil(n / b)] *)
Definition ceil_div (n b : nat) : nat := (n + b - 1) / b.

Section WriteDataset.
Context {record row schema : Type}.

(** [dict_to_row] and [encode_schema] of [zoo.orca.data.image.utils]: the row
    of a record under a schema, and the text of a schema. *)
Variable dict_to_row : schema -> record -> row.
Variable encode_schema : schema -> string.

(** What [write] does to the file system: each chunk handed to Spark as one
    Parquet directory, then the metadata written as text. *)
Inductive fs_op :=
  | WriteParquet (chunk_path : string) (write_mode : string) (rows : list row)
  | WriteText (path : string) (content : string).

Definition write (path : string) (generator : list record) (sch : schema)
  (block_size : nat) (write_mode : string) : list fs_op :=
  imap (fun i chunk =>
          WriteParquet (path_join path (chunk_name i)) write_mode
            (dict_to_row sch <$> chunk))
       (chunks generator block_size)
  ++ [WriteText (path_join path "_orca_metadata") (encode_schema sch)].

End WriteDataset.

(** *** [write_parquet] and [read_parquet] *)

Inductive writer := write_mnist | write_from_directory | write_voc.
Inductive reader := read_as_tfdataset | read_as_dataloader_fn.

(** [assert keyword in kwargs] for each required keyword, in order. *)
Fixpoint _check_arguments {V} (_format : string) (kwargs : gmap string V)
  (args : list string) : result unit :=
  match args with
  | [] => Ok tt
  | keyword :: rest =>
      if bool_decide (is_Some (kwargs !! keyword))
      then _check_arguments _format kwargs rest
      else Raise AssertionError
  end.

Definition write_format_to_function : gmap string (writer * list string) :=
  list_to_map
    [ ("mnist", (write_mnist, ["image_file"; "label_file"]));
      ("image_folder", (write_from_directory, ["directory"; "label_map"]));
      ("voc", (write_voc, ["voc_root_path"; "splits_names"])) ].

Definition read_format_to_function : gmap string (reader * list string) :=
  list_to_map
    [ ("tf_dataset", (read_as_tfdataset, ["output_types"]));
      ("dataloader", (read_as_dataloader_fn, [])) ].

Section Dispatch.
Context {V R : Type}.

(** The bodies of the writers and readers: they run Spark, pyarrow and
    torch, and are entered only after the checks. *)
Variable call_writer : writer -> string -> gmap string V -> result R.
Variable call_reader : reader -> string -> gmap string V -> result R.

Definition write_parquet (format output_path : string) (kwargs : gmap string V)
  : result R :=
  if negb (bool_decide (format ∈ ["mnist"; "image_folder"; "voc"]))
  then Raise ValueError
  else match write_format_to_function !! format with
       | Some (func, required_args) =>
           _ ← _check_arguments format kwargs required_args;
           call_writer func output_path kwargs
       | None => Raise KeyError
       end.

Definition read_parquet (format input_path : string) (kwargs : gmap string V)
  : result R :=
  if negb (bool_decide (format ∈ ["tf_dataset"; "dataloader"]))
  then Raise ValueError
  else match read_format_to_function !! format with
       | Some (func, required_args) =>
           _ ← _check_arguments format kwargs required_args;
           call_reader func input_path kwargs
       | None => Raise KeyError
       end.

End Dispatch.

(** *** [read_as_dataloader] *)

(** [list.sort()] on path strings: ascending by code point. *)
Definition path_le (s t : string) : Prop := String.leb s t = true.

#[global] Instance path_le_dec : RelDecision path_le :=
  fun s t => decide (String.leb s t = true).

Definition sort_paths (l : list string) : list string := merge_sort path_le l.

Section Dataloader.
Context {record : Type}.

(** [pq.read_table(chunk_path)] decoded into records. *)
Variable read_chunk : string -> list record.

(** [ParquetIterableDataset.__init__]: the records it keeps in [datapiece]. *)
Definition dataset_init (row_group : list string) (num_shards rank : option Z)
  : result (list record) :=
  let row_group := sort_paths row_group in
  let n := length row_group in
  filter_row_group_indexed ←
    match num_shards, rank with
    | Some num_shards, Some rank =>
        if negb (num_shards <=? Z.of_nat n)%Z then Raise AssertionError
        else if negb (rank <? num_shards)%Z then Raise AssertionError
        else if ((num_shards =? 0)%Z && (0 <? n)%nat) then Raise ZeroDivisionError
        else Ok (filter (fun index => (Z.of_nat index mod num_shards)%Z = rank)
                   (seq 0 n))
    | _, _ => Ok (seq 0 n)
    end;
  let selected :=
    (fun i => default "" (row_group !! i)) <$> filter_row_group_indexed in
  Ok (concat (read_chunk <$> selected)).

(** The same shard in the spec's words: of the chunk paths in sorted order,
    those whose index is congruent to [rank] modulo [num_shards]. *)
Definition shard_paths (row_group : list string) (num_shards rank : Z)
  : list string :=
  snd <$> filter (fun p => ((Z.of_nat (fst p) - rank) mod num_shards = 0)%Z)
            (imap pair (sort_paths row_group)).

(** [__next__] until [StopIteration]: every kept record, through
    [transforms] when there is one. *)
Definition iterate (datapiece : list record) (transforms : option (record -> record))
  : list record :=
  match transforms with
  | Some f => f <$> datapiece
  | None => datapiece
  end.

(** [read_as_dataloader]: [dirs] are the directory names [os.walk(path)]
    meets; the records are those the [DataLoader] draws from the dataset. *)
Definition read_as_dataloader (path : string) (dirs : list string)
  (config : gmap string Z) (transforms : option (record -> record))
  : result (list record) :=
  let row_group :=
    path_join path <$> filter (fun name => String.prefix "chunk=" name = true) dirs in
  datapiece ← dataset_init row_group (config !! "num_shards") (config !! "rank");
  Ok (iterate datapiece transforms).

End Dataloader.

(** *** Records, rows and the store behind [write] and [_read_as_dict_rdd] *)

(** The three feature types the docstring of [write] lists. *)
Inductive FeatureType := SCALAR | NDARRAY | IMAGE.

Record SchemaField := mkSchemaField {
  feature_type : FeatureType;
  dtype : string;
  field_shape : list Z
}.

Section RoundTrip.
(** Serialized bytes, and the serialization of arrays: a codec of the
    libraries the helpers call. *)
Context {blob : Type}.
Variable serialize : Np.ndarray -> blob.
Variable deserialize : blob -> option Np.ndarray.
Variable encode_schema : gmap string SchemaField -> string.
Variable decode_schema : string -> gmap string SchemaField.

(** A field of a record or a cell of a row. *)
Inductive value :=
  | VInt (z : Z)
  | VFloat (f : float)
  | VStr (s : string)
  | VArray (a : Np.ndarray)
  | VBytes (b : blob).

(** The image files of the local file system, by path. *)
Variable files : gmap string blob.

(** Modelled from the spec: [dict_to_row] of [zoo.orca.data.image.utils] is
    not among the sources.  Per feature type, after the docstring of [write]
    and the spec's "encode/decode strategy for scalar, array, or opaque-blob
    values": a scalar is stored as it is, an array as its serialized bytes,
    an image as the raw bytes of the file its path names. *)
Definition encode_field (field : SchemaField) (v : value) : option value :=
  match feature_type field, v with
  | SCALAR, (VInt _ | VFloat _ | VStr _) => Some v
  | NDARRAY, VArray a => Some (VBytes (serialize a))
  | IMAGE, VStr path => VBytes <$> files !! path
  | _, _ => None
  end.

Definition dict_to_row (sch : gmap string SchemaField) (rec : gmap string value)
  : gmap string value :=
  map_imap (fun k field => rec !! k ≫= encode_field field) sch.

(** Modelled from the spec: [row_to_dict] of [zoo.orca.data.image.utils] is
    not among the sources.  The decoding side of the same strategies: a
    scalar is read as it is, an array is deserialized from its bytes, an
    image stays the bytes of its file. *)
Definition decode_field (field : SchemaField) (cell : value) : option value :=
  match feature_type field, cell with
  | SCALAR, (VInt _ | VFloat _ | VStr _) => Some cell
  | NDARRAY, VBytes b => VArray <$> deserialize b
  | IMAGE, VBytes b => Some (VBytes b)
  | _, _ => None
  end.

Definition row_to_dict (sch : gmap string SchemaField) (row : gmap string value)
  : gmap string value :=
  map_imap (fun k field => row !! k ≫= decode_field field) sch.

(** A record conforms to a schema: it has the schema's fields, each of its
    kind, and every image path names a file. *)
Definition field_conforms (field : SchemaField) (v : value) : bool :=
  match feature_type field, v with
  | SCALAR, (VInt _ | VFloat _ | VStr _) => true
  | NDARRAY, VArray _ => true
  | IMAGE, VStr path => bool_decide (is_Some (files !! path))
  | _, _ => false
  end.

Definition conforms (sch : gmap string SchemaField) (rec : gmap string value) : bool :=
  bool_decide (dom rec = dom sch)
  && forallb (fun kv => from_option (fun field => field_conforms field kv.2) false
                          (sch !! kv.1))
       (map_to_list rec).

(** The record as it is read back: image paths give way to file contents. *)
Definition loaded_field (field : SchemaField) (v : value) : option value :=
  match feature_type field, v with
  | IMAGE, VStr path => VBytes <$> files !! path
  | _, _ => Some v
  end.

Definition loaded (sch : gmap string SchemaField) (rec : gmap string value)
  : gmap string value :=
  map_imap (fun k field => rec !! k ≫= loaded_field field) sch.

(** The Parquet directories and text files of the file system. *)
Record store := Store {
  parquet_dirs : gmap string (list (gmap string value));
  text_files : gmap string string
}.

(** Spark's [DataFrameWriter.mode(m).parquet(p)] and [write_text]. *)
Definition run_op (op : fs_op (row := gmap string value)) (s : store) : result store :=
  match op with
  | WriteParquet p mode rows =>
      let old := parquet_dirs s !! p in
      if String.eqb mode "overwrite"
      then Ok (Store (<[p := rows]> (parquet_dirs s)) (text_files s))
      else if String.eqb mode "append"
      then Ok (Store (<[p := default [] old ++ rows]> (parquet_dirs s)) (text_files s))
      else if String.eqb mode "ignore"
      then Ok (match old with
               | Some _ => s
               | None => Store (<[p := rows]> (parquet_dirs s)) (text_files s)
               end)
      else if String.eqb mode "error" || String.eqb mode "errorifexists"
      then match old with
           | Some _ => Raise AnalysisException
           | None => Ok (Store (<[p := rows]> (parquet_dirs s)) (text_files s))
           end
      else Raise ValueError
  | WriteText p content =>
      Ok (Store (parquet_dirs s) (<[p := content]> (text_files s)))
  end.

Fixpoint run_ops (ops : list (fs_op (row := gmap string value))) (s : store)
  : result store :=
  match ops with
  | [] => Ok s
  | op :: rest => s' ← run_op op s; run_ops rest s'
  end.

(** [spark.read.parquet(path)] reads every Parquet directory under [path];
    it cannot infer a schema when there is none. *)
Definition _read_as_dict_rdd (path : string) (s : store)
  : result (list (gmap string value) * gmap string SchemaField) :=
  let dirs :=
    map_to_list
      (filter (fun kv => String.prefix (path_join path "") (fst kv) = true)
         (parquet_dirs s)) in
  match dirs with
  | [] => Raise AnalysisException
  | _ =>
      match text_files s !! path_join path "_orca_metadata" with
      | None => Raise OSError
      | Some j_str =>
          let sch := decode_schema j_str in
          Ok (row_to_dict sch <$> concat (snd <$> dirs), sch)
      end
  end.

End RoundTrip.

(** *** A small dataset for the examples: a label, a feature vector and an
    image per record *)

(** Bytes are either a serialized array or the contents of a file. *)
Definition example_blob : Type := (Np.ndarray + string)%type.

Definition example_serialize (a : Np.ndarray) : example_blob := inl a.

Definition example_deserialize (b : example_blob) : option Np.ndarray :=
  match b with
  | inl a => Some a
  | inr _ => None
  end.

Definition example_files : gmap string example_blob :=
  {[ "/img/0.jpg" := inr "JFIF-0"; "/img/1.jpg" := inr "JFIF-1";
     "/img/2.jpg" := inr "JFIF-2" ]}.

Definition example_schema : gmap string SchemaField :=
  {[ "label" := mkSchemaField SCALAR "int32" [];
     "feature" := mkSchemaField NDARRAY "float32" [2%Z];
     "image" := mkSchemaField IMAGE "bytes" [] ]}.

Definition example_encode_schema (_ : gmap string SchemaField) : string :=
  "{label: scalar, feature: ndarray, image: image}".

Definition example_decode_schema (_ : string) : gmap string SchemaField :=
  example_schema.

Definition example_record (i : nat) : gmap string (@value example_blob) :=
  {[ "label" := VInt (Z.of_nat i);
     "feature" := VArray (Np.NDArray [2] [Float64.float_of_nat i; 0.5%float]);
     "image" := VStr ("/img/" +:+ pretty i +:+ ".jpg") ]}.

(** [write] to [path] in the default mode, then the effects on the store. *)
Definition example_write (path : string)
  (generator : list (gmap string (@value example_blob))) (block_size : nat)
  (s : @store example_blob) : result (@store example_blob) :=
  run_ops (write (dict_to_row example_serialize example_files)
             example_encode_schema path generator example_schema block_size
             "overwrite") s.

Definition example_read (path : string) (s : @store example_blob)
  : result (list (gmap string (@value example_blob)) * gmap string SchemaField) :=
  _read_as_dict_rdd example_deserialize example_decode_schema path s.

(** *** The generator of [read_as_tfdataset] *)

Section TfDataset.
Context {record : Type}.
Variable read_chunk : string -> list record.

(** The [generator] inside [read_as_tfdataset]: for each directory name
    [os.walk(path)] meets that starts with ["chunk="], in the order met, the
    records of the chunk at [os.path.join(path, name)]. *)
Definition tfdataset_generator (path : string) (dirs : list string) : list record :=
  concat (read_chunk <$>
            (path_join path <$> filter (fun name => String.prefix "chunk=" name = true) dirs)).
End TfDataset.

(** *** The MNIST files *)

(** A [uint8] array: its shape and its bytes in row-major order. *)
Record u8array := U8Array { u8_shape : list nat; u8_data : list Byte.byte }.

Definition byte_value (b : Byte.byte) : Z := Z.of_N (Byte.to_N b).

(** [_read32]: the next four bytes of the stream as a big-endian [uint32],
    and the rest of the stream.  [read(4)] returns what is left when the
    stream is shorter; [np.frombuffer] gives an empty array for no byte, so
    that [[0]] is out of range, and refuses one to three bytes. *)
Definition _read32 (bytestream : list Byte.byte) : result (Z * list Byte.byte) :=
  match take 4 bytestream with
  | [b0; b1; b2; b3] =>
      Ok (byte_value b0 * 2 ^ 24 + byte_value b1 * 2 ^ 16
          + byte_value b2 * 2 ^ 8 + byte_value b3,
          drop 4 bytestream)%Z
  | [] => Raise IndexError
  | _ => Raise ValueError
  end.

(** The product of two [np.uint32] scalars wraps around. *)
Definition mul_uint32 (a b : Z) : Z := ((a * b) mod 2 ^ 32)%Z.

(** [data.reshape(dims)] of a 1-D [uint8] array, no dimension unknown. *)
Definition reshape_u8 (buf : list Byte.byte) (dims : list Z) : result u8array :=
  if (foldr Z.mul 1 dims =? Z.of_nat (length buf))%Z
  then Ok (U8Array (Z.to_nat <$> dims) buf)
  else Raise ValueError.

(** [_extract_mnist_images] on the content of the file at
    [image_filepath]. *)
Definition _extract_mnist_images (file : list Byte.byte) : result u8array :=
  '(magic, bytestream) ← _read32 file;
  if negb (magic =? 2051)%Z then Raise ValueError
  else
    '(num_images, bytestream) ← _read32 bytestream;
    '(rows, bytestream) ← _read32 bytestream;
    '(cols, bytestream) ← _read32 bytestream;
    let buf :=
      take (Z.to_nat (mul_uint32 (mul_uint32 rows cols) num_images)) bytestream in
    reshape_u8 buf [num_images; rows; cols; 1%Z].

(** What [labels_filepath] is: a [str], which has no attribute [name], or a
    path object, which has one. *)
Inductive filepath_kind := StrPath | PathObject.

(** [_extract_mnist_labels] on the content of the file at
    [labels_filepath]; the message of the [ValueError] is built from
    [labels_filepath.name]. *)
Definition _extract_mnist_labels (labels_filepath : filepath_kind)
  (file : list Byte.byte) : result u8array :=
  '(magic, bytestream) ← _read32 file;
  if negb (magic =? 2049)%Z then
    match labels_filepath with
    | StrPath => Raise AttributeError
    | PathObject => Raise ValueError
    end
  else
    '(num_items, bytestream) ← _read32 bytestream;
    let buf := take (Z.to_nat num_items) bytestream in
    Ok (U8Array [length buf] buf).

(** [a[i]] for [0 <= i]: the [i]-th sub-array along the first axis. *)
Definition u8_index (a : u8array) (i : nat) : result u8array :=
  match u8_shape a with
  | [] => Raise IndexError
  | n :: rest =>
      if (i <? n)%nat then
        let size := foldr Nat.mul 1%nat rest in
        Ok (U8Array rest (take size (drop (i * size) (u8_data a))))
      else Raise IndexError
  end.

(** A generator run to its end: the values it yields, or the exception
    that ends it. *)
Fixpoint yield_all {A B} (f : A -> result B) (l : list A) : result (list B) :=
  match l with
  | [] => Ok []
  | x :: xs => y ← f x; ys ← yield_all f xs; Ok (y :: ys)
  end.

Section WriteNdarrays.
Context {row : Type}.
Variable dict_to_row : gmap string SchemaField -> gmap string u8array -> row.
Variable encode_schema : gmap string SchemaField -> string.

(** [ndarray_dtype_to_dtype] of [zoo.orca.data.image.utils], on the name of
    a numpy dtype. *)
Variable ndarray_dtype_to_dtype : string -> string.

(** [make_generator] of [_write_ndarrays]. *)
Definition ndarrays_generator (images labels : u8array)
  : result (list (gmap string u8array)) :=
  match u8_shape images with
  | [] => Raise IndexError
  | n :: _ =>
      yield_all (fun i =>
                   image ← u8_index images i;
                   label ← u8_index labels i;
                   Ok ({[ "image" := image; "label" := label ]} : gmap string u8array))
        (seq 0 n)
  end.

Definition ndarrays_schema (images labels : u8array) : gmap string SchemaField :=
  {[ "image" := mkSchemaField NDARRAY (ndarray_dtype_to_dtype "uint8")
                  (Z.of_nat <$> tail (u8_shape images));
     "label" := mkSchemaField NDARRAY (ndarray_dtype_to_dtype "uint8")
                  (Z.of_nat <$> tail (u8_shape labels)) ]}.

(** [_write_ndarrays]; [block_size] and [write_mode] are the keywords handed
    on to [ParquetDataset.write].  A generator that raises ends the call with
    its exception; the chunks written before that are not part of the
    result. *)
Definition _write_ndarrays (images labels : u8array) (output_path : string)
  (block_size : nat) (write_mode : string) : result (list (fs_op (row := row))) :=
  generator ← ndarrays_generator images labels;
  Ok (write dict_to_row encode_schema output_path generator
        (ndarrays_schema images labels) block_size write_mode).

(** [write_mnist] on the contents of the two files. *)
Definition write_mnist_files (image_file label_file : list Byte.byte)
  (label_path : filepath_kind) (output_path : string)
  (block_size : nat) (write_mode : string) : result (list (fs_op (row := row))) :=
  images ← _extract_mnist_images image_file;
  labels ← _extract_mnist_labels label_path label_file;
  _write_ndarrays images labels output_path block_size write_mode.
End WriteNdarrays.

(** The four bytes of an unsigned 32-bit integer, most significant first:
    how the IDX format of the MNIST files stores its header fields. *)
Definition byte_of (z : Z) : Byte.byte :=
  default Byte.x00 (Byte.of_N (Z.to_N (z mod 256))).

Definition be32 (n : Z) : list Byte.byte :=
  [byte_of (n / 2 ^ 24); byte_of (n / 2 ^ 16); byte_of (n / 2 ^ 8); byte_of n].

(** *** [write_from_directory] *)

(** The schema [write_from_directory] writes under; the [dtype] of a field
    is the name of its [DType] member. *)
Definition image_folder_schema : gmap string SchemaField :=
  {[ "image" := mkSchemaField IMAGE "FLOAT32" [];
     "label" := mkSchemaField SCALAR "INT32" [];
     "image_id" := mkSchemaField SCALAR "STRING" [];
     "label_str" := mkSchemaField SCALAR "STRING" [] ]}.

Section WriteFromDirectory.
Context {blob row : Type}.
Variable dict_to_row : gmap string SchemaField -> gmap string (@value blob) -> row.
Variable encode_schema : gmap string SchemaField -> string.

(** [os.listdir]: the names in a directory, in the order the system gives
    them, or the exception it raises. *)
Variable listdir : string -> result (list string).

(** [random.shuffle] on the list of records. *)
Variable shuffle : list (gmap string (@value blob)) -> list (gmap string (@value blob)).

(** The record of one image file under the directory of one label. *)
Definition image_record (label_map : gmap string Z) (label_path label image : string)
  : result (gmap string (@value blob)) :=
  let image_path := path_join label_path image in
  match label_map !! label with
  | Some index =>
      Ok ({[ "image" := VStr image_path; "label" := VInt index;
             "image_id" := VStr image_path; "label_str" := VStr label ]}
          : gmap string (@value blob))
  | None => Raise KeyError
  end.

(** Lines 176-187: the records in the order the two loops append them. *)
Definition directory_records (directory : string) (label_map : gmap string Z)
  : result (list (gmap string (@value blob))) :=
  labels ← listdir directory;
  let valid_labels := filter (fun label => is_Some (label_map !! label)) labels in
  groups ←
    yield_all (fun label =>
                 let label_path := path_join directory label in
                 images ← listdir label_path;
                 yield_all (image_record label_map label_path label) images)
      valid_labels;
  Ok (concat groups).

(** [write_from_directory]; [block_size] and [write_mode] are the keywords
    handed on to [ParquetDataset.write]. *)
Definition write_from_directory_fn (directory : string) (label_map : gmap string Z)
  (output_path : string) (do_shuffle : bool) (block_size : nat) (write_mode : string)
  : result (list (fs_op (row := row))) :=
  generator ← directory_records directory label_map;
  let generator := if do_shuffle then shuffle generator else generator in
  Ok (write dict_to_row encode_schema output_path generator image_folder_schema
        block_size write_mode).
End WriteFromDirectory.

(** *** [merge_records] of [_read_as_xshards] *)

Section MergeRecords.
Context {blob : Type}.

(** A column of the merged partition: the list of its values, or the array
    [np.stack] builds from them, with its shape. *)
Inductive column :=
  | ColumnList (values : list (@value blob))
  | ColumnStack (stack_shape : list nat) (values : list (@value blob)).

(** The shape of a value as an array: a scalar has none. *)
Definition value_shape (v : @value blob) : list nat :=
  match v with
  | VArray a => Np.shape a
  | _ => []
  end.

(** [np.stack(values)]: it needs at least one array, and arrays of one
    shape. *)
Definition np_stack (values : list (@value blob)) : result column :=
  match values with
  | [] => Raise ValueError
  | v :: rest =>
      if forallb (fun w => bool_decide (value_shape w = value_shape v)) rest
      then Ok (ColumnStack (length values :: value_shape v) values)
      else Raise ValueError
  end.

(** [merge_records(schema, iter)]: the records of one partition merged into
    one dict of columns.  The loops run over the keys of the schema; here
    the appends are grouped by key. *)
Definition merge_records (sch : gmap string SchemaField)
  (iter : list (gmap string (@value blob))) : result (list (gmap string column)) :=
  appended ←
    yield_all (fun kf : string * SchemaField =>
                 values ← yield_all (fun rec : gmap string (@value blob) =>
                                       match rec !! kf.1 with
                                       | Some v => Ok v
                                       | None => Raise KeyError
                                       end) iter;
                 Ok (kf, values))
      (map_to_list sch);
  stacked ←
    yield_all (fun kfv : string * SchemaField * list (@value blob) =>
                 let '(k, field, values) := kfv in
                 match feature_type field with
                 | IMAGE => Ok (k, ColumnList values)
                 | _ => col ← np_stack values; Ok (k, col)
                 end)
      appended;
  Ok [list_to_map stacked].
End MergeRecords.

(** *** The cursor of the dataset: [__next__] and [worker_init_fn] *)

(** [float(n)] of a Python int: the binary64 value nearest to it; an int
    that rounds beyond the largest float raises [OverflowError] ([None]). *)
Definition float_of_int (n : Z) : option float :=
  match binary_normalize prec emax n 0 false with
  | S754_infinity _ => None
  | x => Some (SF2Prim x)
  end.

(** [math.ceil(v)]: the least integer that is no less than [v]; it raises on
    an infinity and on NaN ([None]). *)
Definition math_ceil (v : float) : option Z :=
  match Prim2SF v with
  | S754_zero _ => Some 0%Z
  | S754_finite s m e =>
      if (0 <=? e)%Z then Some ((if s then -1 else 1) * (Z.pos m * 2 ^ e))%Z
      else if s then Some (- (Z.pos m / 2 ^ (- e)))%Z
           else Some (- ((- Z.pos m) / 2 ^ (- e)))%Z
  | _ => None
  end.

(** [worker_init_fn]: [cur] and [cur_tail] of the worker's copy of the
    dataset after the call, from their values before it.  The division binds
    tighter than the subtraction.  [None]: the call raises
    ([ZeroDivisionError] without workers, [OverflowError] for a count that
    no float holds). *)
Definition worker_init_fn (cur cur_tail num_workers w_id : Z) : option (Z * Z) :=
  let iter_start := cur in
  let iter_end := cur_tail in
  workers ← float_of_int num_workers;
  if (workers =? 0)%float then None
  else
    start ← float_of_int iter_start;
    stop ← float_of_int iter_end;
    per_worker ← math_ceil (stop - start / workers)%float;
    let cur := (iter_start + w_id * per_worker)%Z in
    Some (cur, Z.min (cur + per_worker) iter_end).

(** [l[i]] for a Python int [i]: a negative index counts from the end. *)
Definition py_index {A} (l : list A) (i : Z) : option A :=
  if (0 <=? i)%Z then l !! Z.to_nat i
  else if (- Z.of_nat (length l) <=? i)%Z then l !! Z.to_nat (Z.of_nat (length l) + i)
  else None.

Section DatasetIterator.
Context {record : Type}.

(** [__next__]: the element it returns and the new [cur], or [None] for
    [StopIteration]. *)
Definition dataset_next (datapiece : list record)
  (transforms : option (record -> record)) (cur cur_tail : Z)
  : result (option (record * Z)) :=
  if (cur <? cur_tail)%Z then
    match py_index datapiece cur with
    | Some elem =>
        Ok (Some (match transforms with Some f => f elem | None => elem end,
                  (cur + 1)%Z))
    | None => Raise IndexError
    end
  else Ok None.

(** A loop over the dataset: [__next__] until [StopIteration], at most
    [fuel] times; [None] when [fuel] calls do not reach the end. *)
Fixpoint dataset_drain (fuel : nat) (datapiece : list record)
  (transforms : option (record -> record)) (cur cur_tail : Z)
  : result (option (list record)) :=
  match fuel with
  | O => Ok None
  | S fuel' =>
      step ← dataset_next datapiece transforms cur cur_tail;
      match step with
      | None => Ok (Some [])
      | Some (elem, cur') =>
          rest ← dataset_drain fuel' datapiece transforms cur' cur_tail;
          Ok (match rest with
              | Some records => Some (elem :: records)
              | None => None
              end)
      end
  end.
End DatasetIterator.
End Parquet.

(** * Properties *)

Import Float64 Np Sk Metrics Parquet.

(** ** [Evaluator]: dispatch by metric name *)
Section EvaluatorFacts.
Variable log1p : float -> float.

Let table : list (string * metric_fn) := metrics_items log1p.

Lemma metrics_func_lookup (m : string) (f : metric_fn) :
  (m, f) ∈ table -> metrics_func log1p !! m = Some f.
Proof.
  intros H. unfold metrics_func.
  apply elem_of_list_to_map_1; [|exact H].
  apply (bool_decide_unpack _). vm_compute. exact I.
Qed.

Lemma metrics_func_unsupported (m : string) :
  m ∉ table.*1 -> metrics_func log1p !! m = None.
Proof. intros H. unfold metrics_func. by apply not_elem_of_list_to_map_1. Qed.

Lemma check_metric_supported (m : string) :
  m ∈ table.*1 -> check_metric log1p (Some m) = Ok tt.
Proof.
  intros H. apply list_elem_of_fmap in H as [[m' f] [-> H]]. simpl.
  assert (Hm : m' ≠ "").
  { intros ->. apply (list_elem_of_fmap_2 fst) in H. revert H.
    apply (bool_decide_unpack _). vm_compute. exact I. }
  pose proof (metrics_func_lookup _ _ H) as Hl.
  unfold check_metric. destruct m' as [|c m']; [done|].
  rewrite Hl. rewrite bool_decide_eq_true_2; [done|by eexists].
Qed.

Lemma check_metric_unsupported (m : string) :
  m ∉ table.*1 -> check_metric log1p (Some m) = Raise ValueError.
Proof.
  intros H. unfold check_metric. destruct m as [|c m']; [done|].
  rewrite metrics_func_unsupported by done.
  rewrite bool_decide_eq_false_2; [done|]. by intros [? ?].
Qed.
End EvaluatorFacts.

(** C10: [Evaluator.evaluate] raises [ValueError] for a metric name that is
    [None], empty or none of the 13 supported keys, and for a supported name
    returns what the corresponding metric function returns on the same
    arguments; [get_metric_mode] answers "max" for "r2" and "accuracy" and
    "min" for the other supported names. *)
Theorem evaluate_dispatch (log1p : float -> float) :
  let supported :=
    [("me", ME); ("mae", MAE); ("mse", MSE); ("rmse", RMSE);
     ("msle", MSLE log1p); ("r2", R2); ("mpe", MPE); ("mape", MAPE);
     ("mspe", MSPE); ("smape", sMAPE); ("mdape", MDAPE);
     ("smdape", sMDAPE); ("accuracy", Accuracy)] in
  length supported = 13
  /\ (forall y_true y_pred multioutput,
        evaluate log1p None y_true y_pred multioutput = Raise ValueError
        /\ evaluate log1p (Some "") y_true y_pred multioutput = Raise ValueError)
  /\ (forall m y_true y_pred multioutput,
        m ∉ supported.*1 ->
        evaluate log1p (Some m) y_true y_pred multioutput = Raise ValueError)
  /\ (forall m f y_true y_pred multioutput,
        (m, f) ∈ supported ->
        evaluate log1p (Some m) y_true y_pred multioutput
        = f y_true y_pred multioutput)
  /\ (forall m,
        m ∈ supported.*1 ->
        get_metric_mode log1p (Some m)
        = Ok (if bool_decide (m = "r2" \/ m = "accuracy") then "max" else "min"))
  /\ (forall m,
        m ∉ supported.*1 -> get_metric_mode log1p (Some m) = Raise ValueError).
Proof.
  intros supported. repeat split.
  - intros m yt yp mo H. unfold evaluate.
    by rewrite (check_metric_unsupported log1p m H).
  - intros m f yt yp mo H. unfold evaluate.
    rewrite (check_metric_supported log1p m); [|by apply (list_elem_of_fmap_2 fst _ (m, f))].
    change (Some m ≫= (metrics_func log1p !!.)) with (metrics_func log1p !! m).
    by rewrite (metrics_func_lookup log1p m f H).
  - intros m H. unfold get_metric_mode.
    rewrite (check_metric_supported log1p m H). simpl.
    unfold max_mode_metrics.
    destruct (decide (m = "r2" \/ m = "accuracy")) as [Hd|Hd].
    + rewrite !bool_decide_eq_true_2; [done|done|set_unfold; tauto].
    + rewrite !bool_decide_eq_false_2; [done|done|set_unfold; tauto].
  - intros m H. unfold get_metric_mode.
    by rewrite (check_metric_unsupported log1p m H).
Qed.

(** ** [write_parquet] and [read_parquet]: required keywords *)

Lemma check_arguments_missing {V} (fmt : string) (kwargs : gmap string V)
  (args : list string) (keyword : string) :
  keyword ∈ args -> kwargs !! keyword = None ->
  _check_arguments fmt kwargs args = Raise AssertionError.
Proof.
  intros Hin Hnone. induction args as [|a args IH]; [by apply elem_of_nil in Hin|].
  simpl. case_bool_decide as Ha; [|done].
  apply elem_of_cons in Hin as [->|Hin]; [|by apply IH].
  rewrite Hnone in Ha. by destruct Ha.
Qed.

Lemma check_arguments_present {V} (fmt : string) (kwargs : gmap string V)
  (args : list string) :
  Forall (fun keyword => is_Some (kwargs !! keyword)) args ->
  _check_arguments fmt kwargs args = Ok tt.
Proof.
  induction 1 as [|a args Ha _ IH]; [done|].
  simpl. by rewrite bool_decide_eq_true_2.
Qed.

Section DispatchFacts.
Context {V R : Type}.
Variable call_writer : writer -> string -> gmap string V -> result R.
Variable call_reader : reader -> string -> gmap string V -> result R.

(** C3 (as amended): for every write format and every read format, a call of
    [write_parquet] or [read_parquet] that leaves out a keyword the format
    requires fails at once, before the writer or reader is entered, with the
    [AssertionError] of [_check_arguments]. *)
Theorem missing_keyword_raises_AssertionError
  (format path keyword : string) (kwargs : gmap string V)
  (Hmissing : kwargs !! keyword = None) :
  (forall func required,
      write_format_to_function !! format = Some (func, required) ->
      keyword ∈ required ->
      write_parquet call_writer format path kwargs = Raise AssertionError)
  /\ (forall func required,
        read_format_to_function !! format = Some (func, required) ->
        keyword ∈ required ->
        read_parquet call_reader format path kwargs = Raise AssertionError).
Proof.
  split; intros func required Hf Hk.
  - unfold write_parquet. rewrite Hf.
    rewrite (check_arguments_missing format kwargs required keyword Hk Hmissing).
    case_bool_decide as Hs; [done|]. exfalso. apply Hs.
    apply elem_of_list_to_map_2, (list_elem_of_fmap_2 fst) in Hf. exact Hf.
  - unfold read_parquet. rewrite Hf.
    rewrite (check_arguments_missing format kwargs required keyword Hk Hmissing).
    case_bool_decide as Hs; [done|]. exfalso. apply Hs.
    apply elem_of_list_to_map_2, (list_elem_of_fmap_2 fst) in Hf. exact Hf.
Qed.
End DispatchFacts.

(** C3, witness: "mnist" without [label_file], "tf_dataset" without
    [output_types]. *)
Lemma missing_keyword_witness :
  write_parquet (V := unit) (R := unit) (fun _ _ _ => Ok tt) "mnist" "/data/out"
    {[ "image_file" := tt ]} = Raise AssertionError
  /\ read_parquet (V := unit) (R := unit) (fun _ _ _ => Ok tt) "tf_dataset" "/data/out"
    ∅ = Raise AssertionError.
Proof.
  split.
  - assert (Hm : ({[ "image_file" := tt ]} : gmap string unit) !! "label_file" = None)
      by (vm_compute; reflexivity).
    apply (proj1 (missing_keyword_raises_AssertionError (fun _ _ _ => Ok tt)
                    (fun _ _ _ => Ok tt) "mnist" "/data/out" "label_file"
                    {[ "image_file" := tt ]} Hm)
             write_mnist ["image_file"; "label_file"]).
    + vm_compute; reflexivity.
    + apply (bool_decide_unpack _). vm_compute. exact I.
  - assert (Hm : (∅ : gmap string unit) !! "output_types" = None)
      by (vm_compute; reflexivity).
    apply (proj2 (missing_keyword_raises_AssertionError (fun _ _ _ => Ok tt)
                    (fun _ _ _ => Ok tt) "tf_dataset" "/data/out" "output_types"
                    ∅ Hm)
             read_as_tfdataset ["output_types"]).
    + vm_compute; reflexivity.
    + apply (bool_decide_unpack _). vm_compute. exact I.
Defined.

(** C3, counterexample to the claim as stated: the failure is not a
    [ValueError]. *)
Lemma missing_keyword_not_ValueError :
  write_parquet (V := unit) (R := unit) (fun _ _ _ => Ok tt) "mnist" "/data/out" ∅
  = Raise AssertionError
  /\ write_parquet (V := unit) (R := unit) (fun _ _ _ => Ok tt) "mnist" "/data/out" ∅
     <> Raise ValueError.
Proof. split; [vm_compute; reflexivity|vm_compute; discriminate]. Qed.

(** ** [read_as_dataloader]: shards *)

Lemma filter_seq_lookup {A} (P : nat -> Prop) `{!forall i, Decision (P i)}
  (d : A) (l : list A) (k : nat) :
  (fun i => default d (l !! (i - k))) <$> filter P (seq k (length l))
  = snd <$> filter (fun p => P (fst p)) (imap (fun i x => (k + i, x)) l).
Proof.
  revert k. induction l as [|x l IH]; intros k; [done|].
  cbn [length seq imap]. rewrite !filter_cons. cbn [fst].
  replace (k + 0) with k by lia.
  assert (Htl :
    (fun i => default d ((x :: l) !! (i - k))) <$> filter P (seq (S k) (length l))
    = snd <$> filter (fun p => P (fst p))
                (imap ((fun i x => (k + i, x)) ∘ S) l)).
  { rewrite <- (imap_ext (fun i x => (S k + i, x))) by (intros; simpl; f_equal; lia).
    rewrite <- IH. apply list_fmap_ext.
    intros i j Hj. apply list_elem_of_lookup_2, list_elem_of_filter in Hj as [_ Hj].
    apply elem_of_seq in Hj. replace (j - k) with (S (j - S k)) by lia. done. }
  destruct (decide (P k)); cbn [fmap list_fmap]; rewrite ?Htl;
    [rewrite Nat.sub_diag|]; done.
Qed.

Lemma all_indices_lookup {A} (d : A) (l : list A) :
  (fun i => default d (l !! i)) <$> seq 0 (length l) = l.
Proof.
  apply list_eq. intros i. rewrite list_lookup_fmap.
  destruct (decide (i < length l)) as [Hi|Hi].
  - rewrite lookup_seq_lt by done. simpl.
    destruct (lookup_lt_is_Some_2 l i Hi) as [x Hx]. by rewrite Hx.
  - rewrite lookup_seq_ge by lia. simpl. symmetry. apply lookup_ge_None. lia.
Qed.

Section DataloaderFacts.
Context {record : Type}.
Variable read_chunk : string -> list record.

Lemma dataloader_shard (row_group : list string) (num_shards rank : Z) :
  (0 <= rank < num_shards)%Z ->
  (num_shards <= Z.of_nat (length row_group))%Z ->
  dataset_init read_chunk row_group (Some num_shards) (Some rank)
  = Ok (concat (read_chunk <$> shard_paths row_group num_shards rank)).
Proof.
  intros Hr Hn. unfold dataset_init, shard_paths.
  assert (Hlen : length (sort_paths row_group) = length row_group).
  { unfold sort_paths. apply Permutation_length, merge_sort_Permutation. }
  rewrite Hlen.
  rewrite (proj2 (Z.leb_le _ _)) by lia. rewrite (proj2 (Z.ltb_lt _ _)) by lia.
  rewrite (proj2 (Z.eqb_neq _ _)) by lia. simpl. do 3 f_equal.
  rewrite <- Hlen.
  pose proof (filter_seq_lookup (fun i => (Z.of_nat i mod num_shards)%Z = rank) ""
                (sort_paths row_group) 0) as Hf.
  rewrite (list_fmap_ext _ (fun i => default "" (sort_paths row_group !! i)))
    in Hf by (intros; simpl; by rewrite Nat.sub_0_r).
  rewrite Hf. f_equal. apply list_filter_iff. intros [i p]. simpl.
  split.
  - intros <-. rewrite Zminus_mod_idemp_r, Z.sub_diag. apply Z.mod_0_l. lia.
  - intros H0. apply Z.mod_divide in H0; [|lia]. destruct H0 as [q Hq].
    replace (Z.of_nat i) with (rank + q * num_shards)%Z by lia.
    rewrite Z.mod_add by lia. apply Z.mod_small. lia.
Qed.

Lemma dataset_init_all (row_group : list string) (num_shards rank : option Z) :
  num_shards = None \/ rank = None ->
  dataset_init read_chunk row_group num_shards rank
  = Ok (concat (read_chunk <$> sort_paths row_group)).
Proof.
  intros H. unfold dataset_init.
  assert (Hsel : (match num_shards, rank with
                  | Some ns, Some rk =>
                      if negb (ns <=? Z.of_nat (length (sort_paths row_group)))%Z
                      then Raise AssertionError
                      else if negb (rk <? ns)%Z then Raise AssertionError
                      else if ((ns =? 0)%Z && (0 <? length (sort_paths row_group))%nat)
                      then Raise ZeroDivisionError
                      else Ok (filter (fun index => (Z.of_nat index mod ns)%Z = rk)
                                 (seq 0 (length (sort_paths row_group))))
                  | _, _ => Ok (seq 0 (length (sort_paths row_group)))
                  end) = Ok (seq 0 (length (sort_paths row_group)))).
  { destruct H as [-> | ->]; [done|by destruct num_shards]. }
  rewrite Hsel. simpl. by rewrite all_indices_lookup.
Qed.

Lemma dataset_init_rejects (row_group : list string) (num_shards rank : Z) :
  (Z.of_nat (length row_group) < num_shards \/ num_shards <= rank)%Z ->
  dataset_init read_chunk row_group (Some num_shards) (Some rank)
  = Raise AssertionError.
Proof.
  intros H. unfold dataset_init.
  assert (Hlen : length (sort_paths row_group) = length row_group).
  { unfold sort_paths. apply Permutation_length, merge_sort_Permutation. }
  rewrite Hlen.
  destruct (Z.leb_spec num_shards (Z.of_nat (length row_group))); [|done].
  simpl. destruct (Z.ltb_spec rank num_shards); [lia|done].
Qed.

(** C9 (as amended): with [num_shards] and [rank] both in [config] and
    [0 <= rank < num_shards <= number of chunk directories], the records are
    those of the chunks whose index in sorted path order is congruent to
    [rank] modulo [num_shards]; with either absent they are the records of
    all chunks, in sorted order; with both present and [num_shards] above the
    chunk count or [rank >= num_shards], construction fails on an assertion. *)
Theorem read_as_dataloader_shards (path : string) (dirs : list string)
  (config : gmap string Z) :
  let row_group :=
    path_join path <$> filter (fun name => String.prefix "chunk=" name = true) dirs in
  let chunk_count := Z.of_nat (length row_group) in
  (forall num_shards rank,
      config !! "num_shards" = Some num_shards ->
      config !! "rank" = Some rank ->
      (0 <= rank < num_shards)%Z -> (num_shards <= chunk_count)%Z ->
      read_as_dataloader read_chunk path dirs config None
      = Ok (concat (read_chunk <$> shard_paths row_group num_shards rank)))
  /\ (config !! "num_shards" = None \/ config !! "rank" = None ->
      read_as_dataloader read_chunk path dirs config None
      = Ok (concat (read_chunk <$> sort_paths row_group)))
  /\ (forall num_shards rank transforms,
        config !! "num_shards" = Some num_shards ->
        config !! "rank" = Some rank ->
        (chunk_count < num_shards \/ num_shards <= rank)%Z ->
        read_as_dataloader read_chunk path dirs config transforms
        = Raise AssertionError).
Proof.
  intros row_group chunk_count. repeat split.
  - intros ns rk Hns Hrk Hr Hn. unfold read_as_dataloader.
    rewrite Hns, Hrk. fold row_group. by rewrite dataloader_shard.
  - intros H. unfold read_as_dataloader. fold row_group.
    by rewrite dataset_init_all.
  - intros ns rk tr Hns Hrk H. unfold read_as_dataloader.
    rewrite Hns, Hrk. fold row_group. by rewrite dataset_init_rejects.
Qed.
End DataloaderFacts.

(** C9, witness: three chunks, two shards, rank 0. *)
Lemma read_as_dataloader_witness :
  read_as_dataloader (fun p => [p]) "/data" ["chunk=0"; "chunk=1"; "chunk=2"; "tmp"]
    {[ "num_shards" := 2%Z; "rank" := 0%Z ]} None
  = Ok ["/data/chunk=0"; "/data/chunk=2"].
Proof.
  assert (H1 : ({[ "num_shards" := 2%Z; "rank" := 0%Z ]} : gmap string Z)
               !! "num_shards" = Some 2%Z) by (vm_compute; reflexivity).
  assert (H2 : ({[ "num_shards" := 2%Z; "rank" := 0%Z ]} : gmap string Z)
               !! "rank" = Some 0%Z) by (vm_compute; reflexivity).
  assert (H3 : (0 <= 0 < 2)%Z) by lia.
  assert (H4 : (2 <= Z.of_nat (length (path_join "/data" <$>
                 filter (fun name => String.prefix "chunk=" name = true)
                   ["chunk=0"; "chunk=1"; "chunk=2"; "tmp"])))%Z)
    by (vm_compute; discriminate).
  rewrite (proj1 (read_as_dataloader_shards (fun p => [p]) "/data"
                    ["chunk=0"; "chunk=1"; "chunk=2"; "tmp"]
                    {[ "num_shards" := 2%Z; "rank" := 0%Z ]}) 2%Z 0%Z H1 H2 H3 H4).
  vm_compute. reflexivity.
Defined.

(** C9, counterexample to the claim as stated: rank [-1] passes the two
    assertions, and no index [i] has [i % 2 == -1], while chunk 1 is congruent
    to [-1] modulo 2. *)
Lemma negative_rank_counterexample :
  (-1 < 2 <= Z.of_nat (length ["/data/chunk=0"; "/data/chunk=1"]))%Z
  /\ read_as_dataloader (fun p => [p]) "/data" ["chunk=0"; "chunk=1"]
       {[ "num_shards" := 2%Z; "rank" := (-1)%Z ]} None
     = Ok []
  /\ concat ((fun p => [p]) <$> shard_paths ["/data/chunk=0"; "/data/chunk=1"] 2 (-1))
     = ["/data/chunk=1"].
Proof. repeat split; vm_compute; (reflexivity || discriminate). Qed.


(** ** [ParquetDataset.write]: the chunk layout *)

Lemma ceil_div_0 (b : nat) : 0 < b -> ceil_div 0 b = 0.
Proof. intros Hb. unfold ceil_div. apply Nat.div_small. lia. Qed.

Lemma ceil_div_step (n b : nat) :
  0 < b -> 0 < n -> ceil_div n b = S (ceil_div (n - b) b).
Proof.
  intros Hb Hn. unfold ceil_div.
  destruct (decide (b <= n)) as [Hle|Hlt].
  - replace (n + b - 1) with ((n - b + b - 1) + 1 * b) by lia.
    rewrite Nat.div_add by lia. lia.
  - replace (n - b) with 0 by lia. simpl.
    rewrite (Nat.div_small (b - 1) b) by lia.
    replace (n + b - 1) with ((n - 1) + 1 * b) by lia.
    rewrite Nat.div_add by lia. rewrite Nat.div_small by lia. done.
Qed.

Lemma chunks_upto_blocks {A} (b : nat) (Hb : 0 < b) (fuel : nat) (l : list A) :
  length l <= fuel ->
  chunks_upto fuel l b
  = (fun i => take b (drop (i * b) l)) <$> seq 0 (ceil_div (length l) b).
Proof.
  revert l. induction fuel as [|fuel IH]; intros l Hl.
  - destruct l; [|simpl in Hl; lia]. by rewrite ceil_div_0.
  - destruct l as [|x l]; [by rewrite ceil_div_0|].
    cbn [chunks_upto]. rewrite (ceil_div_step (length (x :: l)) b) by (simpl; lia).
    cbn [seq fmap list_fmap]. rewrite Nat.mul_0_l, drop_0. f_equal.
    rewrite <- fmap_S_seq, <- list_fmap_compose.
    rewrite IH by (rewrite length_drop; simpl in *; lia).
    rewrite length_drop. apply list_fmap_ext. intros _ i _. simpl.
    rewrite drop_drop. do 2 f_equal; lia.
Qed.

Lemma chunks_blocks {A} (b : nat) (l : list A) :
  0 < b ->
  chunks l b = (fun i => take b (drop (i * b) l)) <$> seq 0 (ceil_div (length l) b).
Proof.
  intros Hb. unfold chunks. destruct (Nat.eqb_spec b 0) as [->|_]; [lia|].
  by apply chunks_upto_blocks.
Qed.

Lemma imap_fmap_seq {B C} (f : nat -> B -> C) (h : nat -> B) (m k : nat) :
  imap (fun i => f (k + i)) (h <$> seq k m) = (fun i => f i (h i)) <$> seq k m.
Proof.
  revert k. induction m as [|m IH]; intros k; [done|].
  cbn [seq fmap list_fmap imap]. rewrite Nat.add_0_r. f_equal.
  rewrite <- IH. apply imap_ext. intros i x _. simpl. f_equal. lia.
Qed.

Lemma path_join_inj (a b c : string) : path_join a b = path_join a c -> b = c.
Proof.
  unfold path_join. case_bool_decide as Ha; [done|].
  destruct (ends_with_slash a); intros Heq.
  - by apply (inj (String.app a)) in Heq.
  - apply (inj (String.app a)) in Heq. by apply (inj (String.app "/")) in Heq.
Qed.

Lemma chunk_name_inj (i j : nat) : chunk_name i = chunk_name j -> i = j.
Proof.
  unfold chunk_name. intros H. apply (inj (String.app "chunk=")) in H.
  by apply (inj pretty) in H.
Qed.

Section LayoutFacts.
Context {blob record schema : Type}.
Variable dict_to_row : schema -> record -> gmap string (@value blob).
Variable encode_schema : schema -> string.
Implicit Types (s : @store blob).

Local Abbreviation rows_t := (list (gmap string (@value blob))).
Local Abbreviation put_dir :=
  (fun (m : gmap string rows_t) (kv : string * rows_t) => <[kv.1 := kv.2]> m).

(** One chunk written in a save mode of Spark, to a directory the mode
    replaces or that is not there yet. *)
Lemma run_op_creates (p mode : string) (rows : rows_t) s :
  mode = "overwrite"
  \/ (mode ∈ ["append"; "ignore"; "error"; "errorifexists"]
      /\ parquet_dirs s !! p = None) ->
  run_op (WriteParquet p mode rows) s
  = Ok (Store (<[p := rows]> (parquet_dirs s)) (text_files s)).
Proof.
  intros [-> | [Hmode Hnew]]; [done|].
  unfold run_op. rewrite Hnew.
  set_unfold in Hmode. by destruct Hmode as [-> | [-> | [-> | [-> | []]]]].
Qed.

Lemma run_writes_create (kvs : list (string * rows_t)) (mode : string)
  (rest : list (fs_op (row := gmap string (@value blob)))) s :
  NoDup kvs.*1 ->
  mode = "overwrite"
  \/ (mode ∈ ["append"; "ignore"; "error"; "errorifexists"]
      /\ forall p, p ∈ kvs.*1 -> parquet_dirs s !! p = None) ->
  run_ops (((fun kv => WriteParquet kv.1 mode kv.2) <$> kvs) ++ rest) s
  = run_ops rest (Store (foldl put_dir (parquet_dirs s) kvs) (text_files s)).
Proof.
  revert s. induction kvs as [|[p rows] kvs IH]; intros s Hnd Hmode;
    [by destruct s|].
  apply NoDup_cons in Hnd as [Hp Hnd].
  cbn [fmap list_fmap app run_ops fst snd].
  rewrite (run_op_creates p mode rows).
  - cbn [mbind result_bind]. rewrite IH; [done|done|].
    destruct Hmode as [-> | [Hmode Hnew]]; [by left|right]. split; [done|].
    intros q Hq. cbn [parquet_dirs]. rewrite lookup_insert_ne.
    + apply Hnew. by right.
    + simpl in Hp. by intros ->.
  - destruct Hmode as [-> | [Hmode Hnew]]; [by left|right]. split; [done|].
    apply Hnew. by left.
Qed.

Lemma foldl_put_dir_lookup (kvs : list (string * rows_t)) (m : gmap string rows_t) :
  NoDup kvs.*1 ->
  (forall p rows, (p, rows) ∈ kvs -> foldl put_dir m kvs !! p = Some rows)
  /\ (forall p, p ∉ kvs.*1 -> foldl put_dir m kvs !! p = m !! p).
Proof.
  revert m. induction kvs as [|[q rows'] kvs IH]; intros m Hnd.
  - split; [by intros p rows ?%elem_of_nil|done].
  - apply NoDup_cons in Hnd as [Hq Hnd]. simpl in Hq.
    destruct (IH (<[q := rows']> m) Hnd) as [IH1 IH2]. split.
    + intros p rows [[= -> ->] | Hin]%elem_of_cons.
      * cbn [foldl]. rewrite IH2 by done. apply lookup_insert_eq.
      * by apply IH1.
    + intros p Hp. cbn [foldl]. rewrite IH2.
      * apply lookup_insert_ne. intros ->. apply Hp. by left.
      * intros Hin. apply Hp. by right.
Qed.

Lemma block_records (generator : list record) (sch : schema) (b i : nat) :
  0 < b ->
  let rows := dict_to_row sch <$> take b (drop (i * b) generator) in
  length rows = Nat.min ((i + 1) * b) (length generator) - i * b
  /\ forall j, j < length rows ->
       rows !! j = dict_to_row sch <$> generator !! (i * b + j).
Proof.
  intros Hb rows.
  assert (Hlen : length rows = Nat.min ((i + 1) * b) (length generator) - i * b).
  { unfold rows. rewrite length_fmap, length_take, length_drop. lia. }
  split; [done|]. intros j Hj. unfold rows.
  rewrite list_lookup_fmap, lookup_take_lt, lookup_drop; [done|lia].
Qed.

(** C8 (as amended): with a positive block size, in mode ["overwrite"] (the
    default), or in another save mode of Spark when none of the chunk
    directories is there yet, [write] on [n] records completes and leaves
    under the output path the [ceil(n/b)] pairwise distinct directories
    [chunk=0] to [chunk=ceil(n/b)-1], chunk [i] holding the rows of records
    [i*b] to [min((i+1)*b, n) - 1] in order, no other directory changed, and
    [_orca_metadata] holding the encoded schema; where the path held no
    Parquet directory, these are then all the directories under it. *)
Theorem write_layout (path : string) (generator : list record) (sch : schema)
  (block_size : nat) (write_mode : string) s :
  0 < block_size ->
  let n := length generator in
  let chunk_path (i : nat) := path_join path (chunk_name i) in
  write_mode = "overwrite"
  \/ (write_mode ∈ ["append"; "ignore"; "error"; "errorifexists"]
      /\ forall i, i < ceil_div n block_size ->
           parquet_dirs s !! chunk_path i = None) ->
  exists s',
    run_ops (write dict_to_row encode_schema path generator sch block_size write_mode) s
    = Ok s'
    /\ (forall i, i < ceil_div n block_size ->
          exists rows,
            parquet_dirs s' !! chunk_path i = Some rows
            /\ length rows = Nat.min ((i + 1) * block_size) n - i * block_size
            /\ forall j, j < length rows ->
                 rows !! j = dict_to_row sch <$> generator !! (i * block_size + j))
    /\ (forall i j, i < ceil_div n block_size -> chunk_path i = chunk_path j -> i = j)
    /\ (forall p, (forall i, i < ceil_div n block_size -> p <> chunk_path i) ->
          parquet_dirs s' !! p = parquet_dirs s !! p)
    /\ text_files s'
       = <[path_join path "_orca_metadata" := encode_schema sch]> (text_files s)
    /\ ((forall p, String.prefix (path_join path "") p = true ->
           parquet_dirs s !! p = None) ->
        forall p, String.prefix (path_join path "") p = true ->
          (is_Some (parquet_dirs s' !! p)
           <-> exists i, i < ceil_div n block_size /\ p = chunk_path i)).
Proof.
  intros Hb n chunk_path Hmode.
  set (c := ceil_div n block_size).
  set (block i := dict_to_row sch <$> take block_size (drop (i * block_size) generator)).
  set (kvs := (fun i => (chunk_path i, block i)) <$> seq 0 c).
  assert (Hkeys : kvs.*1 = chunk_path <$> seq 0 c).
  { unfold kvs. by rewrite <- list_fmap_compose. }
  assert (Hnd : NoDup kvs.*1).
  { rewrite Hkeys. apply NoDup_fmap_2; [|apply NoDup_seq].
    intros i j Hij. by apply path_join_inj, chunk_name_inj in Hij. }
  assert (Hops :
    write dict_to_row encode_schema path generator sch block_size write_mode
    = ((fun kv => WriteParquet kv.1 write_mode kv.2) <$> kvs)
      ++ [WriteText (path_join path "_orca_metadata") (encode_schema sch)]).
  { unfold write, kvs. f_equal. rewrite chunks_blocks by done.
    rewrite <- list_fmap_compose.
    apply (imap_fmap_seq
             (fun i chunk => WriteParquet (path_join path (chunk_name i)) write_mode
                               (dict_to_row sch <$> chunk))
             (fun i => take block_size (drop (i * block_size) generator)) _ 0). }
  assert (Hin : forall p, p ∈ kvs.*1 <-> exists i, i < c /\ p = chunk_path i).
  { intros p. rewrite Hkeys, list_elem_of_fmap. split.
    - intros (i & -> & Hi%elem_of_seq). exists i. split; [lia|done].
    - intros (i & Hi & ->). exists i. split; [done|]. apply elem_of_seq. lia. }
  rewrite Hops, run_writes_create; [|done|].
  2:{ destruct Hmode as [-> | [Hmode Hnew]]; [by left|right]. split; [done|].
      intros p (i & Hi & ->)%Hin. by apply Hnew. }
  cbn [run_ops run_op mbind result_bind].
  destruct (foldl_put_dir_lookup kvs (parquet_dirs s) Hnd) as [Hput Hkeep].
  eexists. split; [reflexivity|]. cbn [parquet_dirs text_files].
  assert (Hother : forall p, (forall i, i < c -> p <> chunk_path i) ->
                     foldl put_dir (parquet_dirs s) kvs !! p = parquet_dirs s !! p).
  { intros p Hp. apply Hkeep. intros (i & Hi & ->)%Hin. by apply (Hp i). }
  assert (Hchunk : forall i, i < c ->
                     foldl put_dir (parquet_dirs s) kvs !! chunk_path i = Some (block i)).
  { intros i Hi. apply Hput. unfold kvs.
    apply (list_elem_of_fmap_2 (fun i => (chunk_path i, block i))).
    apply elem_of_seq. lia. }
  split; [|split; [|split; [|split; [done|]]]].
  - intros i Hi. exists (block i). split; [by apply Hchunk|].
    by apply block_records.
  - intros i j _ Hij. by apply path_join_inj, chunk_name_inj in Hij.
  - exact Hother.
  - intros Hempty p Hunder. split.
    + intros Hsome. destruct (decide (p ∈ kvs.*1)) as [Hp|Hp]; [by apply Hin|].
      rewrite Hkeep, Hempty in Hsome by done. by destruct Hsome.
    + intros (i & Hi & ->). rewrite Hchunk by done. by eexists.
Qed.
End LayoutFacts.

(** C8, witness: three records in blocks of two, written in the default mode
    over a path whose [chunk=0] holds an older row. *)
Lemma write_layout_witness :
  exists s',
    run_ops (write (fun _ r => r) (fun _ => "{label: scalar}") "/data"
               [ {[ "label" := VInt 10 ]}; {[ "label" := VInt 11 ]};
                 {[ "label" := VInt 12 ]} ]
               (∅ : gmap string SchemaField) 2 "overwrite")
      (Store (blob := string) {[ "/data/chunk=0" := [ {[ "label" := VInt 99 ]} ] ]} ∅)
    = Ok s'
    /\ parquet_dirs s'
       = {[ "/data/chunk=0" := [ {[ "label" := VInt 10 ]}; {[ "label" := VInt 11 ]} ];
            "/data/chunk=1" := [ {[ "label" := VInt 12 ]} ] ]}
    /\ text_files s' = {[ "/data/_orca_metadata" := "{label: scalar}" ]}.
Proof.
  assert (Hb : 0 < 2) by lia.
  destruct (write_layout (blob := string) (fun _ r => r) (fun _ => "{label: scalar}")
              "/data"
              [ {[ "label" := VInt 10 ]}; {[ "label" := VInt 11 ]};
                {[ "label" := VInt 12 ]} ]
              (∅ : gmap string SchemaField) 2 "overwrite"
              (Store {[ "/data/chunk=0" := [ {[ "label" := VInt 99 ]} ] ]} ∅)
              Hb (or_introl eq_refl))
    as (s' & Hrun & _ & _ & _ & Htext & _).
  exists s'. split; [exact Hrun|]. split; [|by rewrite Htext].
  vm_compute in Hrun. by injection Hrun as <-.
Defined.

(** C8 as stated fails in the other save modes when a chunk directory is
    already there: over a path whose [chunk=0] holds one row, ["ignore"]
    keeps that row and drops the two records of the block, ["append"] adds
    the two to it, and ["error"] fails before [_orca_metadata] is written. *)
Lemma write_layout_counterexample :
  (parquet_dirs <$>
     run_ops (write (fun _ r => r) (fun _ => "{label: scalar}") "/data"
                [ {[ "label" := VInt 10 ]}; {[ "label" := VInt 11 ]} ]
                (∅ : gmap string SchemaField) 2 "ignore")
       (Store (blob := string) {[ "/data/chunk=0" := [ {[ "label" := VInt 99 ]} ] ]} ∅))
  = Ok {[ "/data/chunk=0" := [ {[ "label" := VInt 99 ]} ] ]}
  /\ (parquet_dirs <$>
        run_ops (write (fun _ r => r) (fun _ => "{label: scalar}") "/data"
                   [ {[ "label" := VInt 10 ]}; {[ "label" := VInt 11 ]} ]
                   (∅ : gmap string SchemaField) 2 "append")
          (Store (blob := string) {[ "/data/chunk=0" := [ {[ "label" := VInt 99 ]} ] ]} ∅))
     = Ok {[ "/data/chunk=0" := [ {[ "label" := VInt 99 ]}; {[ "label" := VInt 10 ]};
                                  {[ "label" := VInt 11 ]} ] ]}
  /\ run_ops (write (fun _ r => r) (fun _ => "{label: scalar}") "/data"
                [ {[ "label" := VInt 10 ]}; {[ "label" := VInt 11 ]} ]
                (∅ : gmap string SchemaField) 2 "error")
       (Store (blob := string) {[ "/data/chunk=0" := [ {[ "label" := VInt 99 ]} ] ]} ∅)
     = Raise AnalysisException.
Proof. repeat split; vm_compute; reflexivity. Qed.

(** ** Input validation *)

Lemma bind_raise {A B} (r : result A) (k : A -> result B) (e : exn) :
  r = Raise e -> r ≫= k = Raise e.
Proof. by intros ->. Qed.

Lemma standardized_forms_invalid (y_true y_pred : pyobj) :
  is_None y_true = true \/ is_None y_pred = true \/ is_array_like y_true = false ->
  standardized_forms y_true y_pred = Raise ValueError.
Proof.
  unfold standardized_forms. intros [H|[H|H]]; rewrite H; simpl; try done.
  - by rewrite orb_true_r.
  - by destruct (is_None y_true || is_None y_pred).
Qed.

Lemma standardize_mismatch (y_true y_pred : pyobj) (multioutput : multioutput_arg)
  (t p : ndarray) (os : list nat) :
  standardized_forms y_true y_pred = Ok (t, p, os) ->
  nrows t <> nrows p \/ ncols t <> ncols p ->
  _standardize_input y_true y_pred multioutput = Raise ValueError.
Proof.
  intros Hs H. unfold _standardize_input. rewrite Hs. simpl.
  destruct (Nat.eqb_spec (nrows t) (nrows p)) as [Hr|Hr]; [|done]. simpl.
  destruct (Nat.eqb_spec (ncols t) (ncols p)) as [Hc|Hc]; [|done].
  by destruct H.
Qed.

Section Metrics12.
Variable log1p : float -> float.

Lemma metrics_propagate (y_true y_pred : pyobj) (multioutput : multioutput_arg) (e : exn) :
  _standardize_input y_true y_pred multioutput = Raise e ->
  Forall (fun f : metric_fn => f y_true y_pred multioutput = Raise e)
    [ME; MAE; MSE; RMSE; MSLE log1p; R2; MPE; MAPE; MSPE; sMAPE; MDAPE; sMDAPE].
Proof.
  intros H. repeat constructor;
    unfold ME, MAE, MSE, RMSE, MSE, MSLE, R2, MPE, MAPE, MSPE, sMAPE, MDAPE, sMDAPE;
    by rewrite H.
Qed.

(** C4 (as amended): every metric function that standardizes its input
    (all of the table but [Accuracy]) raises [ValueError], from
    [_standardize_input] and before any computation, when either input is
    [None] or the ground truth is no list, tuple, ndarray or DataFrame. *)
Theorem invalid_input_raises_ValueError
  (y_true y_pred : pyobj) (multioutput : multioutput_arg) :
  is_None y_true = true \/ is_None y_pred = true \/ is_array_like y_true = false ->
  _standardize_input y_true y_pred multioutput = Raise ValueError
  /\ Forall (fun f : metric_fn => f y_true y_pred multioutput = Raise ValueError)
       [ME; MAE; MSE; RMSE; MSLE log1p; R2; MPE; MAPE; MSPE; sMAPE; MDAPE; sMDAPE].
Proof.
  intros H.
  assert (Hs : _standardize_input y_true y_pred multioutput = Raise ValueError).
  { unfold _standardize_input. by rewrite standardized_forms_invalid. }
  split; [done|by apply metrics_propagate].
Qed.

(** C5 (as amended): when the 2-D forms of the two inputs differ in their
    number of samples or of outputs, every metric function that standardizes
    its input (all of the table but [Accuracy]) raises [ValueError]. *)
Theorem shape_mismatch_raises_ValueError
  (y_true y_pred : pyobj) (multioutput : multioutput_arg)
  (t p : ndarray) (original_shape : list nat) :
  standardized_forms y_true y_pred = Ok (t, p, original_shape) ->
  nrows t <> nrows p \/ ncols t <> ncols p ->
  Forall (fun f : metric_fn => f y_true y_pred multioutput = Raise ValueError)
    [ME; MAE; MSE; RMSE; MSLE log1p; R2; MPE; MAPE; MSPE; sMAPE; MDAPE; sMDAPE].
Proof.
  intros Hs H. apply metrics_propagate. by eapply standardize_mismatch.
Qed.
End Metrics12.

(** C4, witness: [y_true] is [None]. *)
Lemma invalid_input_witness :
  Forall (fun f : metric_fn => f PyNone (PyList (NDArray [1] [1%float])) (MoStr "raw_values")
                               = Raise ValueError)
    [ME; MAE; MSE; RMSE; MSLE (fun v => v); R2; MPE; MAPE; MSPE; sMAPE; MDAPE; sMDAPE].
Proof.
  apply (invalid_input_raises_ValueError (fun v => v) PyNone
           (PyList (NDArray [1] [1%float])) (MoStr "raw_values")).
  left. reflexivity.
Defined.

(** C4, counterexample to the claim as stated: a dict as [y_pred] is not
    type-checked and fails on [astype] with [AttributeError]; [Accuracy] does
    not validate and fails on [None] with [TypeError]. *)
Lemma invalid_input_counterexample :
  ME (PyList (NDArray [1] [1%float])) PyDict (MoStr "raw_values") = Raise AttributeError
  /\ Accuracy PyNone PyNone MoNone = Raise TypeError
  /\ Accuracy PyNone (PyList (NDArray [2] [1%float; 0%float])) MoNone = Raise TypeError.
Proof. repeat split; vm_compute; reflexivity. Qed.

(** C5, witness: one sample of three outputs against three samples. *)
Lemma shape_mismatch_witness :
  Forall (fun f : metric_fn =>
            f (PyNdarray (NDArray [1; 3] [1; 0; 1]%float))
              (PyList (NDArray [3] [1; 0; 1]%float)) (MoStr "raw_values")
            = Raise ValueError)
    [ME; MAE; MSE; RMSE; MSLE (fun v => v); R2; MPE; MAPE; MSPE; sMAPE; MDAPE; sMDAPE].
Proof.
  apply (shape_mismatch_raises_ValueError (fun v => v)
           (PyNdarray (NDArray [1; 3] [1; 0; 1]%float))
           (PyList (NDArray [3] [1; 0; 1]%float)) (MoStr "raw_values")
           (NDArray [1; 3] [1; 0; 1]%float) (NDArray [3; 1] [1; 0; 1]%float) [3]).
  - vm_compute. reflexivity.
  - left. vm_compute. lia.
Defined.

(** C5, counterexample to the claim as stated: [Accuracy] squeezes both
    inputs and scores them. *)
Lemma shape_mismatch_counterexample :
  standardized_forms (PyNdarray (NDArray [1; 3] [1; 0; 1]%float))
    (PyList (NDArray [3] [1; 0; 1]%float))
  = Ok (NDArray [1; 3] [1; 0; 1]%float, NDArray [3; 1] [1; 0; 1]%float, [3])
  /\ nrows (NDArray [1; 3] [1; 0; 1]%float) <> nrows (NDArray [3; 1] [1; 0; 1]%float)
  /\ Accuracy (PyNdarray (NDArray [1; 3] [1; 0; 1]%float))
       (PyList (NDArray [3] [1; 0; 1]%float)) (MoStr "raw_values")
     = Ok (RScalar 1%float).
Proof. repeat split; try (vm_compute; reflexivity). vm_compute. lia. Qed.

(** ** [RMSE] and [MSE] *)

Lemma np_sqrt_values (r : retval) :
  values_of (np_sqrt r) = PrimFloat.sqrt <$> values_of r
  /\ ret_shape (np_sqrt r) = ret_shape r.
Proof.
  destruct r as [v|[sh d]|v]; try done.
  destruct sh as [|n sh]; [|done]. by destruct d as [|v [|w d]].
Qed.

(** C1 (as amended): called with one and the same [multioutput], [RMSE] is
    the element-wise square root of [MSE] (same shape, same failures); with
    [multioutput] left out, [RMSE] is the element-wise square root of [MSE]
    called with 'raw_values'. *)
Theorem RMSE_sqrt_of_MSE (y_true y_pred : pyobj) (multioutput : multioutput_arg) :
  RMSE y_true y_pred multioutput = np_sqrt <$> MSE y_true y_pred multioutput
  /\ RMSE_default y_true y_pred = np_sqrt <$> MSE y_true y_pred (MoStr "raw_values")
  /\ (forall e, MSE y_true y_pred multioutput = Raise e ->
                RMSE y_true y_pred multioutput = Raise e)
  /\ (forall r, MSE y_true y_pred multioutput = Ok r ->
        exists r', RMSE y_true y_pred multioutput = Ok r'
                   /\ values_of r' = PrimFloat.sqrt <$> values_of r
                   /\ ret_shape r' = ret_shape r).
Proof.
  repeat split.
  - intros e H. unfold RMSE. by rewrite H.
  - intros r H. exists (np_sqrt r). unfold RMSE. rewrite H.
    split; [done|apply np_sqrt_values].
Qed.

(** C1, counterexample to the claim as stated: with both defaults, [RMSE]
    returns the array [[1, 2]] and [sqrt(MSE)] the scalar [sqrt(2.5)]. *)
Lemma RMSE_default_counterexample :
  RMSE_default (PyNdarray (NDArray [1; 2] [0; 0]%float))
    (PyNdarray (NDArray [1; 2] [1; 2]%float))
  = Ok (RArray (NDArray [2] [1; 2]%float))
  /\ np_sqrt <$> MSE_default (PyNdarray (NDArray [1; 2] [0; 0]%float))
                   (PyNdarray (NDArray [1; 2] [1; 2]%float))
     = Ok (RScalar (PrimFloat.sqrt 2.5))
  /\ RMSE_default (PyNdarray (NDArray [1; 2] [0; 0]%float))
       (PyNdarray (NDArray [1; 2] [1; 2]%float))
     <> np_sqrt <$> MSE_default (PyNdarray (NDArray [1; 2] [0; 0]%float))
                      (PyNdarray (NDArray [1; 2] [1; 2]%float)).
Proof. repeat split; vm_compute; (reflexivity || discriminate). Qed.

(** ** [multioutput]: raw values and their uniform average *)

Lemma size_of_Z (os : list nat) :
  foldr Z.mul 1%Z (Z.of_nat <$> os) = Z.of_nat (size_of os).
Proof.
  induction os as [|n os IH]; [done|]. csimpl. rewrite IH.
  unfold size_of. simpl. lia.
Qed.

Lemma no_negative_dims (os : list nat) :
  existsb (fun d => (d <? -1)%Z) (Z.of_nat <$> os) = false.
Proof.
  induction os as [|n os IH]; [done|]. cbn [fmap list_fmap existsb].
  fold (fmap (M := list) Z.of_nat os). rewrite IH.
  destruct (Z.ltb_spec (Z.of_nat n) (-1)); [lia|done].
Qed.

Lemma no_unknown_dims (os : list nat) :
  filter (fun d => d = (-1)%Z) (Z.of_nat <$> os) = []
  /\ filter (fun d => d <> (-1)%Z) (Z.of_nat <$> os) = Z.of_nat <$> os.
Proof.
  induction os as [|n os [IH1 IH2]]; [done|]. csimpl.
  rewrite !filter_cons, IH1, IH2. split; case_decide; (done || lia).
Qed.

Lemma reshape_to_shape (e : ndarray) (os : list nat) (a : ndarray) :
  reshape e (Z.of_nat <$> os) = Ok a ->
  shape a = os /\ data a = data e /\ size_of os = size_of (shape e).
Proof.
  unfold reshape. destruct (no_unknown_dims os) as [Hm Hk].
  rewrite no_negative_dims, Hm, Hk, size_of_Z. simpl.
  destruct (Z.eqb_spec (Z.of_nat (size_of os)) (Z.of_nat (size_of (shape e))))
    as [Heq|Hne]; [|done].
  intros [= <-]. simpl. repeat split; [|lia].
  rewrite <- list_fmap_compose. rewrite <- (list_fmap_id os) at 2.
  apply list_fmap_ext. intros _ n _. simpl. lia.
Qed.

Lemma standardize_multioutput (y_true y_pred : pyobj) :
  _standardize_input y_true y_pred (MoStr "uniform_average")
  = _standardize_input y_true y_pred (MoStr "raw_values").
Proof.
  unfold _standardize_input.
  destruct (standardized_forms y_true y_pred) as [[[t p] os]|e]; [|done]. simpl.
  destruct (negb (nrows t =? nrows p)); [done|].
  by destruct (negb (ncols t =? ncols p)).
Qed.

Lemma standardize_original_shape (y_true y_pred : pyobj) (mo : multioutput_arg)
  (t p : ndarray) (os : list nat) :
  _standardize_input y_true y_pred mo = Ok (t, p, os) -> os = tail (shape_of y_true).
Proof.
  unfold _standardize_input.
  destruct (standardized_forms y_true y_pred) as [[[t' p'] os']|e] eqn:Hs; [|done].
  simpl. intros H.
  assert (os' = os) as <-.
  { destruct (negb (nrows t' =? nrows p')); [done|].
    destruct (negb (ncols t' =? ncols p')); [done|].
    destruct mo as [|s]; [by injection H|]. case_bool_decide; [by injection H|done]. }
  clear H. revert Hs. unfold standardized_forms.
  destruct y_true as [|a|a|a|a|], y_pred as [|b|b|b|b|]; cbn -[to_2d]; try done;
    repeat (match goal with
            | |- context [to_2d ?x] => destruct (to_2d x); cbn -[to_2d]; try done
            end);
    intros ?; by simplify_eq.
Qed.

(** The two ends of a metric agree on raw values and their mean. *)
Lemma raw_or_mean_average (e : ndarray) (os : list nat) (r : retval) :
  raw_or_mean e os (MoStr "raw_values") = Ok r ->
  exists a, r = RArray a /\ shape a = os
            /\ raw_or_mean e os (MoStr "uniform_average") = Ok (RScalar (mean a)).
Proof.
  unfold raw_or_mean. simpl.
  destruct (reshape e (Z.of_nat <$> os)) as [a|] eqn:Hr; [|done].
  simpl. intros [= <-]. exists a.
  apply reshape_to_shape in Hr as (Hs & Hd & Hz).
  repeat split; [done|]. unfold mean. by rewrite Hs, Hd, Hz.
Qed.

Lemma np_metric_average (errors : ndarray -> ndarray -> ndarray)
  (y_true y_pred : pyobj) (r : retval) :
  np_metric errors y_true y_pred (MoStr "raw_values") = Ok r ->
  exists a, r = RArray a /\ shape a = tail (shape_of y_true)
            /\ np_metric errors y_true y_pred (MoStr "uniform_average")
               = Ok (RScalar (mean a)).
Proof.
  unfold np_metric. rewrite standardize_multioutput.
  destruct (_standardize_input y_true y_pred (MoStr "raw_values"))
    as [[[t p] os]|e] eqn:Hs; [|done].
  simpl. intros H. apply standardize_original_shape in Hs as ->.
  by apply raw_or_mean_average.
Qed.

Lemma mean_squared_error_averages : averages mean_squared_error.
Proof.
  intros t p res. unfold mean_squared_error.
  destruct (_check_reg_targets t p); [|done]. simpl.
  intros [= <-]. left. by eexists.
Qed.

Lemma mean_absolute_error_averages : averages mean_absolute_error.
Proof.
  intros t p res. unfold mean_absolute_error.
  destruct (_check_reg_targets t p); [|done]. simpl.
  intros [= <-]. left. by eexists.
Qed.

Lemma mean_squared_log_error_averages log1p :
  averages (mean_squared_log_error log1p).
Proof.
  intros t p res. unfold mean_squared_log_error.
  destruct (_check_reg_targets t p); [|done]. simpl.
  destruct (_ || _); [done|]. apply mean_squared_error_averages.
Qed.

Lemma r2_score_averages : averages r2_score.
Proof.
  intros t p res. unfold r2_score.
  destruct (_check_reg_targets t p); [|done]. simpl.
  destruct (nrows p <? 2).
  - intros [= <-]. right. by eexists.
  - intros [= <-]. left. by eexists.
Qed.

Lemma sk_metric_average score (y_true y_pred : pyobj) (r : retval) :
  averages score ->
  sk_metric score y_true y_pred (MoStr "raw_values") = Ok r ->
  exists a, r = RArray a /\ shape a = tail (shape_of y_true)
            /\ sk_metric score y_true y_pred (MoStr "uniform_average")
               = Ok (RScalar (mean a)).
Proof.
  intros Hav. unfold sk_metric. rewrite standardize_multioutput.
  destruct (_standardize_input y_true y_pred (MoStr "raw_values"))
    as [[[t p] os]|e] eqn:Hs; [|done].
  simpl. apply standardize_original_shape in Hs as ->.
  destruct (score t p (MoStr "raw_values")) as [res|] eqn:Hres; [|done].
  simpl. destruct (Hav _ _ _ Hres) as [(e & -> & Hu)|(v & ->)]; [|done].
  rewrite Hu. simpl. unfold raw_or_result. simpl.
  destruct (reshape e _) as [a|] eqn:Hr; [|done].
  simpl. intros [= <-]. exists a.
  apply reshape_to_shape in Hr as (Hsh & Hd & Hz).
  repeat split; [done|]. unfold mean. by rewrite Hsh, Hd, Hz.
Qed.

(** C6 (as amended): for every metric function but [RMSE] and [Accuracy], a
    call with 'raw_values' that returns gives an array whose shape is that of
    [y_true] without its first axis, and the call with 'uniform_average' then
    returns the mean of that array; [RMSE] with 'raw_values' has that shape
    too, and its 'uniform_average' is the square root of the mean of [MSE]'s
    raw values. *)
Theorem raw_values_shape_and_uniform_average (log1p : float -> float) :
  Forall (fun f : metric_fn =>
            forall y_true y_pred r,
              f y_true y_pred (MoStr "raw_values") = Ok r ->
              exists a, r = RArray a
                        /\ shape a = tail (shape_of y_true)
                        /\ f y_true y_pred (MoStr "uniform_average")
                           = Ok (RScalar (mean a)))
    [ME; MAE; MSE; MSLE log1p; R2; MPE; MAPE; MSPE; sMAPE; MDAPE; sMDAPE]
  /\ (forall y_true y_pred r,
        RMSE y_true y_pred (MoStr "raw_values") = Ok r ->
        ret_shape r = tail (shape_of y_true)
        /\ exists a, MSE y_true y_pred (MoStr "raw_values") = Ok (RArray a)
                     /\ values_of r = PrimFloat.sqrt <$> data a
                     /\ RMSE y_true y_pred (MoStr "uniform_average")
                        = Ok (RScalar (PrimFloat.sqrt (mean a)))).
Proof.
  split.
  - repeat constructor; intros yt yp r.
    + apply (np_metric_average _ yt yp r).
    + apply (sk_metric_average mean_absolute_error yt yp r mean_absolute_error_averages).
    + apply (sk_metric_average mean_squared_error yt yp r mean_squared_error_averages).
    + apply (sk_metric_average _ yt yp r (mean_squared_log_error_averages log1p)).
    + apply (sk_metric_average r2_score yt yp r r2_score_averages).
    + apply (np_metric_average _ yt yp r).
    + apply (np_metric_average _ yt yp r).
    + apply (np_metric_average _ yt yp r).
    + apply (np_metric_average _ yt yp r).
    + apply (np_metric_average _ yt yp r).
    + apply (np_metric_average _ yt yp r).
  - intros yt yp r. unfold RMSE.
    destruct (MSE yt yp (MoStr "raw_values")) as [res|] eqn:Hm; [|done].
    simpl. intros [= <-].
    destruct (sk_metric_average mean_squared_error yt yp res
                mean_squared_error_averages Hm) as (a & -> & Hs & Hu).
    destruct (np_sqrt_values (RArray a)) as [Hv Hsh].
    split; [by rewrite Hsh|]. exists a. repeat split; [done|].
    change (MSE yt yp (MoStr "uniform_average"))
      with (sk_metric mean_squared_error yt yp (MoStr "uniform_average")).
    by rewrite Hu.
Qed.

(** C6, counterexample to the claim as stated: [RMSE]'s uniform average is
    [sqrt(2.5)], not the mean [1.5] of its raw values; [Accuracy] returns a
    scalar where the sample shape is [(2,)]. *)
Lemma uniform_average_counterexample :
  RMSE (PyNdarray (NDArray [1; 2] [0; 0]%float))
    (PyNdarray (NDArray [1; 2] [1; 2]%float)) (MoStr "raw_values")
  = Ok (RArray (NDArray [2] [1; 2]%float))
  /\ mean (NDArray [2] [1; 2]%float) = 1.5%float
  /\ RMSE (PyNdarray (NDArray [1; 2] [0; 0]%float))
       (PyNdarray (NDArray [1; 2] [1; 2]%float)) (MoStr "uniform_average")
     = Ok (RScalar (PrimFloat.sqrt 2.5))
  /\ PrimFloat.sqrt 2.5 <> 1.5%float
  /\ Accuracy (PyNdarray (NDArray [2; 2] [1; 0; 0; 1]%float))
       (PyNdarray (NDArray [2; 2] [1; 0; 0; 1]%float)) (MoStr "raw_values")
     = Ok (RScalar 1%float)
  /\ tail (shape_of (PyNdarray (NDArray [2; 2] [1; 0; 0; 1]%float))) = [2].
Proof.
  repeat split; try (vm_compute; reflexivity).
  intros H. apply (f_equal (fun v => PrimFloat.eqb v 1.5)) in H.
  vm_compute in H. discriminate.
Qed.

(** ** binary64 arithmetic: rounding keeps a positive mantissa positive *)

Section Rounding.
Local Open Scope Z_scope.

Lemma digits2_pos_succ (p : positive) :
  Z.pos (digits2_pos (Pos.succ p)) <= Z.pos (digits2_pos p) + 1.
Proof. induction p as [p IH|p IH|]; simpl; lia. Qed.

Lemma digits2_pos_lower (p : positive) : 2 ^ (Z.pos (digits2_pos p) - 1) <= Z.pos p.
Proof.
  induction p as [p IH|p IH|]; simpl digits2_pos; [| |done].
  - replace (Z.pos (Pos.succ (digits2_pos p)) - 1) with (Z.succ (Z.pos (digits2_pos p) - 1)) by lia.
    rewrite Z.pow_succ_r by lia. lia.
  - replace (Z.pos (Pos.succ (digits2_pos p)) - 1) with (Z.succ (Z.pos (digits2_pos p) - 1)) by lia.
    rewrite Z.pow_succ_r by lia. lia.
Qed.

Lemma digits2_pos_bound (p : positive) (k : Z) :
  0 <= k -> Z.pos p < 2 ^ k -> Z.pos (digits2_pos p) <= k.
Proof.
  intros Hk Hp. destruct (Z.le_gt_cases (Z.pos (digits2_pos p)) k) as [|Hgt]; [done|].
  pose proof (digits2_pos_lower p) as Hl.
  assert (2 ^ k <= 2 ^ (Z.pos (digits2_pos p) - 1)) by (apply Z.pow_le_mono_r; lia).
  lia.
Qed.

Lemma digits2_pos_shift (p : positive) (j : positive) :
  Z.pos (digits2_pos (Pos.iter xO p j)) = Z.pos (digits2_pos p) + Z.pos j.
Proof.
  induction j as [|j IH] using Pos.peano_ind.
  - simpl. lia.
  - rewrite Pos.iter_succ. simpl digits2_pos. lia.
Qed.

(** One right shift of a mantissa of two digits or more. *)
Lemma shr_1_pos (mrs : shr_record) (p : positive) :
  shr_m mrs = Z.pos p -> 1 < Z.pos (digits2_pos p) ->
  exists q, shr_m (shr_1 mrs) = Z.pos q
            /\ Z.pos (digits2_pos q) = Z.pos (digits2_pos p) - 1.
Proof.
  destruct mrs as [m r s]. simpl. intros -> Hd.
  destruct p as [p|p|]; simpl in *; [exists p|exists p|]; try (split; [done|lia]). lia.
Qed.

Lemma iter_shr_1_pos (k : positive) :
  forall (mrs : shr_record) (p : positive),
    shr_m mrs = Z.pos p -> Z.pos k < Z.pos (digits2_pos p) ->
    exists q, shr_m (SpecFloat.iter_pos shr_1 k mrs) = Z.pos q
              /\ Z.pos (digits2_pos q) = Z.pos (digits2_pos p) - Z.pos k.
Proof.
  induction k as [k IH|k IH|]; intros mrs p Hm Hk; simpl.
  - destruct (shr_1_pos mrs p Hm) as (q0 & Hq0 & Hd0); [lia|].
    destruct (IH _ q0 Hq0) as (q1 & Hq1 & Hd1); [lia|].
    destruct (IH _ q1 Hq1) as (q2 & Hq2 & Hd2); [lia|].
    exists q2. split; [done|lia].
  - destruct (IH _ p Hm) as (q1 & Hq1 & Hd1); [lia|].
    destruct (IH _ q1 Hq1) as (q2 & Hq2 & Hd2); [lia|].
    exists q2. split; [done|lia].
  - apply shr_1_pos; [done|lia].
Qed.

Lemma shr_record_of_loc_m (m : Z) (l : location) : shr_m (shr_record_of_loc m l) = m.
Proof. by destruct l as [|[]]. Qed.

(** [shr_fexp] of a positive mantissa at an exponent no less than [emin]. *)
Lemma shr_fexp_pos (m : positive) (e : Z) (l : location) :
  emin <= e ->
  exists q e',
    shr_m (fst (shr_fexp prec emax (Z.pos m) e l)) = Z.pos q
    /\ snd (shr_fexp prec emax (Z.pos m) e l) = e'
    /\ e <= e'
    /\ e' <= Z.max e (Z.pos (digits2_pos m) + e - prec)
    /\ Z.pos (digits2_pos q) + e' = Z.pos (digits2_pos m) + e.
Proof.
  intros He. unfold shr_fexp, shr. simpl Zdigits2.
  set (k := fexp prec emax (Z.pos (digits2_pos m) + e) - e).
  assert (Hk : k <= Z.pos (digits2_pos m) - prec \/ k <= 0).
  { unfold k, fexp, SpecFloat.emin in *. lia. }
  clearbody k. destruct k as [|j|j].
  - exists m, e. simpl. rewrite shr_record_of_loc_m. repeat split; lia.
  - destruct (iter_shr_1_pos j (shr_record_of_loc (Z.pos m) l) m) as (q & Hq & Hd).
    + apply shr_record_of_loc_m.
    + unfold prec in Hk. lia.
    + exists q, (e + Z.pos j). simpl. repeat split; try done; lia.
  - exists m, e. simpl. rewrite shr_record_of_loc_m. repeat split; lia.
Qed.

Lemma round_nearest_even_pos (q : positive) (l : location) :
  exists q', round_nearest_even (Z.pos q) l = Z.pos q'
             /\ Z.pos (digits2_pos q') <= Z.pos (digits2_pos q) + 1.
Proof.
  destruct l as [|[]]; simpl.
  - exists q. split; [done|lia].
  - destruct q; (eexists; split; [reflexivity|]); simpl; try lia.
    pose proof (digits2_pos_succ q). lia.
  - exists q. split; [done|lia].
  - exists (Pos.succ q). split; [f_equal; lia|apply digits2_pos_succ].
Qed.

Lemma binary_round_aux_pos (s : bool) (m : positive) (e : Z) (l : location) :
  emin <= e ->
  sf_positive s (binary_round_aux prec emax s (Z.pos m) e l)
  /\ (Z.pos (digits2_pos m) + e + 1 <= emax -> e <= emax - prec ->
      exists q e', binary_round_aux prec emax s (Z.pos m) e l = S754_finite s q e').
Proof.
  intros He. unfold binary_round_aux.
  destruct (shr_fexp_pos m e l He) as (q1 & e1 & Hq1 & He1 & Hle1 & Hub1 & Hd1).
  destruct (shr_fexp prec emax (Z.pos m) e l) as [mrs1 e1'] eqn:E1.
  simpl in Hq1, He1. subst e1'. rewrite Hq1.
  destruct (round_nearest_even_pos q1 (loc_of_shr_record mrs1)) as (q2 & Hq2 & Hd2).
  rewrite Hq2.
  destruct (shr_fexp_pos q2 e1 loc_Exact) as (q3 & e3 & Hq3 & He3 & Hle3 & Hub3 & Hd3);
    [lia|].
  destruct (shr_fexp prec emax (Z.pos q2) e1 loc_Exact) as [mrs3 e3'] eqn:E3.
  simpl in Hq3, He3. subst e3'. rewrite Hq3.
  split.
  - destruct (e3 <=? emax - prec); [left; by eexists _, _|by right].
  - intros HD Hee. destruct (Z.leb_spec e3 (emax - prec)) as [|Hgt]; [by eexists _, _|].
    exfalso. unfold prec, emax in *. lia.
Qed.

Lemma valid_binary_emin (s : bool) (m : positive) (e : Z) :
  valid_binary (S754_finite s m e) = true ->
  emin <= e /\ Z.pos (digits2_pos m) + e <= emax.
Proof.
  simpl. unfold bounded, canonical_mantissa, fexp, SpecFloat.emin, prec, emax.
  intros H. apply andb_true_iff in H as [H1 H2].
  apply Z.eqb_eq in H1. apply Z.leb_le in H2. lia.
Qed.

Lemma binary_normalize_number (z e : Z) :
  emin <= e ->
  match binary_normalize prec emax z e false with
  | S754_nan => False
  | S754_zero _ => z = 0
  | S754_finite s _ _ | S754_infinity s => if s then z < 0 else 0 < z
  end.
Proof.
  intros He. destruct z as [|m|m]; simpl; [done| |].
  - unfold binary_round.
    destruct (shl_align m e (fexp prec emax (Z.pos (digits2_pos m) + e))) as [mz ez] eqn:Es.
    assert (emin <= ez).
    { revert Es. unfold shl_align.
      destruct (fexp prec emax (Z.pos (digits2_pos m) + e) - e) eqn:Ef; intros [= <- <-];
        unfold fexp, SpecFloat.emin in *; lia. }
    destruct (binary_round_aux_pos false mz ez loc_Exact) as [[(q & e' & ->)| ->] _];
      (done || lia).
  - unfold binary_round.
    destruct (shl_align m e (fexp prec emax (Z.pos (digits2_pos m) + e))) as [mz ez] eqn:Es.
    assert (emin <= ez).
    { revert Es. unfold shl_align.
      destruct (fexp prec emax (Z.pos (digits2_pos m) + e) - e) eqn:Ef; intros [= <- <-];
        unfold fexp, SpecFloat.emin in *; lia. }
    destruct (binary_round_aux_pos true mz ez loc_Exact) as [[(q & e' & ->)| ->] _];
      (done || lia).
Qed.

End Rounding.

(** ** binary64 arithmetic: zeros, numbers and positive values *)

Section FloatFacts.
Local Open Scope float_scope.

Lemma SFcompare_refl (x : spec_float) :
  SFcompare x x = match x with S754_nan => None | _ => Some Eq end.
Proof.
  destruct x as [[]|[]| |[] m e]; simpl; try done;
    by rewrite Z.compare_refl, Pos.compare_cont_refl.
Qed.

Lemma is_nan_spec (v : float) :
  is_nan v = match Prim2SF v with S754_nan => true | _ => false end.
Proof.
  unfold is_nan. rewrite FloatAxioms.eqb_spec. unfold SFeqb.
  rewrite SFcompare_refl. by destruct (Prim2SF v).
Qed.

Lemma eq0_spec (v : float) :
  eq0 v = match Prim2SF v with S754_zero _ => true | _ => false end.
Proof.
  unfold eq0. rewrite FloatAxioms.eqb_spec.
  change (Prim2SF 0) with (S754_zero false).
  by destruct (Prim2SF v) as [[]|[]| |[] m e].
Qed.

Lemma zerof_eq0 (v : float) : zerof v -> eq0 v = true.
Proof. intros [b Hb]. by rewrite eq0_spec, Hb. Qed.

Lemma zerof_0 : zerof 0.
Proof. by exists false. Qed.

Lemma is_finite_cases (x : float) :
  is_finite x = true ->
  match Prim2SF x with
  | S754_zero _ | S754_finite _ _ _ => True
  | _ => False
  end.
Proof.
  unfold is_finite. intros H. apply negb_true_iff, orb_false_iff in H as [Hn Hi].
  unfold Prim2SF. rewrite Hn, Hi.
  destruct (PrimFloat.is_zero x); [done|].
  destruct (Z.frexp x) as [r ex].
  destruct (shr_fexp _ _ _ _ _) as [mrs e']. by destruct (shr_m mrs).
Qed.

Lemma sub_self (x : float) : is_finite x = true -> x - x = 0.
Proof.
  intros H. apply is_finite_cases in H. apply Prim2SF_inj.
  rewrite FloatAxioms.sub_spec. change (Prim2SF 0) with (S754_zero false).
  destruct (Prim2SF x) as [[]|[]| |s m e]; try done.
  unfold SF64sub, SFsub. rewrite Z.min_id. unfold shl_align.
  by rewrite !Z.sub_diag.
Qed.

Lemma zerof_mul (a b : float) : zerof a -> zerof b -> zerof (a * b).
Proof.
  intros [sa Ha] [sb Hb]. exists (xorb sa sb).
  by rewrite FloatAxioms.mul_spec, Ha, Hb.
Qed.

Lemma zerof_scale (c z : float) :
  is_finite c = true -> zerof z -> zerof (c * z).
Proof.
  intros Hc [sb Hb]. apply is_finite_cases in Hc.
  unfold zerof. rewrite FloatAxioms.mul_spec, Hb.
  destruct (Prim2SF c) as [sc|[]| |sc m e]; try done; by exists (xorb sc sb).
Qed.

Lemma zerof_abs (z : float) : zerof z -> abs z = 0.
Proof.
  intros [b Hb]. apply Prim2SF_inj. by rewrite FloatAxioms.abs_spec, Hb.
Qed.

Lemma zerof_add (a b : float) : zerof a -> zerof b -> zerof (a + b).
Proof.
  intros [sa Ha] [sb Hb]. unfold zerof.
  rewrite FloatAxioms.add_spec, Ha, Hb. destruct sa, sb; by eexists.
Qed.

Lemma zerof_sqrt (z : float) : zerof z -> zerof (PrimFloat.sqrt z).
Proof.
  intros [b Hb]. exists b. by rewrite FloatAxioms.sqrt_spec, Hb.
Qed.

Lemma nonzero_number_spec (d : float) :
  nonzero_number d = true ->
  match Prim2SF d with
  | S754_finite _ _ _ | S754_infinity _ => True
  | _ => False
  end.
Proof.
  unfold nonzero_number. fold (eq0 d). rewrite is_nan_spec, eq0_spec.
  by destruct (Prim2SF d).
Qed.

Lemma zerof_div (z d : float) : zerof z -> nonzero_number d = true -> zerof (z / d).
Proof.
  intros [b Hb] Hd. apply nonzero_number_spec in Hd. unfold zerof.
  rewrite FloatAxioms.div_spec, Hb.
  destruct (Prim2SF d) as [|sd| |sd m e]; try done; by eexists.
Qed.

Lemma posf_nonzero_number (d : float) : posf d -> nonzero_number d = true.
Proof.
  unfold posf, nonzero_number. fold (eq0 d). rewrite is_nan_spec, eq0_spec.
  by destruct (Prim2SF d) as [[]|[]| |[] m e].
Qed.

(** [0 / d] is [+0] for a positive [d]. *)
Lemma zero_div_pos (d : float) : posf d -> 0 / d = 0.
Proof.
  unfold posf. intros Hd. apply Prim2SF_inj. rewrite FloatAxioms.div_spec.
  change (Prim2SF 0) with (S754_zero false).
  by destruct (Prim2SF d) as [[]|[]| |[] m e].
Qed.

Lemma zerof_fsum (l : list float) : Forall zerof l -> zerof (fsum l).
Proof.
  destruct l as [|x l]; [intros _; apply zerof_0|].
  intros H. apply Forall_cons in H as [Hx Hl]. simpl.
  revert x Hx. induction Hl as [|y l Hy _ IH]; intros x Hx; [done|].
  simpl. apply IH. by apply zerof_add.
Qed.

Lemma Prim2SF_valid_emin (v : float) (s : bool) (m : positive) (e : Z) :
  Prim2SF v = S754_finite s m e -> (emin <= e)%Z.
Proof.
  intros H. pose proof (Prim2SF_valid v) as Hv. rewrite H in Hv.
  by apply valid_binary_emin in Hv as [? _].
Qed.

Lemma add_number (a b : float) :
  is_finite a = true -> is_finite b = true -> is_nan (a + b) = false.
Proof.
  intros Ha Hb. rewrite is_nan_spec, FloatAxioms.add_spec.
  pose proof (Prim2SF_valid_emin a) as Va. pose proof (Prim2SF_valid_emin b) as Vb.
  apply is_finite_cases in Ha, Hb.
  destruct (Prim2SF a) as [sa|[]| |sa ma ea], (Prim2SF b) as [sb|[]| |sb mb eb];
    try done.
  - by destruct sa, sb.
  - unfold SF64add, SFadd.
    match goal with
    | |- context [binary_normalize _ _ ?z ?e _] =>
        pose proof (binary_normalize_number z e) as Hn
    end.
    destruct (binary_normalize _ _ _ _ _); try done.
    exfalso. apply Hn. specialize (Va _ _ _ eq_refl). specialize (Vb _ _ _ eq_refl). lia.
Qed.

Lemma nonnegf_add (a b : float) : nonnegf a -> nonnegf b -> nonnegf (a + b).
Proof.
  unfold nonnegf. intros Ha Hb. rewrite FloatAxioms.add_spec.
  pose proof (Prim2SF_valid_emin a) as Va. pose proof (Prim2SF_valid_emin b) as Vb.
  destruct (Prim2SF a) as [[]|[]| |[] ma ea], (Prim2SF b) as [[]|[]| |[] mb eb];
    try done.
  unfold SF64add, SFadd.
  match goal with
  | |- context [binary_normalize _ _ ?z ?e _] =>
      pose proof (binary_normalize_number z e) as Hn
  end.
  specialize (Va _ _ _ eq_refl). specialize (Vb _ _ _ eq_refl).
  destruct (binary_normalize _ _ _ _ _) as [[]|[]| |[] m e]; try done;
    simpl in Hn; lia.
Qed.

Lemma posf_add (a b : float) : nonnegf a -> posf b -> posf (a + b).
Proof.
  unfold nonnegf, posf. intros Ha Hb. rewrite FloatAxioms.add_spec.
  pose proof (Prim2SF_valid_emin a) as Va. pose proof (Prim2SF_valid_emin b) as Vb.
  destruct (Prim2SF a) as [[]|[]| |[] ma ea], (Prim2SF b) as [[]|[]| |[] mb eb];
    try done.
  unfold SF64add, SFadd.
  match goal with
  | |- context [binary_normalize _ _ ?z ?e _] =>
      pose proof (binary_normalize_number z e) as Hn
  end.
  specialize (Va _ _ _ eq_refl). specialize (Vb _ _ _ eq_refl).
  destruct (binary_normalize _ _ _ _ _) as [[]|[]| |[] m e]; try done;
    simpl in Hn; lia.
Qed.

Lemma nonnegf_abs (x : float) : is_finite x = true -> nonnegf (abs x).
Proof.
  intros H. apply is_finite_cases in H. unfold nonnegf.
  rewrite FloatAxioms.abs_spec. by destruct (Prim2SF x).
Qed.

Lemma posf_EPSILON : posf EPSILON.
Proof. by vm_compute. Qed.

Lemma smape_denominator_pos (x : float) :
  is_finite x = true -> posf (abs x + abs x + EPSILON).
Proof.
  intros H. apply posf_add; [|apply posf_EPSILON].
  apply nonnegf_add; by apply nonnegf_abs.
Qed.

Lemma float_of_nat_pos (n : nat) :
  (0 < n)%nat -> (Z.of_nat n < 2 ^ 63)%Z -> posf (float_of_nat n).
Proof.
  intros H0 Hn. unfold posf, float_of_nat. rewrite of_uint63_spec, of_Z_spec.
  rewrite Z.mod_small by (change wB with (2 ^ 63)%Z; lia).
  pose proof (binary_normalize_number (Z.of_nat n) 0) as Hb.
  destruct (binary_normalize _ _ _ _ _) as [[]|[]| |[] m e]; try done;
    (unshelve (epose proof (Hb _) as Hb'); [by vm_compute|]); simpl in Hb'; lia.
Qed.

End FloatFacts.

(** ** Columns of an array *)

Section Columns.
Context (P : float -> Prop).

Lemma Forall_rows_of (n k : nat) (d : list float) :
  Forall P d -> Forall (Forall P) (rows_of n k d).
Proof.
  revert d. induction n as [|n IH]; intros d Hd; simpl; [done|].
  constructor; [by apply Forall_take|apply IH; by apply Forall_drop].
Qed.

Lemma Forall_zip_cons (r : list float) (cols : list (list float)) :
  Forall P r -> Forall (Forall P) cols -> Forall (Forall P) (zip_with cons r cols).
Proof.
  intros Hr. revert cols. induction Hr as [|x r Hx _ IH]; intros cols Hc; [done|].
  destruct Hc as [|c cols Hc Hcs]; simpl; [done|].
  constructor; [by constructor|by apply IH].
Qed.

Lemma Forall_transpose (k : nat) (rows : list (list float)) :
  Forall (Forall P) rows -> Forall (Forall P) (transpose k rows).
Proof.
  induction 1 as [|r rows Hr _ IH]; simpl.
  - apply Forall_replicate. constructor.
  - by apply Forall_zip_cons.
Qed.

Lemma Forall_columns (a : ndarray) :
  Forall P (data a) -> Forall (Forall P) (columns a).
Proof. intros H. by apply Forall_transpose, Forall_rows_of. Qed.
End Columns.

Lemma length_rows_of (n k : nat) (d : list float) : length (rows_of n k d) = n.
Proof. revert d. induction n as [|n IH]; intros d; simpl; [done|]. by rewrite IH. Qed.

Lemma transpose_lengths (k : nat) (rows : list (list float)) :
  Forall (fun c => length c = length rows) (transpose k rows).
Proof.
  induction rows as [|r rows IH]; simpl.
  - apply Forall_replicate. done.
  - revert IH. generalize (transpose k rows). intros cols Hc. revert r.
    induction Hc as [|c cols Hc _ IH]; intros [|x r]; simpl; try done.
    constructor; [simpl; by rewrite Hc|apply IH].
Qed.

Lemma columns_lengths (a : ndarray) :
  Forall (fun c => length c = nrows a) (columns a).
Proof.
  unfold columns. pose proof (transpose_lengths (ncols a)
                                (rows_of (nrows a) (ncols a) (data a))) as H.
  by rewrite length_rows_of in H.
Qed.

Lemma zip_with_diag {A B} (f : A -> A -> B) (d : list A) :
  zip_with f d d = (fun v => f v v) <$> d.
Proof. induction d as [|x d IH]; [done|]. simpl. by rewrite IH. Qed.

(** ** Reductions of arrays of zeros *)

Lemma zerof_over_count (z : float) (n : nat) :
  zerof z -> count_ok n -> zerof (z / float_of_nat n)%float.
Proof.
  intros Hz [H0 Hn]. apply zerof_div; [done|].
  by apply posf_nonzero_number, float_of_nat_pos.
Qed.

Lemma mean_axis0_zerof (a : ndarray) :
  Forall zerof (data a) -> count_ok (nrows a) ->
  Forall zerof (data (mean_axis0 a)).
Proof.
  intros Hd Hn. simpl. apply Forall_fmap.
  eapply Forall_impl; [by apply Forall_columns|].
  intros c Hc. simpl. apply zerof_over_count; [by apply zerof_fsum|done].
Qed.

Lemma sum_axis0_zerof (a : ndarray) :
  Forall zerof (data a) -> Forall zerof (data (sum_axis0 a)).
Proof.
  intros Hd. simpl. apply Forall_fmap.
  eapply Forall_impl; [by apply Forall_columns|].
  intros c Hc. simpl. by apply zerof_fsum.
Qed.

Lemma mean_zerof (a : ndarray) :
  Forall zerof (data a) -> count_ok (size_of (shape a)) -> zerof (mean a).
Proof.
  intros Hd Hn. unfold mean. apply zerof_over_count; [by apply zerof_fsum|done].
Qed.

Lemma Forall_insert_sorted (P : float -> Prop) (x : float) (l : list float) :
  P x -> Forall P l -> Forall P (insert_sorted x l).
Proof.
  intros Hx. induction 1 as [|y l Hy Hl IH]; simpl; [by constructor|].
  destruct (x <=? y)%float; repeat constructor; done.
Qed.

Lemma Forall_sort (P : float -> Prop) (l : list float) :
  Forall P l -> Forall P (sort l).
Proof.
  induction 1 as [|x l Hx _ IH]; simpl; [done|]. by apply Forall_insert_sorted.
Qed.

Lemma length_insert_sorted (x : float) (l : list float) :
  length (insert_sorted x l) = S (length l).
Proof.
  induction l as [|y l IH]; simpl; [done|].
  destruct (x <=? y)%float; simpl; by rewrite ?IH.
Qed.

Lemma length_sort (l : list float) : length (sort l) = length l.
Proof.
  induction l as [|x l IH]; simpl; [done|]. by rewrite length_insert_sorted, IH.
Qed.

Lemma zerof_number (z : float) : zerof z -> is_nan z = false.
Proof. intros [b Hb]. by rewrite is_nan_spec, Hb. Qed.

Lemma zerof_nth (l : list float) (i : nat) :
  Forall zerof l -> (i < length l)%nat -> zerof (nth i l nan).
Proof.
  intros Hl Hi. destruct (nth_lookup_or_length l i nan) as [Hx|]; [|lia].
  eapply Forall_lookup_1; done.
Qed.

Lemma median1_zerof (c : list float) :
  Forall zerof c -> (0 < length c)%nat -> zerof (median1 c).
Proof.
  intros Hc Hn. unfold median1.
  destruct (Nat.eqb_spec (length c) 0) as [|_]; [lia|].
  assert (Hnan : existsb is_nan c = false).
  { apply not_true_iff_false. intros Hex. apply existsb_exists in Hex as (x & Hx & Hxn).
    apply list_elem_of_In in Hx. rewrite Forall_forall in Hc.
    by rewrite (zerof_number x (Hc x Hx)) in Hxn. }
  rewrite Hnan.
  assert (Hs : Forall zerof (sort c)) by by apply Forall_sort.
  assert (Hdiv : (length c / 2 < length c)%nat) by (apply Nat.div_lt; lia).
  destruct (Nat.odd (length c)).
  - apply zerof_nth; [done|]. by rewrite length_sort.
  - apply zerof_div.
    + apply zerof_add; apply zerof_nth; try done; rewrite length_sort; lia.
    + by vm_compute.
Qed.

Lemma median_axis0_zerof (a : ndarray) :
  Forall zerof (data a) -> (0 < nrows a)%nat ->
  Forall zerof (data (median_axis0 a)).
Proof.
  intros Hd Hn. simpl. apply Forall_fmap.
  pose proof (Forall_columns zerof a Hd) as H1.
  pose proof (columns_lengths a) as H2.
  rewrite Forall_forall in H1, H2. apply Forall_forall. intros c Hc. simpl.
  apply median1_zerof; [by apply H1|]. rewrite (H2 c Hc). done.
Qed.

(** ** The 2-D forms *)

Lemma reshape_column (a : ndarray) (n : nat) :
  shape a = [n] -> reshape a [(-1)%Z; 1%Z] = Ok (NDArray [n; 1] (data a)).
Proof.
  intros Hs. unfold reshape. rewrite Hs. cbn [existsb].
  rewrite !filter_cons, !filter_nil. repeat case_decide; try done.
  cbn -[Z.of_nat Z.div Z.modulo size_of]. rewrite Z.mod_1_r. simpl orb. cbv iota.
  do 2 f_equal. cbn -[Z.of_nat Z.div size_of]. rewrite Z.div_1_r, Nat2Z.id.
  f_equal. unfold size_of. simpl. lia.
Qed.

Lemma reshape_rows (a : ndarray) (s0 : nat) (rest : list nat) :
  shape a = s0 :: rest ->
  reshape a [Z.of_nat s0; (-1)%Z]
  = if (s0 =? 0)%nat then Raise ValueError
    else Ok (NDArray [s0; size_of rest] (data a)).
Proof.
  intros Hs. unfold reshape. rewrite Hs. cbn [existsb].
  destruct (Z.ltb_spec (Z.of_nat s0) (-1)) as [|_]; [lia|].
  rewrite !filter_cons, !filter_nil. repeat case_decide; try done; try lia.
  cbn -[Z.of_nat Z.div Z.modulo size_of Z.mul].
  rewrite Z.mul_1_r.
  destruct (Nat.eqb_spec s0 0) as [->|Hne]; [done|].
  destruct (Z.eqb_spec (Z.of_nat s0) 0) as [|_]; [lia|].
  assert (Hsz : Z.of_nat (size_of (s0 :: rest)) = (Z.of_nat (size_of rest) * Z.of_nat s0)%Z).
  { unfold size_of. simpl. lia. }
  rewrite Hsz, Z.mod_mul by lia. simpl orb. cbv iota.
  do 2 f_equal. cbn -[Z.of_nat Z.div Z.mul]. rewrite Z.div_mul by lia.
  destruct (Z.eqb_spec (Z.of_nat s0) (-1)) as [|_]; [lia|].
  by rewrite !Nat2Z.id.
Qed.

Lemma to_2d_spec (o : pyobj) (t : ndarray) :
  to_2d o = Ok t ->
  exists n, shape t = [n; size_of (tail (shape_of o))].
Proof.
  destruct o as [|a|a|a|a|]; try done. simpl.
  destruct (Nat.eqb_spec (ndim a) 1) as [H1|H1].
  - unfold ndim in H1. destruct (shape a) as [|n [|]] eqn:Hs; try done.
    rewrite (reshape_column a n Hs). intros [= <-]. by exists n.
  - destruct (shape a) as [|s0 rest] eqn:Hs; [done|].
    rewrite (reshape_rows a s0 rest Hs). destruct (s0 =? 0)%nat; [done|].
    intros [= <-]. by exists s0.
Qed.

Lemma standardized_forms_shape (y_true y_pred : pyobj) (t p : ndarray) (os : list nat) :
  standardized_forms y_true y_pred = Ok (t, p, os) ->
  shape t = [nrows t; size_of os].
Proof.
  unfold standardized_forms.
  destruct y_true as [|a|a|a|a|], y_pred as [|b|b|b|b|]; cbn -[to_2d]; try done;
    repeat (match goal with
            | |- context [to_2d ?x] =>
                let H := fresh "H" in destruct (to_2d x) eqn:H; cbn -[to_2d]; try done
            end);
    intros ?; simplify_eq;
    match goal with
    | H : to_2d _ = Ok ?t |- shape ?t = _ =>
        apply to_2d_spec in H as [n Hn]; unfold nrows; rewrite Hn; done
    end.
Qed.

Lemma standardize_same (x : pyobj) (t : ndarray) (os : list nat) (mo : multioutput_arg) :
  standardized_forms x x = Ok (t, t, os) ->
  mo = MoStr "raw_values" \/ mo = MoStr "uniform_average" ->
  _standardize_input x x mo = Ok (t, t, os).
Proof.
  intros Hs Hmo. unfold _standardize_input. rewrite Hs. simpl.
  rewrite !Nat.eqb_refl. simpl. by destruct Hmo as [-> | ->].
Qed.

Lemma reshape_back (e : ndarray) (os : list nat) :
  size_of os = size_of (shape e) ->
  reshape e (Z.of_nat <$> os) = Ok (NDArray os (data e)).
Proof.
  intros Hz. unfold reshape. destruct (no_unknown_dims os) as [Hm Hk].
  rewrite no_negative_dims, Hm, Hk, size_of_Z, Hz. simpl.
  rewrite Z.eqb_refl. do 2 f_equal.
  rewrite <- list_fmap_compose. rewrite <- (list_fmap_id os) at 2.
  apply list_fmap_ext. intros _ n _. simpl. lia.
Qed.

Lemma check_array_ok (t : ndarray) :
  Forall (fun v => is_finite v = true) (data t) ->
  (0 < nrows t)%nat -> (0 < ncols t)%nat -> check_array t = Ok tt.
Proof.
  intros Hf Hn Hk. unfold check_array.
  rewrite (proj2 (forallb_forall _ _)).
  - simpl. destruct (Nat.eqb_spec (nrows t) 0); [lia|].
    destruct (Nat.eqb_spec (ncols t) 0); [lia|done].
  - rewrite Forall_forall in Hf. intros v Hv. apply Hf. by apply list_elem_of_In.
Qed.

(** ** A float divided by itself *)

Section DivSelf.
Local Open Scope Z_scope.

Lemma shl_align_digits (m : positive) (e e' : Z) :
  let '(mz, ez) := shl_align m e e' in
  Z.pos (digits2_pos mz) + ez = Z.pos (digits2_pos m) + e
  /\ ez <= e /\ (ez = e \/ ez = e').
Proof.
  unfold shl_align. destruct (e' - e) as [|j|j] eqn:E; try (repeat split; lia).
  rewrite digits2_pos_shift. repeat split; lia.
Qed.

Lemma binary_normalize_finite (z : Z) :
  0 < z < 2 ^ 63 ->
  exists m e, binary_normalize prec emax z 0 false = S754_finite false m e.
Proof.
  intros [H0 Hz]. destruct z as [|p|p]; try lia. simpl. unfold binary_round.
  pose proof (shl_align_digits p 0 (fexp prec emax (Z.pos (digits2_pos p) + 0))) as Hsh.
  destruct (shl_align p 0 _) as [mz ez].
  destruct Hsh as (Hd & Hle & Hez).
  pose proof (digits2_pos_bound p 63 ltac:(lia) Hz) as Hb.
  assert (emin <= ez).
  { destruct Hez as [-> | ->]; unfold fexp, SpecFloat.emin, prec, emax; lia. }
  destruct (binary_round_aux_pos false mz ez loc_Exact) as [_ Hfin]; [done|].
  apply Hfin; unfold emax, prec; clear - Hd Hb Hle; lia.
Qed.

Lemma SFdiv_self (s : bool) (m : positive) (e : Z) :
  SF64div (S754_finite s m e) (S754_finite s m e) = Prim2SF 1.
Proof.
  unfold SF64div, SFdiv, SFdiv_core_binary. simpl Zdigits2.
  rewrite !Z.sub_diag.
  change (Z.min (fexp prec emax 0) 0) with (-53).
  change (0 - -53) with 53.
  rewrite Z.shiftl_mul_pow2 by lia.
  assert (Hq : (Z.pos m * 2 ^ 53) / Z.pos m = 2 ^ 53)
    by (rewrite Z.mul_comm; apply Z.div_mul; lia).
  assert (Hr : (Z.pos m * 2 ^ 53) mod Z.pos m = 0)
    by (rewrite Z.mul_comm; apply Z.mod_mul; lia).
  unfold Z.div, Z.modulo in Hq, Hr.
  destruct (Z.div_eucl (Z.pos m * 2 ^ 53) (Z.pos m)) as [q r]. subst q r.
  assert (Hloc : new_location (Z.pos m) 0 = loc_Exact).
  { unfold new_location, new_location_even, new_location_odd.
    by destruct (Z.even (Z.pos m)). }
  rewrite Hloc. by destruct s.
Qed.
End DivSelf.

Lemma div_self (v : float) (s : bool) (m : positive) (e : Z) :
  Prim2SF v = S754_finite s m e -> (v / v)%float = 1%float.
Proof.
  intros H. apply Prim2SF_inj. by rewrite FloatAxioms.div_spec, H, SFdiv_self.
Qed.

Lemma float_of_nat_div_self (n : nat) :
  count_ok n -> (float_of_nat n / float_of_nat n)%float = 1%float.
Proof.
  intros [H0 Hn].
  destruct (binary_normalize_finite (Z.of_nat n)) as (m & e & Hm); [lia|].
  apply (div_self _ false m e). unfold float_of_nat.
  rewrite of_uint63_spec, of_Z_spec.
  by rewrite Z.mod_small by (change wB with (2 ^ 63)%Z; lia).
Qed.

(** ** A prediction equal to the ground truth *)

Lemma raw_or_mean_zero (e : ndarray) (os : list nat) (mo : multioutput_arg) :
  raw_or_uniform mo -> shape e = [size_of os] -> count_ok (size_of os) ->
  Forall zerof (data e) -> zero_result (raw_or_mean e os mo).
Proof.
  intros Hmo Hsh Hk Hz. unfold raw_or_mean.
  assert (Hsz : size_of (shape e) = size_of os).
  { rewrite Hsh. unfold size_of at 1. simpl. lia. }
  destruct Hmo as [-> | ->]; simpl.
  - rewrite reshape_back by done. simpl. by eexists.
  - eexists. split; [done|]. repeat constructor.
    apply mean_zerof; [done|]. by rewrite Hsz.
Qed.

Lemma raw_or_result_zero (e : ndarray) (os : list nat) (mo : multioutput_arg) :
  shape e = [size_of os] -> count_ok (size_of os) -> Forall zerof (data e) ->
  (mo = MoStr "raw_values"
   -> zero_result (raw_or_result (RArray e) os mo))
  /\ (mo = MoStr "uniform_average"
      -> zero_result (raw_or_result (RScalar (mean e)) os mo)).
Proof.
  intros Hsh Hk Hz.
  assert (Hsz : size_of (shape e) = size_of os).
  { rewrite Hsh. unfold size_of at 1. simpl. lia. }
  split; intros ->; unfold raw_or_result; simpl.
  - rewrite reshape_back by done. simpl. by eexists.
  - eexists. split; [done|]. repeat constructor.
    apply mean_zerof; [done|]. by rewrite Hsz.
Qed.

Section SelfComparison.
Local Open Scope float_scope.
Variables (x : pyobj) (t : ndarray) (os : list nat).
Hypothesis Hs : standardized_forms x x = Ok (t, t, os).
Hypothesis Hn : count_ok (nrows t).
Hypothesis Hk : count_ok (ncols t).
Hypothesis Hf : Forall (fun v => is_finite v = true) (data t).

Lemma ncols_original_shape : ncols t = size_of os.
Proof. unfold ncols. by rewrite (standardized_forms_shape x x t t os Hs). Qed.

Lemma map2_self (f : float -> float -> float) (P : float -> Prop) (u : ndarray) :
  Forall (fun v => is_finite v = true) (data u) ->
  (forall v, is_finite v = true -> P (f v v)) ->
  Forall P (data (map2 f u u)).
Proof.
  intros Hu Hfv. simpl. rewrite zip_with_diag. apply Forall_fmap.
  eapply Forall_impl; [exact Hu|]. intros v Hv. by apply Hfv.
Qed.

Lemma np_metric_zero (errors : ndarray -> ndarray -> ndarray) (mo : multioutput_arg) :
  raw_or_uniform mo ->
  shape (errors t t) = [ncols t] -> Forall zerof (data (errors t t)) ->
  zero_result (np_metric errors x x mo).
Proof.
  intros Hmo Hsh Hz. unfold np_metric.
  rewrite (standardize_same x t os mo Hs Hmo). simpl.
  apply raw_or_mean_zero; try done; by rewrite <- ncols_original_shape.
Qed.

Lemma sk_metric_zero (score : ndarray -> ndarray -> multioutput_arg -> result retval)
  (e : ndarray) (mo : multioutput_arg) :
  raw_or_uniform mo ->
  score t t (MoStr "raw_values") = Ok (RArray e) ->
  score t t (MoStr "uniform_average") = Ok (RScalar (mean e)) ->
  shape e = [ncols t] -> Forall zerof (data e) ->
  zero_result (sk_metric score x x mo).
Proof.
  intros Hmo Hraw Huni Hsh Hz. unfold sk_metric.
  rewrite (standardize_same x t os mo Hs Hmo). simpl.
  rewrite ncols_original_shape in Hsh, Hk.
  destruct (raw_or_result_zero e os mo Hsh Hk Hz) as [H1 H2].
  destruct Hmo as [-> | ->].
  - rewrite Hraw. by apply H1.
  - rewrite Huni. by apply H2.
Qed.

Lemma ME_zero mo : raw_or_uniform mo -> zero_result (ME x x mo).
Proof.
  intros Hmo. apply (np_metric_zero _ mo Hmo); [done|].
  apply mean_axis0_zerof; [|done]. apply map2_self; [done|].
  intros v Hv. rewrite sub_self by done. apply zerof_0.
Qed.

Lemma MSPE_zero mo : raw_or_uniform mo -> zero_result (MSPE x x mo).
Proof.
  intros Hmo. apply (np_metric_zero _ mo Hmo); [done|].
  apply mean_axis0_zerof; [|done]. simpl. apply Forall_fmap.
  rewrite zip_with_diag. apply Forall_fmap.
  eapply Forall_impl; [exact Hf|]. intros v Hv. simpl.
  rewrite sub_self by done. apply zerof_0.
Qed.

Lemma smape_term (v : float) :
  is_finite v = true -> 100 * abs (v - v) / (abs v + abs v + EPSILON) = 0.
Proof.
  intros Hv. rewrite sub_self by done.
  change (100 * abs 0) with 0. by apply zero_div_pos, smape_denominator_pos.
Qed.

Lemma sMAPE_zero mo : raw_or_uniform mo -> zero_result (sMAPE x x mo).
Proof.
  intros Hmo. apply (np_metric_zero _ mo Hmo); [done|].
  apply mean_axis0_zerof; [|done]. apply map2_self; [done|].
  intros v Hv. rewrite smape_term by done. apply zerof_0.
Qed.

Lemma sMDAPE_zero mo : raw_or_uniform mo -> zero_result (sMDAPE x x mo).
Proof.
  intros Hmo. apply (np_metric_zero _ mo Hmo); [done|].
  apply median_axis0_zerof; [|apply Hn]. apply map2_self; [done|].
  intros v Hv. rewrite smape_term by done. apply zerof_0.
Qed.

(** The metrics that divide by [y_true + EPSILON]. *)
Section Relative.
Hypothesis Hd : Forall (fun v => eq0 (v + EPSILON) = false) (data t).

Lemma relative_terms (P : float -> Prop) (f : float -> float -> float) :
  (forall v, is_finite v = true -> zerof (0 / (v + EPSILON)) -> P (f v v)) ->
  Forall P (data (map2 f t t)).
Proof.
  intros Hp. simpl. rewrite zip_with_diag. apply Forall_fmap.
  rewrite Forall_forall in Hf, Hd. apply Forall_forall. intros v Hv. simpl.
  apply Hp; [by apply Hf|]. apply zerof_div; [apply zerof_0|].
  unfold nonzero_number. fold (eq0 (v + EPSILON)).
  rewrite (Hd v Hv), add_number; [done|by apply Hf|by vm_compute].
Qed.

Lemma MPE_zero mo : raw_or_uniform mo -> zero_result (MPE x x mo).
Proof.
  intros Hmo. apply (np_metric_zero _ mo Hmo); [done|].
  apply mean_axis0_zerof; [|done]. apply relative_terms.
  intros v Hv Hz. rewrite sub_self by done. by change (100 * 0) with 0.
Qed.

Lemma MAPE_zero mo : raw_or_uniform mo -> zero_result (MAPE x x mo).
Proof.
  intros Hmo. apply (np_metric_zero _ mo Hmo); [done|].
  simpl. apply Forall_fmap.
  eapply Forall_impl.
  - apply (mean_axis0_zerof
             (map2 (fun t p => abs ((t - p) / (t + EPSILON))) t t)); [|done].
    apply relative_terms. intros v Hv Hz. rewrite sub_self by done.
    rewrite zerof_abs by done. apply zerof_0.
  - intros m Hm. simpl. apply zerof_scale; [by vm_compute|done].
Qed.

Lemma MDAPE_zero mo : raw_or_uniform mo -> zero_result (MDAPE x x mo).
Proof.
  intros Hmo. apply (np_metric_zero _ mo Hmo); [done|].
  apply median_axis0_zerof; [|apply Hn]. apply relative_terms.
  intros v Hv Hz. rewrite sub_self by done. rewrite zerof_abs by done.
  change (100 * 0) with 0. apply zerof_0.
Qed.
End Relative.

(** The scores of scikit-learn on a pair of equal arrays. *)
Lemma reg_targets_ok (u : ndarray) :
  Forall (fun v => is_finite v = true) (data u) ->
  (0 < nrows u)%nat -> (0 < ncols u)%nat -> _check_reg_targets u u = Ok tt.
Proof.
  intros Hu H1 H2. unfold _check_reg_targets. by rewrite !check_array_ok.
Qed.

Lemma mean_squared_error_self (u : ndarray) :
  Forall (fun v => is_finite v = true) (data u) ->
  count_ok (nrows u) -> (0 < ncols u)%nat ->
  exists e,
    mean_squared_error u u (MoStr "raw_values") = Ok (RArray e)
    /\ mean_squared_error u u (MoStr "uniform_average") = Ok (RScalar (mean e))
    /\ shape e = [ncols u] /\ Forall zerof (data e).
Proof.
  intros Hu H1 H2. eexists. unfold mean_squared_error.
  rewrite reg_targets_ok by (done || apply H1). simpl. repeat split.
  apply mean_axis0_zerof; [|done]. simpl. apply Forall_fmap.
  rewrite zip_with_diag. apply Forall_fmap.
  eapply Forall_impl; [exact Hu|]. intros v Hv. simpl.
  rewrite sub_self by done. apply zerof_0.
Qed.

Lemma mean_absolute_error_self (u : ndarray) :
  Forall (fun v => is_finite v = true) (data u) ->
  count_ok (nrows u) -> (0 < ncols u)%nat ->
  exists e,
    mean_absolute_error u u (MoStr "raw_values") = Ok (RArray e)
    /\ mean_absolute_error u u (MoStr "uniform_average") = Ok (RScalar (mean e))
    /\ shape e = [ncols u] /\ Forall zerof (data e).
Proof.
  intros Hu H1 H2. eexists. unfold mean_absolute_error.
  rewrite reg_targets_ok by (done || apply H1). simpl. repeat split.
  apply mean_axis0_zerof; [|done]. simpl. apply Forall_fmap.
  rewrite zip_with_diag. apply Forall_fmap.
  eapply Forall_impl; [exact Hu|]. intros v Hv. simpl.
  rewrite sub_self by done. apply zerof_0.
Qed.

Lemma MSE_zero mo : raw_or_uniform mo -> zero_result (MSE x x mo).
Proof.
  intros Hmo.
  destruct (mean_squared_error_self t Hf Hn (proj1 Hk)) as (e & H1 & H2 & H3 & H4).
  by apply (sk_metric_zero mean_squared_error e mo).
Qed.

Lemma MAE_zero mo : raw_or_uniform mo -> zero_result (MAE x x mo).
Proof.
  intros Hmo.
  destruct (mean_absolute_error_self t Hf Hn (proj1 Hk)) as (e & H1 & H2 & H3 & H4).
  by apply (sk_metric_zero mean_absolute_error e mo).
Qed.

Lemma RMSE_zero mo : raw_or_uniform mo -> zero_result (RMSE x x mo).
Proof.
  intros Hmo. destruct (MSE_zero mo Hmo) as (r & Hr & Hz).
  exists (np_sqrt r). unfold RMSE. rewrite Hr. split; [done|].
  rewrite (proj1 (np_sqrt_values r)). apply Forall_fmap.
  eapply Forall_impl; [exact Hz|]. intros v Hv. by apply zerof_sqrt.
Qed.

Lemma MSLE_zero (log1p : float -> float) mo :
  Forall (fun v => (v <? 0) = false /\ is_finite (log1p v) = true) (data t) ->
  raw_or_uniform mo -> zero_result (MSLE log1p x x mo).
Proof.
  intros Hl Hmo.
  assert (Hneg : existsb (fun v => v <? 0) (data t) = false).
  { apply not_true_iff_false. intros Hex.
    apply existsb_exists in Hex as (v & Hv & Hlt).
    apply list_elem_of_In in Hv. rewrite Forall_forall in Hl.
    destruct (Hl v Hv) as [Hge _]. congruence. }
  assert (Hlf : Forall (fun v => is_finite v = true) (data (map1 log1p t))).
  { simpl. apply Forall_fmap. eapply Forall_impl; [exact Hl|]. by intros v [_ Hv]. }
  destruct (mean_squared_error_self (map1 log1p t) Hlf Hn (proj1 Hk))
    as (e & H1 & H2 & H3 & H4).
  apply (sk_metric_zero (mean_squared_log_error log1p) e mo); try done;
    unfold mean_squared_log_error;
    rewrite reg_targets_ok by (done || apply Hn || apply Hk); simpl;
    by rewrite Hneg.
Qed.

Lemma r2_output_score_one (numerator denominator : float) :
  zerof numerator -> r2_output_score numerator denominator = 1.
Proof.
  intros Hz. unfold r2_output_score. fold (eq0 numerator).
  rewrite (zerof_eq0 _ Hz). simpl. by rewrite andb_false_r.
Qed.

Lemma Forall_zip_with_l {A B C} (P : A -> Prop) (Q : C -> Prop) (f : A -> B -> C)
  (l : list A) (k : list B) :
  (forall a b, P a -> Q (f a b)) -> Forall P l -> Forall Q (zip_with f l k).
Proof.
  intros Hpq Hl. revert k. induction Hl as [|a l Ha _ IH]; intros [|b k]; simpl;
    try done. constructor; [by apply Hpq|apply IH].
Qed.

Lemma R2_one : (2 <= nrows t)%nat ->
  exists r, R2 x x (MoStr "raw_values") = Ok r /\ Forall (fun v => v = 1) (values_of r).
Proof.
  intros H2. unfold R2.
  rewrite (standardize_same x t os (MoStr "raw_values") Hs) by by left.
  simpl. unfold r2_score.
  rewrite reg_targets_ok by (done || apply Hn || apply Hk). simpl.
  destruct (Nat.ltb_spec (nrows t) 2) as [|_]; [lia|]. simpl.
  unfold raw_or_result. simpl.
  rewrite reshape_back by (simpl; rewrite ncols_original_shape; unfold size_of; simpl; lia).
  simpl. eexists. split; [done|]. simpl.
  apply (Forall_zip_with_l zerof); [intros a b Ha; by apply r2_output_score_one|].
  apply (sum_axis0_zerof (map1 (fun d => 1 * (d * d)) (map2 PrimFloat.sub t t))).
  simpl. apply Forall_fmap. rewrite zip_with_diag. apply Forall_fmap.
  eapply Forall_impl; [exact Hf|]. intros v Hv. simpl.
  rewrite sub_self by done. change (1 * (0 * 0)) with 0. apply zerof_0.
Qed.

End SelfComparison.

(** [Accuracy] of integer labels against themselves. *)
Lemma int_valued_eqb (v : float) :
  differs_from_int_cast v = false -> (v =? v)%float = true.
Proof.
  unfold differs_from_int_cast, to_int64. rewrite FloatAxioms.eqb_spec.
  unfold SFeqb. rewrite SFcompare_refl. by destruct (Prim2SF v).
Qed.

Lemma count_true_all (l : list bool) :
  Forall (fun b => b = true) l -> count_true l = length l.
Proof.
  unfold count_true. induction 1 as [|b l -> _ IH]; [done|].
  rewrite filter_cons. case_decide; [|done]. simpl. by rewrite IH.
Qed.

Lemma Accuracy_self (x : pyobj) (a : ndarray) (mo : multioutput_arg) :
  np_squeeze x = SqArray (squeeze a) ->
  ndim (squeeze a) = 1%nat ->
  count_ok (length (data a)) ->
  Forall (fun v => differs_from_int_cast v = false) (data a) ->
  Accuracy x x mo = Ok (RScalar 1).
Proof.
  intros Hx Hd Hc Hi. unfold Accuracy. rewrite Hx.
  assert (Hex : existsb differs_from_int_cast (data (squeeze a)) = false).
  { simpl. apply not_true_iff_false. intros Hex.
    apply existsb_exists in Hex as (v & Hv & Hdv).
    apply list_elem_of_In in Hv. rewrite Forall_forall in Hi.
    by rewrite (Hi v Hv) in Hdv. }
  rewrite Hex. simpl. unfold accuracy_score. rewrite Hd. simpl.
  rewrite Nat.eqb_refl. simpl.
  unfold type_of_target, is_multilabel. rewrite Hd, Hex. simpl.
  assert (Hscore : zip_with PrimFloat.eqb (data a) (data a)
                   = (fun _ => true) <$> data a).
  { rewrite zip_with_diag. apply list_fmap_ext. intros i v Hv. simpl.
    apply int_valued_eqb. rewrite Forall_forall in Hi. apply Hi.
    by eapply list_elem_of_lookup_2. }
  destruct (2 <? n_unique (data a))%nat; simpl; rewrite Hscore;
    rewrite count_true_all by (apply Forall_fmap, Forall_true; done);
    rewrite length_fmap; by rewrite float_of_nat_div_self.
Qed.

(** ** Sums of ones: counting in binary64 *)

Section CountingSums.
Local Open Scope Z_scope.

(** Shifting out the zeros a left shift put in loses nothing. *)
Lemma iter_shr_1_exact (j p : positive) :
  SpecFloat.iter_pos shr_1 j
    {| shr_m := Z.pos (Pos.iter xO p j); shr_r := false; shr_s := false |}
  = {| shr_m := Z.pos p; shr_r := false; shr_s := false |}.
Proof.
  revert p. induction j as [j IH|j IH|]; intros p; simpl; [|by rewrite !IH|done].
  by rewrite !IH.
Qed.

(** A mantissa in canonical position is left as it is by rounding, also
    when it comes shifted to the left. *)
Lemma round_canonical (s : bool) (m : positive) (e : Z) :
  fexp prec emax (Z.pos (digits2_pos m) + e) = e -> e <= emax - prec ->
  binary_round_aux prec emax s (Z.pos m) e loc_Exact = S754_finite s m e.
Proof.
  intros Hc He. unfold binary_round_aux, shr_fexp, shr. cbn [Zdigits2].
  rewrite Hc, Z.sub_diag.
  cbn [shr_record_of_loc shr_m loc_of_shr_record round_nearest_even Zdigits2].
  rewrite Hc, Z.sub_diag. cbn [shr_record_of_loc shr_m].
  by rewrite (proj2 (Z.leb_le _ _)).
Qed.

Lemma round_shifted (s : bool) (m j : positive) (e : Z) :
  fexp prec emax (Z.pos (digits2_pos m) + e) = e -> e <= emax - prec ->
  binary_round_aux prec emax s (Z.pos (Pos.iter xO m j)) (e - Z.pos j) loc_Exact
  = S754_finite s m e.
Proof.
  intros Hc He. unfold binary_round_aux, shr_fexp at 1. cbn [Zdigits2].
  rewrite digits2_pos_shift.
  replace (Z.pos (digits2_pos m) + Z.pos j + (e - Z.pos j))
    with (Z.pos (digits2_pos m) + e) by lia.
  rewrite Hc. replace (e - (e - Z.pos j)) with (Z.pos j) by lia.
  unfold shr at 1. cbn [shr_record_of_loc]. rewrite iter_shr_1_exact.
  replace (e - Z.pos j + Z.pos j) with e by lia.
  cbn [shr_m loc_of_shr_record round_nearest_even].
  unfold shr_fexp, shr. cbn [Zdigits2]. rewrite Hc, Z.sub_diag.
  cbn [shr_record_of_loc shr_m].
  by rewrite (proj2 (Z.leb_le _ _)).
Qed.

Lemma shift_pos_value (p k : positive) :
  Z.pos (Pos.iter xO p k) = Z.pos p * 2 ^ Z.pos k.
Proof.
  induction k as [|k IH] using Pos.peano_ind.
  - simpl. lia.
  - rewrite Pos.iter_succ, Pos2Z.inj_succ, Z.pow_succ_r by lia.
    rewrite Pos2Z.inj_xO, IH. lia.
Qed.

(** The binary64 value of a positive integer below 2^53: the integer
    itself, its mantissa filled up to 53 digits. *)
Lemma scaled_count (p : positive) (j : Z) :
  Z.pos p < 2 ^ 53 -> 0 <= j ->
  exists m,
    Z.pos m = Z.pos p * 2 ^ (53 - Z.pos (digits2_pos p))
    /\ binary_normalize prec emax (Z.pos p * 2 ^ j) (- j) false
       = S754_finite false m (Z.pos (digits2_pos p) - 53).
Proof.
  intros Hp Hj.
  pose proof (digits2_pos_bound p 53 ltac:(lia) Hp) as Hd.
  set (d := Z.pos (digits2_pos p)) in *.
  assert (Hm : exists m, Z.pos m = Z.pos p * 2 ^ (53 - d)
                         /\ Z.pos (digits2_pos m) = 53).
  { destruct (53 - d) as [|k|k] eqn:Hk; [|  |lia].
    - exists p. split; [lia|]. fold d. lia.
    - exists (Pos.iter xO p k). split; [apply shift_pos_value|].
      rewrite digits2_pos_shift. fold d. lia. }
  destruct Hm as (m & Hm & Hdm). exists m. split; [done|].
  assert (Hc : fexp prec emax (Z.pos (digits2_pos m) + (d - 53)) = d - 53).
  { rewrite Hdm. subst d. unfold fexp, SpecFloat.emin, prec, emax. lia. }
  assert (He : d - 53 <= emax - prec) by (unfold emax, prec; lia).
  assert (Hq : exists q, Z.pos q = Z.pos p * 2 ^ j
                         /\ Z.pos (digits2_pos q) = d + j).
  { destruct j as [|k|k]; [| |lia].
    - exists p. split; [lia|]. fold d. lia.
    - exists (Pos.iter xO p k). split; [apply shift_pos_value|].
      rewrite digits2_pos_shift. by fold d. }
  destruct Hq as (q & Hq & Hdq). rewrite <- Hq.
  cbn [binary_normalize]. unfold binary_round. rewrite Hdq.
  replace (d + j + - j) with d by lia.
  replace (fexp prec emax d) with (d - 53)
    by (subst d; unfold fexp, SpecFloat.emin, prec, emax; lia).
  unfold shl_align.
  destruct (d - 53 - - j) as [|k|k] eqn:Hk.
  - (* already in place *)
    replace q with m by (apply Pos2Z.inj; rewrite Hm, Hq; f_equal; f_equal; lia).
    replace (- j) with (d - 53) by lia. by apply round_canonical.
  - (* [k] digits too many *)
    replace q with (Pos.iter xO m k).
    + replace (- j) with (d - 53 - Z.pos k) by lia. by apply round_shifted.
    + apply Pos2Z.inj. rewrite shift_pos_value, Hm, Hq, <- Z.mul_assoc.
      rewrite <- Z.pow_add_r by lia. f_equal. f_equal. lia.
  - (* [k] digits short *)
    unfold shift_pos.
    replace (Pos.iter xO q k) with m; [by apply round_canonical|].
    apply Pos2Z.inj.
    rewrite shift_pos_value, Hm, Hq, <- Z.mul_assoc.
    rewrite <- Z.pow_add_r by lia. f_equal. f_equal. lia.
Qed.

Lemma float_of_nat_spec (n : nat) :
  Z.of_nat n < 2 ^ 63 ->
  Prim2SF (float_of_nat n) = binary_normalize prec emax (Z.of_nat n) 0 false.
Proof.
  intros Hn. unfold float_of_nat. rewrite of_uint63_spec, of_Z_spec.
  by rewrite Z.mod_small by (change wB with (2 ^ 63); lia).
Qed.

(** Adding one to a count below 2^53 is exact. *)
Lemma float_of_nat_succ (k : nat) :
  (0 < k)%nat -> Z.of_nat (S k) < 2 ^ 53 ->
  (float_of_nat k + 1)%float = float_of_nat (S k).
Proof.
  intros H0 Hk. apply Prim2SF_inj.
  rewrite FloatAxioms.add_spec, !float_of_nat_spec by lia.
  destruct (Z.of_nat k) as [|p|p] eqn:Hp; try lia.
  replace (Z.of_nat (S k)) with (Z.pos (p + 1)) in * by lia.
  destruct (scaled_count p 0) as (m & Hm & Hn); [lia|lia|].
  rewrite Z.mul_1_r in Hn. change (- 0) with 0 in Hn. rewrite Hn.
  destruct (scaled_count (p + 1) 52) as (m' & Hm' & Hn'); [lia|lia|].
  destruct (scaled_count (p + 1) 0) as (m'' & Hm'' & Hn''); [lia|lia|].
  rewrite Z.mul_1_r in Hn''. change (- 0) with 0 in Hn''. rewrite Hn''.
  replace m'' with m' by (apply Pos2Z.inj; lia). rewrite <- Hn'.
  change (Prim2SF 1) with (S754_finite false 4503599627370496 (-52)).
  unfold SF64add, SFadd. cbn [cond_Zopp].
  pose proof (digits2_pos_bound p 53 ltac:(lia) ltac:(lia)) as Hd.
  set (d := Z.pos (digits2_pos p)) in *.
  assert (Hd1 : 1 <= d) by (subst d; lia).
  replace (Z.min (d - 53) (-52)) with (-52) by lia.
  f_equal. unfold shl_align. cbn [Z.sub Z.opp Z.add Z.pos_sub fst].
  change (-52 - -52) with 0. cbn [fst].
  destruct (-52 - (d - 53)) as [|sh|sh] eqn:Hsh; cbn [fst]; try lia.
  - rewrite Pos2Z.inj_add, Hm.
    replace (53 - d) with 52 by lia. lia.
  - unfold shift_pos. rewrite shift_pos_value, Hm, <- Z.mul_assoc.
    rewrite <- Z.pow_add_r by lia.
    replace (53 - d + Z.pos sh) with 52 by lia. lia.
Qed.

End CountingSums.

Lemma fold_add_ones (j i : nat) :
  (0 < i)%nat -> (Z.of_nat (i + j) < 2 ^ 53)%Z ->
  fold_left PrimFloat.add (replicate j 1%float) (float_of_nat i) = float_of_nat (i + j).
Proof.
  revert i. induction j as [|j IH]; intros i Hi Hij; simpl.
  - by rewrite Nat.add_0_r.
  - rewrite float_of_nat_succ by lia. rewrite IH by lia. f_equal. lia.
Qed.

Lemma fsum_ones (k : nat) :
  (Z.of_nat k < 2 ^ 53)%Z -> fsum (replicate k 1%float) = float_of_nat k.
Proof.
  intros Hk. destruct k as [|k]; [done|].
  cbn [replicate fsum]. change 1%float with (float_of_nat 1) at 2.
  by rewrite fold_add_ones by lia.
Qed.

(** ** A prediction equal to the ground truth: averages and scores *)

(** [multioutput=None] averages as 'uniform_average' does; the metrics
    computed with numpy average for 'variance_weighted' too. *)
Lemma standardize_averaging (y_true y_pred : pyobj) (mo : multioutput_arg) :
  mo = MoNone \/ mo = MoStr "variance_weighted" ->
  _standardize_input y_true y_pred mo
  = _standardize_input y_true y_pred (MoStr "uniform_average").
Proof.
  intros Hmo. unfold _standardize_input.
  destruct (standardized_forms y_true y_pred) as [[[t p] os]|e]; [|done]. simpl.
  destruct (negb (nrows t =? nrows p)); [done|].
  destruct (negb (ncols t =? ncols p)); [done|].
  by destruct Hmo as [-> | ->].
Qed.

Lemma np_metric_averaging (errors : ndarray -> ndarray -> ndarray)
  (y_true y_pred : pyobj) (mo : multioutput_arg) :
  mo = MoNone \/ mo = MoStr "variance_weighted" ->
  np_metric errors y_true y_pred mo
  = np_metric errors y_true y_pred (MoStr "uniform_average").
Proof.
  intros Hmo. unfold np_metric. rewrite standardize_averaging by done.
  destruct (_standardize_input y_true y_pred (MoStr "uniform_average"))
    as [[[t p] os]|e]; [|done].
  by destruct Hmo as [-> | ->].
Qed.

Lemma sk_metric_none (score : ndarray -> ndarray -> multioutput_arg -> result retval)
  (y_true y_pred : pyobj) :
  (forall t p, score t p MoNone = score t p (MoStr "uniform_average")) ->
  sk_metric score y_true y_pred MoNone
  = sk_metric score y_true y_pred (MoStr "uniform_average").
Proof.
  intros Hscore. unfold sk_metric. rewrite standardize_averaging by by left.
  destruct (_standardize_input y_true y_pred (MoStr "uniform_average"))
    as [[[t p] os]|e]; [|done].
  cbn [mbind result_bind]. by rewrite Hscore.
Qed.

Lemma mean_squared_error_none (t p : ndarray) :
  mean_squared_error t p MoNone = mean_squared_error t p (MoStr "uniform_average").
Proof. reflexivity. Qed.

Lemma mean_absolute_error_none (t p : ndarray) :
  mean_absolute_error t p MoNone = mean_absolute_error t p (MoStr "uniform_average").
Proof. reflexivity. Qed.

Lemma mean_squared_log_error_none (log1p : float -> float) (t p : ndarray) :
  mean_squared_log_error log1p t p MoNone
  = mean_squared_log_error log1p t p (MoStr "uniform_average").
Proof. reflexivity. Qed.

Lemma r2_score_none (t p : ndarray) :
  r2_score t p MoNone = r2_score t p (MoStr "uniform_average").
Proof. reflexivity. Qed.

(** *** The columns of an array that holds what its shape says *)

Lemma rows_of_widths (n k : nat) (d : list float) :
  n * k <= length d -> Forall (fun r => length r = k) (rows_of n k d).
Proof.
  revert d. induction n as [|n IH]; intros d Hd; simpl; [done|].
  constructor.
  - rewrite length_take. lia.
  - apply IH. rewrite length_drop. lia.
Qed.

Lemma length_transpose (k : nat) (rows : list (list float)) :
  Forall (fun r => length r = k) rows -> length (transpose k rows) = k.
Proof.
  induction 1 as [|r rows Hr _ IH]; simpl.
  - apply length_replicate.
  - rewrite length_zip_with, IH, Hr. lia.
Qed.

Lemma length_columns (a : ndarray) :
  nrows a * ncols a <= length (data a) -> length (columns a) = ncols a.
Proof. intros Ha. unfold columns. by apply length_transpose, rows_of_widths. Qed.

Lemma length_concat_widths {A} (k : nat) (rows : list (list A)) :
  Forall (fun r => length r = k) rows -> length (concat rows) = length rows * k.
Proof.
  induction 1 as [|r rows Hr _ IH]; [done|].
  simpl. rewrite length_app, IH, Hr. lia.
Qed.

Lemma all_equal_replicate {A} (c : A) (l : list A) :
  Forall (fun v => v = c) l -> l = replicate (length l) c.
Proof. induction 1 as [|v l -> _ IH]; [done|]. simpl. by rewrite <- IH. Qed.

Lemma mean_ones (k : nat) (l : list float) :
  count_ok k -> (Z.of_nat k < 2 ^ 53)%Z ->
  Forall (fun v => v = 1%float) l -> length l = k ->
  mean (NDArray [k] l) = 1%float.
Proof.
  intros Hk Hk53 Hl Hlen. unfold mean. cbn [data shape].
  rewrite (all_equal_replicate _ _ Hl), Hlen, fsum_ones by done.
  replace (size_of [k]) with k by (unfold size_of; simpl; lia).
  by apply float_of_nat_div_self.
Qed.

(** *** [r2_score] of an array against itself *)

Section SelfScores.
Local Open Scope float_scope.
Variables (x : pyobj) (t : ndarray) (os : list nat).
Hypothesis Hs : standardized_forms x x = Ok (t, t, os).
Hypothesis Hn : count_ok (nrows t).
Hypothesis Hk : count_ok (ncols t).
Hypothesis Hf : Forall (fun v => is_finite v = true) (data t).

Lemma r2_numerators_zero :
  Forall zerof
    (data (sum_axis0 (map1 (fun d => 1 * (d * d)) (map2 PrimFloat.sub t t)))).
Proof.
  apply (sum_axis0_zerof (map1 (fun d => 1 * (d * d)) (map2 PrimFloat.sub t t))).
  simpl. apply Forall_fmap. rewrite zip_with_diag. apply Forall_fmap.
  eapply Forall_impl; [exact Hf|]. intros v Hv. simpl.
  rewrite sub_self by done. change (1 * (0 * 0)) with 0. apply zerof_0.
Qed.

Lemma R2_average_one :
  (2 <= nrows t)%nat -> wf t -> (Z.of_nat (ncols t) < 2 ^ 53)%Z ->
  R2 x x (MoStr "uniform_average") = Ok (RScalar 1).
Proof.
  intros H2 Hwf H53. unfold R2.
  rewrite (standardize_same x t os (MoStr "uniform_average") Hs) by by right.
  simpl. unfold r2_score.
  rewrite reg_targets_ok by (done || apply Hn || apply Hk). simpl.
  destruct (Nat.ltb_spec (nrows t) 2) as [|_]; [lia|]. simpl.
  unfold raw_or_result. simpl. do 2 f_equal.
  assert (Hlen : length (data t) = (nrows t * ncols t)%nat).
  { unfold wf in Hwf. rewrite Hwf, (standardized_forms_shape x x t t os Hs).
    unfold ncols. rewrite (standardized_forms_shape x x t t os Hs).
    unfold size_of. simpl. lia. }
  apply mean_ones; [done|done| |].
  - apply (Forall_zip_with_l zerof); [intros a b Ha; by apply r2_output_score_one|].
    apply r2_numerators_zero.
  - rewrite length_zip_with, !length_fmap.
    rewrite !length_columns.
    + unfold ncols. simpl. lia.
    + unfold nrows, ncols. cbn [shape data map1].
      rewrite length_fmap, (length_concat_widths (nth 1 (shape t) 0%nat)).
      * rewrite length_fmap, length_rows_of. done.
      * apply Forall_fmap.
        eapply Forall_impl;
          [apply rows_of_widths; fold (nrows t) (ncols t); lia|].
        intros r Hr. simpl. rewrite length_zip_with, length_fmap.
        rewrite length_columns by (rewrite Hlen; done).
        rewrite Hr. unfold ncols. lia.
    + unfold nrows, ncols. cbn [shape data map1 map2].
      rewrite length_fmap, length_zip_with. fold (nrows t) (ncols t). lia.
Qed.
End SelfScores.

(** *** [Accuracy] of a label-indicator matrix against itself *)

Lemma int_valued_sub_self (v : float) :
  differs_from_int_cast v = false -> (v - v)%float = 0%float.
Proof.
  unfold differs_from_int_cast, to_int64. intros Hv. apply Prim2SF_inj.
  rewrite FloatAxioms.sub_spec. change (Prim2SF 0) with (S754_zero false).
  destruct (Prim2SF v) as [[]|[]| |s m e]; try done.
  unfold SF64sub, SFsub. rewrite Z.min_id. unfold shl_align.
  rewrite !Z.sub_diag. cbn [fst]. by destruct s; cbn; rewrite ?Z.pos_sub_diag.
Qed.

Lemma squeeze_ncols (a : ndarray) : ncols (squeeze a) <> 1%nat.
Proof.
  unfold ncols, squeeze. cbn [shape].
  assert (H : Forall (fun d => d <> 1%nat) (filter (fun d => d ≠ 1%nat) (shape a))).
  { apply Forall_forall. by intros d [Hd _]%list_elem_of_filter. }
  destruct H as [|d l _ [|d' l' Hd' _]]; simpl; done.
Qed.

Lemma no_entry_differs (l : list float) :
  Forall (fun v => differs_from_int_cast v = false) l ->
  existsb differs_from_int_cast l = false.
Proof. induction 1 as [|v l Hv _ IH]; [done|]. simpl. by rewrite Hv, IH. Qed.

Lemma Accuracy_self_indicator (x : pyobj) (a : ndarray) (mo : multioutput_arg) :
  np_squeeze x = SqArray (squeeze a) ->
  Forall (fun v => differs_from_int_cast v = false) (data a) ->
  ndim (squeeze a) = 2%nat -> ncols (squeeze a) <> 0%nat ->
  (n_unique (data a) <= 2)%nat -> count_ok (nrows (squeeze a)) ->
  Accuracy x x mo = Ok (RScalar 1).
Proof.
  intros Hx Hi Hd Hc Hu Hn. unfold Accuracy. rewrite Hx.
  pose proof (no_entry_differs _ Hi) as Hex.
  change (data (squeeze a)) with (data a). rewrite Hex. simpl.
  pose proof (squeeze_ncols a) as Hc1.
  assert (Hml : is_multilabel (squeeze a) = true).
  { unfold is_multilabel. rewrite Hd. change (data (squeeze a)) with (data a).
    rewrite Hex. simpl.
    destruct (Nat.ltb_spec 1 (ncols (squeeze a))); [|lia].
    destruct (Nat.ltb_spec (n_unique (data a)) 3); [done|lia]. }
  unfold accuracy_score. rewrite Hd. simpl. rewrite Nat.eqb_refl. simpl.
  unfold type_of_target. rewrite Hml. simpl. rewrite Nat.eqb_refl. simpl.
  do 2 f_equal.
  rewrite count_true_all.
  - rewrite length_fmap, length_rows_of.
    by apply float_of_nat_div_self.
  - apply Forall_fmap. rewrite zip_with_diag.
    eapply Forall_impl;
      [apply (Forall_rows_of (fun d => (d =? 0)%float = true)),
         Forall_fmap, Forall_forall; intros v Hv; simpl|].
    + rewrite Forall_forall in Hi. by rewrite int_valued_sub_self by by apply Hi.
    + intros r Hr. simpl. apply forallb_forall. rewrite Forall_forall in Hr.
      intros d Hin. apply Hr. by apply list_elem_of_In.
Qed.

(** *** When [accuracy_score] returns *)

Lemma common_type_supported (t p y : target_type) :
  common_type t p = Ok y ->
  (t = Binary \/ t = Multiclass \/ t = MultilabelIndicator)
  /\ (t = MultilabelIndicator -> p = MultilabelIndicator).
Proof. destruct t, p; simpl; intros [= <-]; split; (tauto || done). Qed.

Lemma type_of_target_supported (y : ndarray) (ty : target_type) :
  type_of_target y = Ok ty ->
  ty = Binary \/ ty = Multiclass \/ ty = MultilabelIndicator ->
  existsb differs_from_int_cast (data y) = false
  /\ (is_multilabel y = true
      \/ (ndim y <= 2 /\ (ndim y = 2 -> ncols y = 1))%nat).
Proof.
  unfold type_of_target.
  destruct (is_multilabel y) eqn:Hml.
  { intros _ _. split; [|by left]. unfold is_multilabel in Hml.
    apply andb_true_iff in Hml as [_ Hml]. by apply negb_true_iff in Hml. }
  destruct (Nat.ltb_spec 2 (ndim y)) as [|Hdim]; [by intros [= <-] [|[|]]|].
  destruct ((ndim y =? 2) && (ncols y =? 0))%nat eqn:Hempty;
    [by intros [= <-] [|[|]]|].
  destruct (existsb differs_from_int_cast (data y)).
  { destruct (negb (forallb is_finite (data y))); [done|].
    destruct ((ndim y =? 2) && (1 <? ncols y))%nat; by intros [= <-] [|[|]]. }
  destruct ((ndim y =? 2) && (1 <? ncols y))%nat eqn:Hmulti.
  { rewrite orb_true_r. by intros [= <-] [|[|]]. }
  intros _ _. split; [done|]. right. split; [lia|]. intros H2.
  rewrite H2 in Hempty, Hmulti. simpl in Hempty, Hmulti.
  apply Nat.eqb_neq in Hempty. apply Nat.ltb_ge in Hmulti. lia.
Qed.

Lemma accuracy_score_returns (t p : ndarray) (r : retval) :
  accuracy_score (SqArray t) p = Ok r ->
  existsb differs_from_int_cast (data t) = false
  /\ ndim t <> 0%nat
  /\ (is_multilabel t = true \/ (ndim t <= 2 /\ (ndim t = 2 -> ncols t = 1))%nat).
Proof.
  unfold accuracy_score.
  destruct (Nat.eqb_spec (ndim t) 0) as [|Hd]; [done|]. simpl.
  destruct (ndim p =? 0)%nat; [done|].
  destruct (negb (nrows t =? nrows p)%nat); [done|].
  destruct (type_of_target t) as [tt|] eqn:Htt; [|done].
  destruct (type_of_target p) as [tp|] eqn:Htp; [|done].
  cbn [mbind result_bind].
  destruct (common_type tt tp) as [ty|] eqn:Hty; [|done].
  intros _. apply common_type_supported in Hty as [Hsup _].
  destruct (type_of_target_supported t tt Htt Hsup) as [Hint Hdim]. done.
Qed.

(** [Accuracy] of an input against itself returns only on integers, in one
    dimension or as a label-indicator matrix. *)
Lemma Accuracy_self_returns (x : pyobj) (mo : multioutput_arg) (r : retval) :
  Accuracy x x mo = Ok r ->
  exists a,
    np_squeeze x = SqArray (squeeze a)
    /\ existsb differs_from_int_cast (data a) = false
    /\ (ndim (squeeze a) = 1%nat
        \/ (ndim (squeeze a) = 2%nat /\ ncols (squeeze a) <> 0%nat
            /\ (n_unique (data a) <= 2)%nat)).
Proof.
  unfold Accuracy.
  destruct (np_squeeze x) as [p|] eqn:Hx; [|done].
  assert (Ha : exists a, p = squeeze a).
  { destruct x; simpl in Hx; try done; injection Hx as <-; by eexists. }
  destruct Ha as [a ->]. intros Hr. exists a. split; [done|].
  assert (Hs : exists q, accuracy_score (SqArray (squeeze a)) q = Ok r).
  { destruct (existsb _ _); [|by eexists].
    destruct (if (ndim (squeeze a) =? 1)%nat then _ else _) as [q|]; [|done].
    by exists q. }
  destruct Hs as [q Hq].
  apply accuracy_score_returns in Hq as (Hint & Hd0 & Hdim).
  split; [done|].
  destruct Hdim as [Hml | [Hle H2]].
  - right. unfold is_multilabel in Hml.
    apply andb_true_iff in Hml as [Hml _].
    apply andb_true_iff in Hml as [Hml Hu].
    apply andb_true_iff in Hml as [Hd Hc].
    apply Nat.eqb_eq in Hd. apply Nat.ltb_lt in Hc, Hu.
    change (data (squeeze a)) with (data a) in Hu. repeat split; lia.
  - left. pose proof (squeeze_ncols a). lia.
Qed.

(** *** Every metric on a prediction equal to the ground truth *)

Lemma numpy_metrics_averaging (y_true y_pred : pyobj) (mo : multioutput_arg) :
  mo = MoNone \/ mo = MoStr "variance_weighted" ->
  Forall (fun f : metric_fn =>
            f y_true y_pred mo = f y_true y_pred (MoStr "uniform_average"))
    [ME; MSPE; sMAPE; sMDAPE; MPE; MAPE; MDAPE].
Proof.
  intros Hmo. repeat constructor; exact (np_metric_averaging _ _ _ _ Hmo).
Qed.

Lemma sklearn_metrics_none (log1p : float -> float) (y_true y_pred : pyobj) :
  Forall (fun f : metric_fn =>
            f y_true y_pred MoNone = f y_true y_pred (MoStr "uniform_average"))
    [MAE; MSE; RMSE; MSLE log1p; R2].
Proof.
  repeat constructor.
Qed.

Lemma R2_single_sample (x : pyobj) (t : ndarray) (os : list nat) (mo : multioutput_arg) :
  standardized_forms x x = Ok (t, t, os) ->
  count_ok (nrows t) -> count_ok (ncols t) ->
  Forall (fun v => is_finite v = true) (data t) ->
  mo = MoNone \/ mo = MoStr "raw_values" \/ mo = MoStr "uniform_average" ->
  (nrows t < 2)%nat ->
  R2 x x mo
  = if mo_eq mo "raw_values" then Raise AttributeError else Ok (RPyFloat nan).
Proof.
  intros Hs Hn Hk Hf Hmo H1.
  assert (Hstd : _standardize_input x x mo = Ok (t, t, os)).
  { destruct Hmo as [-> | Hmo]; [|by apply standardize_same].
    rewrite standardize_averaging by by left.
    apply standardize_same; [done|by right]. }
  unfold R2. rewrite Hstd. cbn [mbind result_bind]. unfold r2_score.
  rewrite reg_targets_ok by (done || apply Hn || apply Hk).
  cbn [mbind result_bind].
  destruct (Nat.ltb_spec (nrows t) 2) as [_|]; [|lia].
  cbn [mbind result_bind]. unfold raw_or_result.
  by destruct (mo_eq mo "raw_values").
Qed.

Lemma existsb_false_Forall {A} (f : A -> bool) (l : list A) :
  existsb f l = false -> Forall (fun v => f v = false) l.
Proof.
  induction l as [|v l IH]; [done|]. simpl.
  intros [Hv Hl]%orb_false_iff. constructor; [done|by apply IH].
Qed.


(** C2 (as amended): for an input [x] whose 2-D form has at least one sample
    and one output (fewer than 2^63 of each) and only finite entries:
    me, mspe, smape and smdape of [(x, x)] return zero (a scalar or an array
    of zeros) for every [multioutput] the metrics accept, and so do mpe,
    mape and mdape when no entry [v] has [v + EPSILON == 0]; with
    [multioutput] [None], 'raw_values' or 'uniform_average', mae, mse and rmse
    return zero, msle does when no entry is negative and [log1p] is finite on
    the entries, and r2 returns one (an array of ones for 'raw_values') when
    there are two samples or more (for the averages: of an array that holds
    what its shape says, with fewer than 2^53 outputs), while on a single
    sample it returns NaN, or raises for 'raw_values'; accuracy, whatever
    [multioutput] is, returns 1 when [x] holds integers only and squeezes to
    a non-empty 1-D array, or to a 2-D array with at most two distinct
    values (a label-indicator matrix), and it returns in no other case. *)
Theorem perfect_prediction (log1p : float -> float) (x : pyobj) (t : ndarray)
  (os : list nat) :
  standardized_forms x x = Ok (t, t, os) ->
  count_ok (nrows t) -> count_ok (ncols t) ->
  Forall (fun v => is_finite v = true) (data t) ->
  let gives (P : float -> Prop) (mo : multioutput_arg) (f : metric_fn) :=
    exists r, f x x mo = Ok r /\ Forall P (values_of r) in
  let zero (v : float) := eq0 v = true in
  let one (v : float) := v = 1%float in
  (forall mo,
     mo = MoNone \/ mo = MoStr "raw_values" \/ mo = MoStr "uniform_average"
     \/ mo = MoStr "variance_weighted" ->
     Forall (gives zero mo) [ME; MSPE; sMAPE; sMDAPE]
     /\ (Forall (fun v => eq0 (v + EPSILON) = false) (data t) ->
         Forall (gives zero mo) [MPE; MAPE; MDAPE]))
  /\ (forall mo,
        mo = MoNone \/ mo = MoStr "raw_values" \/ mo = MoStr "uniform_average" ->
        Forall (gives zero mo) [MAE; MSE; RMSE]
        /\ (Forall (fun v => (v <? 0)%float = false /\ is_finite (log1p v) = true)
              (data t) ->
            gives zero mo (MSLE log1p))
        /\ ((2 <= nrows t)%nat ->
            mo = MoStr "raw_values" \/ (wf t /\ (Z.of_nat (ncols t) < 2 ^ 53)%Z) ->
            gives one mo R2)
        /\ ((nrows t < 2)%nat ->
            R2 x x mo
            = if mo_eq mo "raw_values" then Raise AttributeError
              else Ok (RPyFloat nan)))
  /\ (forall mo a,
        np_squeeze x = SqArray (squeeze a) ->
        Forall (fun v => differs_from_int_cast v = false) (data a) ->
        (ndim (squeeze a) = 1%nat /\ count_ok (length (data a)))
        \/ (ndim (squeeze a) = 2%nat /\ ncols (squeeze a) <> 0%nat
            /\ (n_unique (data a) <= 2)%nat /\ count_ok (nrows (squeeze a))) ->
        Accuracy x x mo = Ok (RScalar 1%float))
  /\ (forall mo r,
        Accuracy x x mo = Ok r ->
        exists a,
          np_squeeze x = SqArray (squeeze a)
          /\ Forall (fun v => differs_from_int_cast v = false) (data a)
          /\ (ndim (squeeze a) = 1%nat
              \/ (ndim (squeeze a) = 2%nat /\ ncols (squeeze a) <> 0%nat
                  /\ (n_unique (data a) <= 2)%nat))).
Proof.
  intros Hs Hn Hk Hf gives zero one.
  assert (Hz : forall (f : metric_fn) mo, zero_result (f x x mo) -> gives zero mo f).
  { intros f mo (r & Hr & Hv). exists r. split; [done|].
    eapply Forall_impl; [exact Hv|]. apply zerof_eq0. }
  assert (Hmove : forall (P : float -> Prop) (f : metric_fn) mo,
             f x x mo = f x x (MoStr "uniform_average") ->
             gives P (MoStr "uniform_average") f -> gives P mo f).
  { intros P f mo Heq (r & Hr & Hv). exists r. by rewrite Heq. }
  assert (Hnumpy : forall mo, raw_or_uniform mo ->
             Forall (gives zero mo) [ME; MSPE; sMAPE; sMDAPE]
             /\ (Forall (fun v => eq0 (v + EPSILON) = false) (data t) ->
                 Forall (gives zero mo) [MPE; MAPE; MDAPE])).
  { intros mo Hmo. split; [|intros Hd]; repeat constructor; apply Hz.
    - by apply (ME_zero x t os).
    - by apply (MSPE_zero x t os).
    - by apply (sMAPE_zero x t os).
    - by apply (sMDAPE_zero x t os).
    - by apply (MPE_zero x t os).
    - by apply (MAPE_zero x t os).
    - by apply (MDAPE_zero x t os). }
  assert (Hsklearn : forall mo, raw_or_uniform mo ->
             Forall (gives zero mo) [MAE; MSE; RMSE]
             /\ (Forall (fun v => (v <? 0)%float = false /\ is_finite (log1p v) = true)
                   (data t) ->
                 gives zero mo (MSLE log1p))).
  { intros mo Hmo. split; [|intros Hl]; repeat constructor; apply Hz.
    - by apply (MAE_zero x t os).
    - by apply (MSE_zero x t os).
    - by apply (RMSE_zero x t os).
    - by apply (MSLE_zero x t os). }
  assert (Hr2 : (2 <= nrows t)%nat -> wf t -> (Z.of_nat (ncols t) < 2 ^ 53)%Z ->
                gives one (MoStr "uniform_average") R2).
  { intros H2 Hwf H53. exists (RScalar 1%float).
    split; [by apply (R2_average_one x t os)|by repeat constructor]. }
  split; [|split; [|split]].
  - intros mo [-> | [-> | [-> | ->]]].
    + destruct (Hnumpy (MoStr "uniform_average")) as [H1 H2]; [by right|].
      pose proof (numpy_metrics_averaging x x MoNone (or_introl eq_refl)) as Heq.
      split; [|intros Hd; specialize (H2 Hd)];
        repeat match goal with
               | H : Forall _ (_ :: _) |- _ => apply Forall_cons in H as [? H]
               end;
        repeat constructor; by apply Hmove.
    + apply Hnumpy. by left.
    + apply Hnumpy. by right.
    + destruct (Hnumpy (MoStr "uniform_average")) as [H1 H2]; [by right|].
      pose proof (numpy_metrics_averaging x x (MoStr "variance_weighted")
                    (or_intror eq_refl)) as Heq.
      split; [|intros Hd; specialize (H2 Hd)];
        repeat match goal with
               | H : Forall _ (_ :: _) |- _ => apply Forall_cons in H as [? H]
               end;
        repeat constructor; by apply Hmove.
  - intros mo Hmo.
    pose proof (R2_single_sample x t os mo Hs Hn Hk Hf Hmo) as Hsingle.
    assert (Hcases : mo = MoNone \/ raw_or_uniform mo) by (unfold raw_or_uniform; tauto).
    destruct Hcases as [-> | Hru].
    + destruct (Hsklearn (MoStr "uniform_average")) as [H1 H2]; [by right|].
      pose proof (sklearn_metrics_none log1p x x) as Heq.
      repeat match goal with
             | H : Forall _ (_ :: _) |- _ => apply Forall_cons in H as [? H]
             end.
      split; [|split; [|split; [|done]]].
      * repeat constructor; by apply Hmove.
      * intros Hl. apply Hmove; [done|]. by apply H2.
      * intros H2s [[=] | [Hwf H53]]. apply Hmove; [done|]. by apply Hr2.
    + destruct (Hsklearn mo Hru) as [H1 H2]. split; [done|]. split; [done|].
      split; [|done].
      intros H2s Hwhich. destruct Hru as [-> | ->].
      * destruct (R2_one x t os Hs Hn Hk Hf H2s) as (r & Hr & Hv). by exists r.
      * destruct Hwhich as [[=] | [Hwf H53]]. by apply Hr2.
  - intros mo a Hx Hi [[Hd Hc] | (Hd & Hc & Hu & Hr)].
    + by apply (Accuracy_self x a).
    + by apply (Accuracy_self_indicator x a).
  - intros mo r Hr.
    destruct (Accuracy_self_returns x mo r Hr) as (a & Hx & Hi & Hdim).
    exists a. split; [done|]. split; [by apply existsb_false_Forall|done].
Qed.

(** C2, witness: a 2 x 2 array, with the averages the metrics take for
    'variance_weighted' and [None], and the r2 of 'uniform_average'. *)
Lemma perfect_prediction_witness :
  Forall (fun f : metric_fn =>
            exists r,
              f (PyNdarray (NDArray [2; 2] [1; 2; 3; 4]%float))
                (PyNdarray (NDArray [2; 2] [1; 2; 3; 4]%float))
                (MoStr "variance_weighted") = Ok r
              /\ Forall (fun v => eq0 v = true) (values_of r))
    [ME; MSPE; sMAPE; sMDAPE]
  /\ Forall (fun f : metric_fn =>
               exists r,
                 f (PyNdarray (NDArray [2; 2] [1; 2; 3; 4]%float))
                   (PyNdarray (NDArray [2; 2] [1; 2; 3; 4]%float)) MoNone = Ok r
                 /\ Forall (fun v => eq0 v = true) (values_of r))
       [MAE; MSE; RMSE]
  /\ exists r,
       R2 (PyNdarray (NDArray [2; 2] [1; 2; 3; 4]%float))
         (PyNdarray (NDArray [2; 2] [1; 2; 3; 4]%float)) (MoStr "uniform_average")
       = Ok r
       /\ Forall (fun v => v = 1%float) (values_of r).
Proof.
  assert (Hs : standardized_forms (PyNdarray (NDArray [2; 2] [1; 2; 3; 4]%float))
                 (PyNdarray (NDArray [2; 2] [1; 2; 3; 4]%float))
               = Ok (NDArray [2; 2] [1; 2; 3; 4]%float,
                     NDArray [2; 2] [1; 2; 3; 4]%float, [2]))
    by (vm_compute; reflexivity).
  assert (Hc : count_ok 2) by (split; [lia|by vm_compute]).
  assert (Hf : Forall (fun v => is_finite v = true) [1; 2; 3; 4]%float)
    by (repeat constructor).
  destruct (perfect_prediction (fun v => v)
              (PyNdarray (NDArray [2; 2] [1; 2; 3; 4]%float))
              (NDArray [2; 2] [1; 2; 3; 4]%float) [2] Hs Hc Hc Hf)
    as (Hnumpy & Hsklearn & _ & _).
  split; [|split].
  - apply (Hnumpy (MoStr "variance_weighted")). tauto.
  - apply (Hsklearn MoNone). tauto.
  - apply (Hsklearn (MoStr "uniform_average")); [tauto|unfold nrows; simpl; lia|].
    right. split; [reflexivity|]. unfold ncols. simpl. lia.
Defined.

(** C2, counterexample to the claim as stated: an entry equal to [-EPSILON]
    makes mpe divide zero by zero; msle rejects a negative entry; an empty
    array and an infinite entry give NaN; mae (as mse, rmse and msle) hands
    'variance_weighted' to [np.average] as weights, which fails; r2 of a
    single sample is NaN (and no array to reshape), and with
    'variance_weighted' NaN where the variances overflow; accuracy rejects
    labels that are not integers, a single label (0-d once squeezed), more
    than two distinct values in a 2-D array, and a 3-D array. *)
Lemma perfect_prediction_counterexample :
  MPE (PyList (NDArray [1] [- EPSILON]%float)) (PyList (NDArray [1] [- EPSILON]%float))
    (MoStr "raw_values")
  = Ok (RArray (NDArray [] [nan]))
  /\ eq0 nan = false
  /\ (forall log1p,
        MSLE log1p (PyList (NDArray [1] [-1]%float)) (PyList (NDArray [1] [-1]%float))
          (MoStr "raw_values")
        = Raise ValueError)
  /\ ME (PyList (NDArray [0] [])) (PyList (NDArray [0] [])) (MoStr "raw_values")
     = Ok (RArray (NDArray [] [nan]))
  /\ ME (PyList (NDArray [1] [infinity])) (PyList (NDArray [1] [infinity]))
       (MoStr "raw_values")
     = Ok (RArray (NDArray [] [nan]))
  /\ MAE (PyList (NDArray [2] [1; 2]%float)) (PyList (NDArray [2] [1; 2]%float))
       (MoStr "variance_weighted")
     = Raise TypeError
  /\ R2 (PyList (NDArray [1] [3]%float)) (PyList (NDArray [1] [3]%float))
       (MoStr "uniform_average")
     = Ok (RPyFloat nan)
  /\ R2 (PyList (NDArray [1] [3]%float)) (PyList (NDArray [1] [3]%float))
       (MoStr "raw_values")
     = Raise AttributeError
  /\ R2 (PyList (NDArray [2] [0x1p1023; 0x1p1023]%float))
       (PyList (NDArray [2] [0x1p1023; 0x1p1023]%float)) (MoStr "variance_weighted")
     = Ok (RScalar nan)
  /\ Accuracy (PyList (NDArray [2] [0.5; 0.25]%float))
       (PyList (NDArray [2] [0.5; 0.25]%float)) (MoStr "raw_values")
     = Raise ValueError
  /\ Accuracy (PyList (NDArray [1] [5]%float)) (PyList (NDArray [1] [5]%float))
       (MoStr "raw_values")
     = Raise TypeError
  /\ Accuracy (PyList (NDArray [2; 2] [1; 2; 3; 4]%float))
       (PyList (NDArray [2; 2] [1; 2; 3; 4]%float)) (MoStr "raw_values")
     = Raise ValueError
  /\ Accuracy (PyList (NDArray [2; 2; 2] [1; 0; 0; 1; 1; 0; 0; 1]%float))
       (PyList (NDArray [2; 2; 2] [1; 0; 0; 1; 1; 0; 0; 1]%float)) (MoStr "raw_values")
     = Raise ValueError.
Proof. repeat split; try intros log1p; vm_compute; reflexivity. Qed.

(** ** Writing and reading back *)

Lemma concat_chunks_upto {A} (b fuel : nat) (l : list A) :
  0 < b -> length l <= fuel -> concat (chunks_upto fuel l b) = l.
Proof.
  intros Hb. revert l. induction fuel as [|fuel IH]; intros l Hl.
  - destruct l; [done|simpl in Hl; lia].
  - destruct l as [|x l]; [done|]. cbn [chunks_upto concat].
    rewrite IH; [apply take_drop|].
    rewrite length_drop. simpl in *. lia.
Qed.

Lemma concat_chunks {A} (b : nat) (l : list A) :
  0 < b -> concat (chunks l b) = l.
Proof.
  intros Hb. unfold chunks. destruct (Nat.eqb_spec b 0) as [->|_]; [lia|].
  by apply concat_chunks_upto.
Qed.

Lemma concat_fmap_fmap {A B} (f : A -> B) (ls : list (list A)) :
  concat (fmap (M := list) f <$> ls) = f <$> concat ls.
Proof.
  induction ls as [|l ls IH]; [done|].
  cbn [fmap list_fmap concat]. rewrite fmap_app. f_equal. exact IH.
Qed.

Lemma imap_index_seq {A B} (f : nat -> B) (l : list A) (k : nat) :
  imap (fun i _ => f (k + i)) l = f <$> seq k (length l).
Proof.
  revert k. induction l as [|x l IH]; intros k; [done|].
  cbn [imap length seq fmap list_fmap]. rewrite Nat.add_0_r. f_equal.
  rewrite <- IH. apply imap_ext. intros i y _. simpl. f_equal. lia.
Qed.

Lemma prefix_app (a b : string) : String.prefix a (a +:+ b) = true.
Proof.
  induction a as [|c a IH]; simpl; [by destruct b|].
  destruct (ascii_dec c c); [exact IH|done].
Qed.

Lemma string_app_empty (a : string) : a +:+ "" = a.
Proof. induction a as [|x a IH]; [done|]. exact (f_equal (String x) IH). Qed.

Lemma string_app_assoc (a b c : string) : (a +:+ b) +:+ c = a +:+ b +:+ c.
Proof. induction a as [|x a IH]; [done|]. exact (f_equal (String x) IH). Qed.

Lemma under_path_join (path name : string) :
  String.prefix (path_join path "") (path_join path name) = true.
Proof.
  unfold path_join. case_bool_decide; [by destruct name|].
  destruct (ends_with_slash path).
  - rewrite string_app_empty. apply prefix_app.
  - rewrite <- (string_app_assoc path "/" name), <- (string_app_assoc path "/" "").
    rewrite string_app_empty. apply prefix_app.
Qed.

Section RoundTripFacts.
Context {blob : Type}.
Variable serialize : ndarray -> blob.
Variable deserialize : blob -> option ndarray.
Variable encode_schema : gmap string SchemaField -> string.
Variable decode_schema : string -> gmap string SchemaField.
Variable files : gmap string blob.
Hypothesis deserialize_serialize : forall a, deserialize (serialize a) = Some a.

Local Abbreviation record := (gmap string (@value blob)).

Lemma field_round_trip (field : SchemaField) (v : value) :
  field_conforms files field v = true ->
  encode_field serialize files field v ≫= decode_field deserialize field
  = loaded_field files field v.
Proof.
  unfold field_conforms, encode_field, decode_field, loaded_field.
  destruct (feature_type field) eqn:Hk, v; try done; simpl; rewrite ?Hk; try done.
  - by rewrite deserialize_serialize.
  - intros Hfile. by apply bool_decide_eq_true in Hfile as [b ->].
Qed.

Lemma conforms_spec (sch : gmap string SchemaField) (rec : record) :
  conforms files sch rec = true ->
  dom rec = dom sch
  /\ forall k field v,
       sch !! k = Some field -> rec !! k = Some v ->
       field_conforms files field v = true.
Proof.
  unfold conforms. intros [Hdom Hall]%andb_true_iff.
  apply bool_decide_eq_true in Hdom. split; [done|].
  intros k field v Hk Hv.
  rewrite forallb_forall in Hall.
  specialize (Hall (k, v)). simpl in Hall. rewrite Hk in Hall. apply Hall.
  by apply list_elem_of_In, elem_of_map_to_list.
Qed.

Lemma row_round_trip (sch : gmap string SchemaField) (rec : record) :
  conforms files sch rec = true ->
  row_to_dict deserialize sch (dict_to_row serialize files sch rec)
  = loaded files sch rec.
Proof.
  intros [Hdom Hf]%conforms_spec. apply map_eq. intros k.
  unfold row_to_dict, dict_to_row, loaded. rewrite !map_lookup_imap.
  destruct (sch !! k) as [field|] eqn:Hk; [|done]. simpl.
  rewrite ?map_lookup_imap, ?Hk. simpl.
  destruct (rec !! k) as [v|] eqn:Hv; [|done]. simpl.
  apply field_round_trip. by eapply Hf.
Qed.

Local Abbreviation put :=
  (fun (m : gmap string (list record)) (kv : string * list record) => <[kv.1 := kv.2]> m).

Lemma run_overwrites (kvs : list (string * list record)) (rest : list (fs_op (row := record)))
  (s : store) :
  run_ops (((fun kv => WriteParquet kv.1 "overwrite" kv.2) <$> kvs) ++ rest) s
  = run_ops rest (Store (foldl put (parquet_dirs s) kvs) (text_files s)).
Proof.
  revert s. induction kvs as [|[p rows] kvs IH]; intros s; [by destruct s|].
  cbn [fmap list_fmap app run_ops run_op]. simpl. by rewrite IH.
Qed.

Lemma filter_foldl_put (P : string * list record -> Prop)
  `{!forall kv, Decision (P kv)}
  (kvs : list (string * list record)) (m : gmap string (list record)) :
  Forall P kvs -> filter P (foldl put m kvs) = foldl put (filter P m) kvs.
Proof.
  intros Hall. revert m. induction Hall as [|[p rows] kvs Hp _ IH]; intros m; [done|].
  simpl. rewrite IH. by rewrite map_filter_insert_True.
Qed.

Lemma foldl_put_union (kvs : list (string * list record))
  (m : gmap string (list record)) :
  NoDup kvs.*1 -> foldl put m kvs = list_to_map kvs ∪ m.
Proof.
  revert m. induction kvs as [|[p rows] kvs IH]; intros m Hnd.
  - simpl. by rewrite (left_id ∅ (∪)).
  - apply NoDup_cons in Hnd as [Hp Hnd]. simpl in *. rewrite IH by done.
    rewrite <- insert_union_l. apply symmetry, insert_union_r.
    by apply not_elem_of_list_to_map_1.
Qed.

Lemma map_to_list_foldl_put (kvs : list (string * list record))
  (m : gmap string (list record)) :
  NoDup kvs.*1 -> (forall p, is_Some (m !! p) -> p ∈ kvs.*1) ->
  map_to_list (foldl put m kvs) ≡ₚ kvs.
Proof.
  intros Hnd Hm. rewrite foldl_put_union by done.
  replace (list_to_map kvs ∪ m) with (list_to_map kvs : gmap string (list record)).
  - by apply map_to_list_to_map.
  - apply map_eq. intros p.
    destruct (list_to_map kvs !! p) as [rows|] eqn:Hp.
    + symmetry. by apply lookup_union_Some_l.
    + rewrite lookup_union_r by done.
      destruct (m !! p) as [rows|] eqn:Hmp; [|done].
      apply not_elem_of_list_to_map_2 in Hp. destruct Hp. apply Hm. by exists rows.
Qed.

Lemma written_chunks_read (path : string) (sch : gmap string SchemaField)
  (cs : list (list record)) :
  let kvs :=
    imap (fun i chunk =>
            (path_join path (chunk_name i),
             dict_to_row serialize files sch <$> chunk)) cs in
  Forall (fun kv => String.prefix (path_join path "") kv.1 = true) kvs
  /\ kvs.*1 = (fun i => path_join path (chunk_name i)) <$> seq 0 (length cs)
  /\ NoDup kvs.*1
  /\ concat kvs.*2 = dict_to_row serialize files sch <$> concat cs.
Proof.
  intros kvs.
  assert (Hkeys : kvs.*1 = (fun i => path_join path (chunk_name i)) <$> seq 0 (length cs)).
  { unfold kvs. rewrite fmap_imap.
    rewrite (imap_ext _ (fun i _ => path_join path (chunk_name (0 + i)))) by done.
    apply (imap_index_seq (fun i => path_join path (chunk_name i)) cs 0). }
  repeat split.
  - apply Forall_forall. intros kv Hkv.
    apply elem_of_lookup_imap in Hkv as (i & chunk & -> & _).
    apply under_path_join.
  - exact Hkeys.
  - rewrite Hkeys. apply NoDup_fmap_2; [|apply NoDup_seq].
    intros i j Hij. by apply path_join_inj, chunk_name_inj in Hij.
  - unfold kvs. rewrite fmap_imap.
    rewrite (imap_ext _ (const (fmap (dict_to_row serialize files sch)))) by done.
    rewrite imap_const. apply concat_fmap_fmap.
Qed.

(** C7 (as amended): a non-empty sequence of records conforming to the
    schema, written by [write] in the default mode ["overwrite"] with a
    positive block size to a path under which every Parquet directory
    already present is one of the chunk directories this call writes, is
    read back by [_read_as_dict_rdd] as the same multiset of records,
    together with the schema: scalar and array fields as they were written
    (the array codec taken to be exact), image fields as the bytes of the
    file their path names. *)
Theorem write_read_round_trip (path : string) (generator : list record)
  (sch : gmap string SchemaField) (block_size : nat) (s : store) :
  0 < block_size ->
  generator <> [] ->
  Forall (fun rec => conforms files sch rec = true) generator ->
  decode_schema (encode_schema sch) = sch ->
  (forall p, is_Some (parquet_dirs s !! p) ->
             String.prefix (path_join path "") p = true ->
             exists i, i < ceil_div (length generator) block_size
                       /\ p = path_join path (chunk_name i)) ->
  exists s' recs,
    run_ops (write (dict_to_row serialize files) encode_schema path generator sch
               block_size "overwrite") s = Ok s'
    /\ _read_as_dict_rdd deserialize decode_schema path s' = Ok (recs, sch)
    /\ recs ≡ₚ loaded files sch <$> generator
    /\ forall rec k field v,
         rec ∈ generator -> sch !! k = Some field -> rec !! k = Some v ->
         loaded files sch rec !! k
         = match feature_type field, v with
           | IMAGE, VStr image_path => VBytes <$> files !! image_path
           | _, _ => Some v
           end.
Proof.
  intros Hb Hne Hconf Hsch Hstale.
  set (cs := chunks generator block_size).
  set (kvs := imap (fun i chunk =>
                      (path_join path (chunk_name i),
                       dict_to_row serialize files sch <$> chunk)) cs).
  destruct (written_chunks_read path sch cs) as (Hunder & Hkeys & Hnd & Hrows).
  fold kvs in Hunder, Hkeys, Hnd, Hrows.
  assert (Hlen : length cs = ceil_div (length generator) block_size).
  { unfold cs. by rewrite chunks_blocks, length_fmap, length_seq. }
  assert (Hops :
    write (dict_to_row serialize files) encode_schema path generator sch
      block_size "overwrite"
    = ((fun kv => WriteParquet kv.1 "overwrite" kv.2) <$> kvs)
      ++ [WriteText (path_join path "_orca_metadata") (encode_schema sch)]).
  { unfold write, kvs. f_equal. by rewrite fmap_imap. }
  rewrite Hops, run_overwrites. cbn [run_ops run_op mbind result_bind].
  set (s' := Store _ _).
  assert (Hdirs :
    map_to_list
      (filter (fun kv => String.prefix (path_join path "") kv.1 = true)
         (parquet_dirs s')) ≡ₚ kvs).
  { unfold s'. cbn [parquet_dirs]. rewrite filter_foldl_put by done.
    apply map_to_list_foldl_put; [done|].
    intros p [rows [Hp Hpre]%map_lookup_filter_Some]. simpl in Hpre.
    destruct (Hstale p) as (i & Hi & ->); [by exists rows|done|].
    rewrite Hkeys, Hlen.
    apply (list_elem_of_fmap_2 (fun i => path_join path (chunk_name i))).
    apply elem_of_seq. lia. }
  assert (Hcs : concat cs = generator) by (by apply concat_chunks).
  exists s'. unfold _read_as_dict_rdd. cbv zeta.
  destruct (map_to_list _) as [|d ds] eqn:Hd in Hdirs |- *.
  - apply Permutation_nil_l in Hdirs. rewrite <- Hdirs in Hrows.
    simpl in Hrows. rewrite Hcs in Hrows. by destruct generator.
  - replace (text_files s' !! path_join path "_orca_metadata")
      with (Some (encode_schema sch)) by (symmetry; apply lookup_insert_eq).
    rewrite Hsch.
    eexists. split; [reflexivity|]. split; [reflexivity|]. split.
    + rewrite Hdirs, Hrows, Hcs, <- list_fmap_compose.
      apply (eq_ind_r (fun l => l ≡ₚ _) (reflexivity _)).
      apply Forall_fmap_ext_1.
      eapply Forall_impl; [exact Hconf|]. intros rec Hrec. simpl.
      by apply row_round_trip.
    + intros rec k field v _ Hk Hv. unfold loaded.
      rewrite map_lookup_imap, Hk. simpl. rewrite Hv. simpl.
      unfold loaded_field. by destruct (feature_type field), v.
Qed.

End RoundTripFacts.

(** C7, witness: three records with a label, a feature vector and an image
    each, written in blocks of two to a path that already holds [chunk=0]. *)
Lemma write_read_round_trip_witness :
  exists s' recs,
    example_write "/data" [example_record 0; example_record 1; example_record 2] 2
      (Store {[ "/data/chunk=0" := [example_record 2] ]} ∅) = Ok s'
    /\ example_read "/data" s' = Ok (recs, example_schema)
    /\ recs ≡ₚ loaded example_files example_schema
                 <$> [example_record 0; example_record 1; example_record 2]
    /\ forall rec k field v,
         rec ∈ [example_record 0; example_record 1; example_record 2] ->
         example_schema !! k = Some field -> rec !! k = Some v ->
         loaded example_files example_schema rec !! k
         = match feature_type field, v with
           | IMAGE, VStr image_path => VBytes <$> example_files !! image_path
           | _, _ => Some v
           end.
Proof.
  apply (write_read_round_trip example_serialize example_deserialize
           example_encode_schema example_decode_schema example_files
           (fun a => eq_refl) "/data"
           [example_record 0; example_record 1; example_record 2]
           example_schema 2 (Store {[ "/data/chunk=0" := [example_record 2] ]} ∅)).
  - lia.
  - discriminate.
  - repeat constructor.
  - reflexivity.
  - intros p [rows Hp] _. exists 0. split; [vm_compute; lia|].
    cbn [parquet_dirs] in Hp.
    apply lookup_singleton_Some in Hp as [<- _]. reflexivity.
Defined.

(** C7 as stated fails on a path that holds more chunks than are written,
    and on an empty sequence: after two records in blocks of one, writing
    one record to the same path overwrites [chunk=0] only, and the path reads
    back as two records; and a path written from no record holds no Parquet
    directory, so reading it raises. *)
Lemma write_read_counterexample :
  (s1 ← example_write "/data" [example_record 0; example_record 1] 1 (Store ∅ ∅);
   s2 ← example_write "/data" [example_record 2] 1 s1;
   r ← example_read "/data" s2;
   Ok r.1)
  = Ok (loaded example_files example_schema <$> [example_record 1; example_record 2])
  /\ ~ (loaded example_files example_schema <$> [example_record 1; example_record 2]
        ≡ₚ loaded example_files example_schema <$> [example_record 2])
  /\ (s ← example_write "/data" [] 1 (Store ∅ ∅); example_read "/data" s)
     = Raise AnalysisException.
Proof.
  split; [vm_compute; reflexivity|]. split; [|vm_compute; reflexivity].
  intros Hperm. by apply Permutation_length in Hperm.
Qed.

(** ** [write_parquet] and [read_parquet]: the dispatch *)

Section DispatchMore.
Context {V R : Type}.
Variable call_writer : writer -> string -> gmap string V -> result R.
Variable call_reader : reader -> string -> gmap string V -> result R.

Lemma check_arguments_all {U} (fmt : string) (kwargs : gmap string U) (args : list string) :
  _check_arguments fmt kwargs args = Ok tt
  <-> forall keyword, keyword ∈ args -> is_Some (kwargs !! keyword).
Proof.
  induction args as [|k args IH]; simpl.
  - split; [|done]. intros _ k Hk. by apply elem_of_nil in Hk.
  - case_bool_decide as Hk.
    + rewrite IH. split.
      * intros H k' [->|Hk']%elem_of_cons; [done|by apply H].
      * intros H k' Hk'. apply H. by right.
    + split; [done|]. intros H. destruct Hk. apply H. by left.
Qed.

(** [write_parquet] and [read_parquet] reject a format outside their
    supported sets with [ValueError] whatever the keywords are, and hand a
    call of a supported format that has every required keyword to the
    format's own writer or reader, with the same path and keywords. *)
Theorem parquet_dispatch (format path : string) (kwargs : gmap string V) :
  (format ∉ ["mnist"; "image_folder"; "voc"] ->
   write_parquet call_writer format path kwargs = Raise ValueError)
  /\ (format ∉ ["tf_dataset"; "dataloader"] ->
      read_parquet call_reader format path kwargs = Raise ValueError)
  /\ (forall func required,
        write_format_to_function !! format = Some (func, required) ->
        (forall keyword, keyword ∈ required -> is_Some (kwargs !! keyword)) ->
        write_parquet call_writer format path kwargs = call_writer func path kwargs)
  /\ (forall func required,
        read_format_to_function !! format = Some (func, required) ->
        (forall keyword, keyword ∈ required -> is_Some (kwargs !! keyword)) ->
        read_parquet call_reader format path kwargs = call_reader func path kwargs).
Proof.
  repeat split.
  - intros H. unfold write_parquet. by rewrite bool_decide_eq_false_2.
  - intros H. unfold read_parquet. by rewrite bool_decide_eq_false_2.
  - intros func required Hf Hk. unfold write_parquet. rewrite Hf.
    rewrite (proj2 (check_arguments_all format kwargs required) Hk).
    case_bool_decide as Hs; [done|]. exfalso. apply Hs.
    apply elem_of_list_to_map_2, (list_elem_of_fmap_2 fst) in Hf. exact Hf.
  - intros func required Hf Hk. unfold read_parquet. rewrite Hf.
    rewrite (proj2 (check_arguments_all format kwargs required) Hk).
    case_bool_decide as Hs; [done|]. exfalso. apply Hs.
    apply elem_of_list_to_map_2, (list_elem_of_fmap_2 fst) in Hf. exact Hf.
Qed.
End DispatchMore.

(** ** Shards: no chunk is lost and none is read twice *)

Lemma concat_singleton_at {A} (x : A) (c : nat) (g : nat -> list A) (s k : nat) :
  concat ((fun r => (if decide (c = r) then [x] else []) ++ g r) <$> seq s k)
  ≡ₚ (if decide (s <= c < s + k) then [x] else []) ++ concat (g <$> seq s k).
Proof.
  revert s. induction k as [|k IH]; intros s.
  - simpl. case_decide; [lia|done].
  - cbn [seq fmap list_fmap concat]. rewrite IH.
    destruct (decide (c = s)) as [Heq|Hc];
      destruct (decide (S s <= c < S s + k));
      destruct (decide (s <= c < s + S k)); try lia; simpl; try done.
    by rewrite <- Permutation_middle.
Qed.

Lemma filter_by_key_partition {A} (key : A -> nat) (k : nat) (l : list A) :
  Forall (fun x => key x < k) l ->
  concat ((fun r => filter (fun x => key x = r) l) <$> seq 0 k) ≡ₚ l.
Proof.
  induction 1 as [|x l Hx _ IH].
  - induction (seq 0 k) as [|r rs IHr]; [done|]. simpl. exact IHr.
  - rewrite (list_fmap_ext _
               (fun r => (if decide (key x = r) then [x] else [])
                         ++ filter (fun x => key x = r) l)).
    + rewrite concat_singleton_at, IH. rewrite decide_True by lia. done.
    + intros _ r _. rewrite filter_cons. by case_decide.
Qed.

Lemma concat_pieces {A B} (h : A -> list B) (sel : nat -> list A) (rs : list nat) :
  concat ((fun r => concat (h <$> sel r)) <$> rs)
  = concat (h <$> concat (sel <$> rs)).
Proof.
  induction rs as [|r rs IH]; [done|]. cbn [fmap list_fmap concat].
  rewrite fmap_app, concat_app. f_equal. exact IH.
Qed.

Section ShardFacts.
Context {record : Type}.
Variable read_chunk : string -> list record.

(** With [num_shards] no larger than the number of chunks, the datasets of
    ranks [0] to [num_shards - 1] are all built, and together they hold the
    records of every chunk exactly once: what the dataset without shards
    holds, in another order. *)
Theorem shards_partition (row_group : list string) (num_shards : nat) :
  0 < num_shards <= length row_group ->
  exists (piece : nat -> list record) (all : list record),
    (forall rank, rank < num_shards ->
       dataset_init read_chunk row_group (Some (Z.of_nat num_shards))
         (Some (Z.of_nat rank)) = Ok (piece rank))
    /\ dataset_init read_chunk row_group None None = Ok all
    /\ concat (piece <$> seq 0 num_shards) ≡ₚ all.
Proof.
  intros [Hk Hn].
  set (sorted := sort_paths row_group).
  assert (Hlen : length sorted = length row_group).
  { unfold sorted, sort_paths. apply Permutation_length, merge_sort_Permutation. }
  set (h := fun i => read_chunk (default "" (sorted !! i))).
  set (sel := fun r => filter (fun i => i mod num_shards = r) (seq 0 (length sorted))).
  exists (fun r => concat (h <$> sel r)), (concat (h <$> seq 0 (length sorted))).
  repeat split.
  - intros rank Hr. unfold dataset_init. fold sorted. rewrite Hlen.
    rewrite (proj2 (Z.leb_le _ _)) by lia. rewrite (proj2 (Z.ltb_lt _ _)) by lia.
    rewrite (proj2 (Z.eqb_neq _ _)) by lia. simpl. do 2 f_equal.
    rewrite <- list_fmap_compose. unfold sel. rewrite Hlen. f_equal.
    apply list_filter_iff. intros i.
    rewrite <- (Nat2Z.inj_mod i num_shards). lia.
  - unfold dataset_init. fold sorted. simpl. by rewrite <- list_fmap_compose.
  - rewrite (concat_pieces h sel). unfold sel.
    rewrite (filter_by_key_partition (fun i => i mod num_shards)); [done|].
    apply Forall_forall. intros i _. apply Nat.mod_upper_bound. lia.
Qed.

(** Without shards the [DataLoader]'s dataset and the generator of
    [read_as_tfdataset] yield the same records: the former in sorted chunk
    order, the latter in the order [os.walk] meets the chunks. *)
Theorem readers_agree (path : string) (dirs : list string) (config : gmap string Z) :
  config !! "num_shards" = None \/ config !! "rank" = None ->
  exists recs,
    read_as_dataloader read_chunk path dirs config None = Ok recs
    /\ recs ≡ₚ tfdataset_generator read_chunk path dirs.
Proof.
  intros H. unfold read_as_dataloader, tfdataset_generator.
  rewrite (dataset_init_all read_chunk _ _ _ H). simpl.
  eexists. split; [reflexivity|].
  unfold sort_paths. by rewrite merge_sort_Permutation.
Qed.
End ShardFacts.

(** Three chunks met out of order, no shard configured. *)
Lemma readers_agree_witness :
  exists recs,
    read_as_dataloader (fun p => [p]) "/d" ["chunk=2"; "logs"; "chunk=0"; "chunk=1"] ∅ None
    = Ok recs
    /\ recs ≡ₚ tfdataset_generator (fun p => [p]) "/d" ["chunk=2"; "logs"; "chunk=0"; "chunk=1"].
Proof.
  apply (readers_agree (fun p => [p]) "/d" ["chunk=2"; "logs"; "chunk=0"; "chunk=1"] ∅).
  left. reflexivity.
Defined.

(** Five chunks in two shards. *)
Lemma shards_partition_witness :
  exists (piece : nat -> list string) (all : list string),
    (forall rank, rank < 2 ->
       dataset_init (fun p => [p]) ["c4"; "c0"; "c3"; "c1"; "c2"] (Some (Z.of_nat 2))
         (Some (Z.of_nat rank)) = Ok (piece rank))
    /\ dataset_init (fun p => [p]) ["c4"; "c0"; "c3"; "c1"; "c2"] None None = Ok all
    /\ concat (piece <$> seq 0 2) ≡ₚ all.
Proof.
  apply (shards_partition (fun p => [p]) ["c4"; "c0"; "c3"; "c1"; "c2"] 2).
  simpl. lia.
Defined.

(** ** [_standardize_input]: what a successful call returns *)

Lemma to_2d_data (o : pyobj) (t : ndarray) :
  to_2d o = Ok t -> exists a, o = PyNdarray a /\ data t = data a.
Proof.
  destruct o as [|a|a|a|a|]; try done. simpl. intros H. exists a. split; [done|].
  revert H. destruct (ndim a =? 1)%nat.
  - unfold reshape. repeat case_match; try done; by intros [= <-].
  - destruct (shape a) as [|s0 rest]; [done|].
    unfold reshape. repeat case_match; try done; by intros [= <-].
Qed.

Lemma standardized_forms_arrays (y_true y_pred : pyobj) (t p : ndarray) (os : list nat) :
  standardized_forms y_true y_pred = Ok (t, p, os) ->
  exists a b,
    (y_true = PyList a \/ y_true = PyTuple a \/ y_true = PyNdarray a
     \/ y_true = PyDataFrame a)
    /\ (y_pred = PyList b \/ y_pred = PyTuple b \/ y_pred = PyNdarray b
        \/ y_pred = PyDataFrame b)
    /\ to_2d (PyNdarray a) = Ok t /\ to_2d (PyNdarray b) = Ok p.
Proof.
  unfold standardized_forms.
  destruct y_true as [|a|a|a|a|], y_pred as [|b|b|b|b|]; cbn -[to_2d]; try done;
    repeat (match goal with
            | |- context [to_2d ?x] =>
                let H := fresh "H" in destruct (to_2d x) eqn:H; cbn -[to_2d]; try done
            end);
    intros ?; simplify_eq; exists a, b; tauto.
Qed.

Lemma standardized_forms_data (y_true y_pred : pyobj) (t p : ndarray) (os : list nat) :
  standardized_forms y_true y_pred = Ok (t, p, os) ->
  exists a b,
    (y_true = PyList a \/ y_true = PyTuple a \/ y_true = PyNdarray a
     \/ y_true = PyDataFrame a)
    /\ (y_pred = PyList b \/ y_pred = PyTuple b \/ y_pred = PyNdarray b
        \/ y_pred = PyDataFrame b)
    /\ data t = data a /\ data p = data b
    /\ shape p = [nrows p; size_of (tail (shape b))].
Proof.
  intros (a & b & Ha & Hb & Ht & Hp)%standardized_forms_arrays.
  exists a, b. repeat split; try done.
  - apply to_2d_data in Ht as (a' & [= <-] & Hd). done.
  - apply to_2d_data in Hp as (b' & [= <-] & Hd). done.
  - apply to_2d_spec in Hp as [n Hn]. unfold nrows. by rewrite Hn.
Qed.

Lemma standardize_same_shape (y_true y_pred : pyobj) (multioutput : multioutput_arg)
  (t p : ndarray) (original_shape : list nat) :
  _standardize_input y_true y_pred multioutput = Ok (t, p, original_shape) ->
  standardized_forms y_true y_pred = Ok (t, p, original_shape)
  /\ shape t = [nrows t; size_of original_shape]
  /\ shape p = shape t.
Proof.
  unfold _standardize_input.
  destruct (standardized_forms y_true y_pred) as [[[t' p'] os']|e] eqn:Hs; [|done].
  simpl.
  destruct (Nat.eqb_spec (nrows t') (nrows p')) as [Hr|]; simpl; [|done].
  destruct (Nat.eqb_spec (ncols t') (ncols p')) as [Hc|]; simpl; [|done].
  intros H.
  assert ((t', p', os') = (t, p, original_shape)) as [= -> -> ->].
  { destruct multioutput as [|s]; [congruence|].
    case_bool_decide; [congruence|done]. }
  clear H. pose proof (standardized_forms_shape _ _ _ _ _ Hs) as Ht.
  destruct (standardized_forms_data _ _ _ _ _ Hs) as (a & b & _ & _ & _ & _ & Hp).
  repeat split; [done|].
  rewrite Hp, Ht. unfold ncols in Hc. rewrite Ht, Hp in Hc. simpl in Hc.
  by rewrite Hr, Hc.
Qed.

(** When [_standardize_input] returns, its two arrays are 2-D and of one
    shape [(n, k)], where [k] is the number of elements of one sample, that
    is the product of the [original_shape] it returns (the shape of
    [y_true] without its first axis); and they hold the elements of the two
    arguments, unchanged and in order. *)
Theorem standardize_invariants (y_true y_pred : pyobj) (multioutput : multioutput_arg)
  (t p : ndarray) (original_shape : list nat) :
  _standardize_input y_true y_pred multioutput = Ok (t, p, original_shape) ->
  exists n a b,
    shape t = [n; size_of original_shape]
    /\ shape p = [n; size_of original_shape]
    /\ original_shape = tail (shape a)
    /\ (y_true = PyList a \/ y_true = PyTuple a \/ y_true = PyNdarray a
        \/ y_true = PyDataFrame a)
    /\ (y_pred = PyList b \/ y_pred = PyTuple b \/ y_pred = PyNdarray b
        \/ y_pred = PyDataFrame b)
    /\ data t = data a /\ data p = data b.
Proof.
  intros H. pose proof (standardize_original_shape _ _ _ _ _ _ H) as Hos.
  apply standardize_same_shape in H as (Hs & Ht & Hp).
  destruct (standardized_forms_data _ _ _ _ _ Hs) as (a & b & Ha & Hb & Hda & Hdb & _).
  exists (nrows t), a, b. repeat split; try done.
  - by rewrite Hp.
  - rewrite Hos. by destruct Ha as [->|[->|[->| ->]]].
Qed.

(** A tuple of two samples of shape (3, 1) against an array of shape (2, 3). *)
Lemma standardize_invariants_witness :
  exists n a b,
    shape (NDArray [2; 3] [1; 2; 3; 4; 5; 6]%float) = [n; size_of [3; 1]]
    /\ shape (NDArray [2; 3] [6; 5; 4; 3; 2; 1]%float) = [n; size_of [3; 1]]
    /\ [3; 1] = tail (shape a)
    /\ (PyTuple (NDArray [2; 3; 1] [1; 2; 3; 4; 5; 6]%float) = PyList a
        \/ PyTuple (NDArray [2; 3; 1] [1; 2; 3; 4; 5; 6]%float) = PyTuple a
        \/ PyTuple (NDArray [2; 3; 1] [1; 2; 3; 4; 5; 6]%float) = PyNdarray a
        \/ PyTuple (NDArray [2; 3; 1] [1; 2; 3; 4; 5; 6]%float) = PyDataFrame a)
    /\ (PyNdarray (NDArray [2; 3] [6; 5; 4; 3; 2; 1]%float) = PyList b
        \/ PyNdarray (NDArray [2; 3] [6; 5; 4; 3; 2; 1]%float) = PyTuple b
        \/ PyNdarray (NDArray [2; 3] [6; 5; 4; 3; 2; 1]%float) = PyNdarray b
        \/ PyNdarray (NDArray [2; 3] [6; 5; 4; 3; 2; 1]%float) = PyDataFrame b)
    /\ data (NDArray [2; 3] [1; 2; 3; 4; 5; 6]%float) = data a
    /\ data (NDArray [2; 3] [6; 5; 4; 3; 2; 1]%float) = data b.
Proof.
  apply (standardize_invariants
           (PyTuple (NDArray [2; 3; 1] [1; 2; 3; 4; 5; 6]%float))
           (PyNdarray (NDArray [2; 3] [6; 5; 4; 3; 2; 1]%float))
           (MoStr "variance_weighted")).
  vm_compute. reflexivity.
Defined.

(** ** The [multioutput] argument *)

Section MultioutputFacts.
Variable log1p : float -> float.

(** A [multioutput] string other than 'raw_values', 'uniform_average' and
    'variance_weighted' makes every metric that standardizes its input
    raise: none returns a value.  The exception is the [ValueError] of
    [_standardize_input], unless the inputs themselves fail earlier, with
    the exception of that failure. *)
Theorem invalid_multioutput_raises (y_true y_pred : pyobj) (s : string) :
  s ∉ ["raw_values"; "uniform_average"; "variance_weighted"] ->
  exists e,
    Forall (fun f : metric_fn => f y_true y_pred (MoStr s) = Raise e)
      [ME; MAE; MSE; RMSE; MSLE log1p; R2; MPE; MAPE; MSPE; sMAPE; MDAPE; sMDAPE]
    /\ (e = ValueError \/ standardized_forms y_true y_pred = Raise e).
Proof.
  intros Hs.
  assert (H : exists e, _standardize_input y_true y_pred (MoStr s) = Raise e
                        /\ (e = ValueError \/ standardized_forms y_true y_pred = Raise e)).
  { unfold _standardize_input.
    destruct (standardized_forms y_true y_pred) as [[[t p] os]|e].
    - exists ValueError. split; [|by left]. simpl.
      destruct (negb (nrows t =? nrows p)); [done|].
      destruct (negb (ncols t =? ncols p)); [done|].
      by rewrite bool_decide_eq_false_2.
    - exists e. split; [done|by right]. }
  destruct H as (e & He & Hwhy). exists e. split; [|done].
  by apply metrics_propagate.
Qed.

(** The metrics computed with numpy test [multioutput] against 'raw_values'
    only: [None] and 'variance_weighted', which [_standardize_input] lets
    through, give what 'uniform_average' gives. *)
Theorem numpy_metrics_average_modes (y_true y_pred : pyobj) :
  Forall (fun f : metric_fn =>
            f y_true y_pred MoNone = f y_true y_pred (MoStr "uniform_average")
            /\ f y_true y_pred (MoStr "variance_weighted")
               = f y_true y_pred (MoStr "uniform_average"))
    [ME; MPE; MAPE; MSPE; sMAPE; MDAPE; sMDAPE].
Proof.
  assert (Hstd : forall mo,
             mo = MoNone \/ mo = MoStr "variance_weighted" ->
             _standardize_input y_true y_pred mo
             = _standardize_input y_true y_pred (MoStr "uniform_average")).
  { intros mo Hmo. unfold _standardize_input.
    destruct (standardized_forms y_true y_pred) as [[[t p] os]|e]; [|done]. simpl.
    destruct (negb (nrows t =? nrows p)); [done|].
    destruct (negb (ncols t =? ncols p)); [done|].
    by destruct Hmo as [-> | ->]. }
  repeat constructor;
    unfold ME, MPE, MAPE, MSPE, sMAPE, MDAPE, sMDAPE;
    rewrite Hstd by tauto;
    by destruct (_standardize_input y_true y_pred (MoStr "uniform_average"))
      as [[[t p] os]|e].
Qed.
End MultioutputFacts.

(** 'mean' is no [multioutput] value. *)
Lemma invalid_multioutput_witness :
  exists e,
    Forall (fun f : metric_fn =>
              f (PyList (NDArray [2] [1; 2]%float)) (PyList (NDArray [2] [1; 3]%float))
                (MoStr "mean") = Raise e)
      [ME; MAE; MSE; RMSE; MSLE (fun v => v); R2; MPE; MAPE; MSPE; sMAPE; MDAPE; sMDAPE]
    /\ (e = ValueError
        \/ standardized_forms (PyList (NDArray [2] [1; 2]%float))
             (PyList (NDArray [2] [1; 3]%float)) = Raise e).
Proof.
  apply (invalid_multioutput_raises (fun v => v)
           (PyList (NDArray [2] [1; 2]%float)) (PyList (NDArray [2] [1; 3]%float)) "mean").
  apply (bool_decide_unpack _). vm_compute. exact I.
Defined.

(** ** [Accuracy]: probabilities and labels *)

Lemma where_gt_half_labels (p : ndarray) :
  existsb differs_from_int_cast (data (where_gt_half p)) = false.
Proof.
  unfold where_gt_half, map1. simpl.
  induction (data p) as [|v l IH]; [done|]. cbn [fmap list_fmap existsb].
  fold (fmap (M := list) (fun v => if (0.5 <? v)%float then 1%float else 0%float) l).
  rewrite IH, orb_false_r. by destruct (0.5 <? v)%float.
Qed.

(** A 1-D prediction with an entry that is no integer is taken for
    probabilities and scored as its labels [np.where(y_pred > 0.5, 1, 0)]:
    [Accuracy] returns what it returns on those labels. *)
Theorem Accuracy_of_probabilities (y_true : pyobj) (p : ndarray)
  (multioutput : multioutput_arg) :
  ndim (squeeze p) = 1 ->
  existsb differs_from_int_cast (data p) = true ->
  Accuracy y_true (PyNdarray p) multioutput
  = accuracy_score (np_squeeze y_true) (where_gt_half (squeeze p))
  /\ Accuracy y_true (PyNdarray p) multioutput
     = Accuracy y_true (PyNdarray (where_gt_half p)) multioutput.
Proof.
  intros Hd Hp.
  assert (H1 : Accuracy y_true (PyNdarray p) multioutput
               = accuracy_score (np_squeeze y_true) (where_gt_half (squeeze p))).
  { unfold Accuracy. cbn [np_squeeze].
    change (data (squeeze p)) with (data p). by rewrite Hp, Hd. }
  split; [done|]. rewrite H1. unfold Accuracy. cbn [np_squeeze].
  change (data (squeeze (where_gt_half p))) with (data (where_gt_half p)).
  by rewrite where_gt_half_labels.
Qed.

(** Probabilities 0.875, 0.25, 0.75 against the labels 1, 0, 0. *)
Lemma Accuracy_of_probabilities_witness :
  Accuracy (PyList (NDArray [3] [1; 0; 0]%float))
    (PyNdarray (NDArray [3; 1] [0.875; 0.25; 0.75]%float)) MoNone
  = accuracy_score (np_squeeze (PyList (NDArray [3] [1; 0; 0]%float)))
      (where_gt_half (squeeze (NDArray [3; 1] [0.875; 0.25; 0.75]%float)))
  /\ Accuracy (PyList (NDArray [3] [1; 0; 0]%float))
       (PyNdarray (NDArray [3; 1] [0.875; 0.25; 0.75]%float)) MoNone
     = Accuracy (PyList (NDArray [3] [1; 0; 0]%float))
         (PyNdarray (where_gt_half (NDArray [3; 1] [0.875; 0.25; 0.75]%float))) MoNone.
Proof.
  apply (Accuracy_of_probabilities (PyList (NDArray [3] [1; 0; 0]%float))
           (NDArray [3; 1] [0.875; 0.25; 0.75]%float) MoNone).
  - reflexivity.
  - vm_compute. reflexivity.
Defined.

(** ** The MNIST files *)

Section Mnist.
Local Open Scope Z_scope.

Lemma byte_value_range (b : Byte.byte) : 0 <= byte_value b < 256.
Proof. unfold byte_value. pose proof (Byte.to_N_bounded b). lia. Qed.

Lemma byte_value_of (z : Z) : byte_value (byte_of z) = z mod 256.
Proof.
  unfold byte_value, byte_of.
  pose proof (Z.mod_pos_bound z 256 ltac:(lia)) as Hz.
  destruct (Byte.of_N (Z.to_N (z mod 256))) as [y|] eqn:Hy.
  - apply Byte.to_of_N in Hy. simpl. rewrite Hy. lia.
  - apply Byte.of_N_None_iff in Hy. lia.
Qed.

Lemma byte_of_value (b : Byte.byte) : byte_of (byte_value b) = b.
Proof.
  unfold byte_of. rewrite Z.mod_small by apply byte_value_range.
  unfold byte_value. by rewrite N2Z.id, Byte.of_to_N.
Qed.

Lemma be32_value (n : Z) :
  0 <= n < 2 ^ 32 ->
  (n / 2 ^ 24) mod 256 * 2 ^ 24 + (n / 2 ^ 16) mod 256 * 2 ^ 16
  + (n / 2 ^ 8) mod 256 * 2 ^ 8 + n mod 256 = n.
Proof. intros Hn. Z.to_euclidean_division_equations. lia. Qed.

(** [_read32] reads back what the format stores: the four big-endian bytes
    of [n] decode to [n], and the stream moves past them. *)
Lemma read32_be32 (n : Z) (rest : list Byte.byte) :
  0 <= n < 2 ^ 32 -> _read32 (be32 n ++ rest) = Ok (n, rest).
Proof.
  intros Hn. unfold _read32, be32. cbn [app take drop].
  rewrite !byte_value_of. by rewrite be32_value.
Qed.

Lemma read32_inv (bytestream : list Byte.byte) (v : Z) (rest : list Byte.byte) :
  _read32 bytestream = Ok (v, rest) ->
  bytestream = be32 v ++ rest /\ 0 <= v < 2 ^ 32.
Proof.
  unfold _read32.
  destruct bytestream as [|b0 [|b1 [|b2 [|b3 tl]]]]; try done.
  cbn [take drop]. intros [= <- <-].
  pose proof (byte_value_range b0). pose proof (byte_value_range b1).
  pose proof (byte_value_range b2). pose proof (byte_value_range b3).
  split; [|lia]. unfold be32. cbn [app].
  set (v := byte_value b0 * 2 ^ 24 + byte_value b1 * 2 ^ 16
            + byte_value b2 * 2 ^ 8 + byte_value b3).
  assert (Hv0 : v / 2 ^ 24 = byte_value b0)
    by (unfold v; Z.to_euclidean_division_equations; lia).
  assert (Hv1 : (v / 2 ^ 16) mod 256 = byte_value b1)
    by (unfold v; Z.to_euclidean_division_equations; lia).
  assert (Hv2 : (v / 2 ^ 8) mod 256 = byte_value b2)
    by (unfold v; Z.to_euclidean_division_equations; lia).
  assert (Hv3 : v mod 256 = byte_value b3)
    by (unfold v; Z.to_euclidean_division_equations; lia).
  assert (Hb : forall z b, z mod 256 = byte_value b -> byte_of z = b).
  { intros z b Hz. rewrite <- (byte_of_value b). unfold byte_of.
    rewrite Hz. by rewrite (Z.mod_small (byte_value b)) by apply byte_value_range. }
  rewrite (Hb _ b1 Hv1), (Hb _ b2 Hv2), (Hb _ b3 Hv3).
  rewrite (Hb (v / 2 ^ 24) b0); [done|].
  rewrite Hv0. apply Z.mod_small, byte_value_range.
Qed.

Lemma mul_uint32_exact (r c n : Z) :
  0 <= r -> 0 <= c -> 0 <= n -> r * c * n < 2 ^ 32 ->
  mul_uint32 (mul_uint32 r c) n = r * c * n.
Proof.
  intros Hr Hc Hn Hp. unfold mul_uint32.
  destruct (Z.eq_dec n 0) as [->|Hn0].
  - rewrite !Z.mul_0_r. done.
  - rewrite (Z.mod_small (r * c)) by nia. apply Z.mod_small. nia.
Qed.

Lemma extract_images_ok (num_images rows cols : nat) (payload : list Byte.byte) :
  Z.of_nat num_images < 2 ^ 32 -> Z.of_nat rows < 2 ^ 32 -> Z.of_nat cols < 2 ^ 32 ->
  Z.of_nat (num_images * rows * cols) < 2 ^ 32 ->
  (num_images * rows * cols <= length payload)%nat ->
  _extract_mnist_images
    (be32 2051 ++ be32 (Z.of_nat num_images) ++ be32 (Z.of_nat rows)
     ++ be32 (Z.of_nat cols) ++ payload)
  = Ok (U8Array [num_images; rows; cols; 1%nat]
          (take (num_images * rows * cols) payload)).
Proof.
  intros Hn Hr Hc Hp Hlen. unfold _extract_mnist_images.
  rewrite read32_be32 by lia. cbn [mbind result_bind Z.eqb Pos.eqb negb].
  do 3 (rewrite read32_be32 by lia; cbn [mbind result_bind]).
  rewrite mul_uint32_exact by lia.
  replace (Z.to_nat (Z.of_nat rows * Z.of_nat cols * Z.of_nat num_images))
    with (num_images * rows * cols)%nat by lia.
  unfold reshape_u8. cbn [foldr]. rewrite length_take.
  rewrite (proj2 (Z.eqb_eq _ _)) by lia.
  cbn [fmap list_fmap]. by rewrite !Nat2Z.id.
Qed.

Lemma extract_labels_ok (labels_filepath : filepath_kind) (num_items : nat)
  (payload : list Byte.byte) :
  Z.of_nat num_items < 2 ^ 32 ->
  _extract_mnist_labels labels_filepath
    (be32 2049 ++ be32 (Z.of_nat num_items) ++ payload)
  = Ok (U8Array [Nat.min num_items (length payload)] (take num_items payload)).
Proof.
  intros Hk. unfold _extract_mnist_labels.
  rewrite read32_be32 by lia. cbn [mbind result_bind Z.eqb Pos.eqb negb].
  rewrite read32_be32 by lia. cbn [mbind result_bind].
  by rewrite Nat2Z.id, length_take.
Qed.

(** [_read32] and the big-endian layout are inverse to each other: the four
    bytes of [n < 2^32] decode to [n] and the stream moves past them, and
    whatever [_read32] returns is below 2^32 and was stored in the four bytes
    it consumed; a stream at its end raises [IndexError], one with one to
    three bytes left [ValueError]. *)
Theorem read32_round_trip :
  (forall n rest, 0 <= n < 2 ^ 32 -> _read32 (be32 n ++ rest) = Ok (n, rest))
  /\ (forall bytestream v rest,
        _read32 bytestream = Ok (v, rest) ->
        bytestream = be32 v ++ rest /\ 0 <= v < 2 ^ 32)
  /\ _read32 [] = Raise IndexError
  /\ (forall bytestream,
        (0 < length bytestream < 4)%nat -> _read32 bytestream = Raise ValueError).
Proof.
  split; [exact read32_be32|]. split; [exact read32_inv|]. split; [done|].
  intros [|b0 [|b1 [|b2 [|b3 tl]]]]; simpl; intros H; (done || lia).
Qed.

(** [_extract_mnist_images] returns an array exactly for the well-formed
    files: the magic number 2051, the three dimensions, and at least
    [num_images * rows * cols] bytes, a product below 2^32; the array has
    shape [(num_images, rows, cols, 1)] and holds the first so many bytes
    after the header.  So no array comes out of a file with another magic
    number or one that is cut short. *)
Theorem mnist_images_decode (file : list Byte.byte) (a : u8array) :
  _extract_mnist_images file = Ok a
  <-> exists (num_images rows cols : nat) (payload : list Byte.byte),
        file = be32 2051 ++ be32 (Z.of_nat num_images) ++ be32 (Z.of_nat rows)
               ++ be32 (Z.of_nat cols) ++ payload
        /\ Z.of_nat num_images < 2 ^ 32 /\ Z.of_nat rows < 2 ^ 32
        /\ Z.of_nat cols < 2 ^ 32
        /\ Z.of_nat (num_images * rows * cols) < 2 ^ 32
        /\ (num_images * rows * cols <= length payload)%nat
        /\ a = U8Array [num_images; rows; cols; 1%nat]
                 (take (num_images * rows * cols) payload).
Proof.
  split.
  - unfold _extract_mnist_images.
    destruct (_read32 file) as [[magic s1]|] eqn:H1; [|done]. simpl.
    destruct (Z.eqb_spec magic 2051) as [->|]; [|done]. simpl.
    destruct (_read32 s1) as [[n s2]|] eqn:H2; [|done]. simpl.
    destruct (_read32 s2) as [[r s3]|] eqn:H3; [|done]. simpl.
    destruct (_read32 s3) as [[c s4]|] eqn:H4; [|done]. simpl.
    apply read32_inv in H1 as [-> _]. apply read32_inv in H2 as [-> Hn].
    apply read32_inv in H3 as [-> Hr]. apply read32_inv in H4 as [-> Hc].
    unfold reshape_u8. cbn [foldr].
    set (k := mul_uint32 (mul_uint32 r c) n).
    destruct (Z.eqb_spec (n * (r * (c * (1 * 1)))) (Z.of_nat (length (take (Z.to_nat k) s4))))
      as [Hsz|]; [|done].
    intros [= <-].
    assert (Hk : 0 <= k < 2 ^ 32) by (apply Z.mod_pos_bound; lia).
    rewrite length_take in Hsz.
    assert (Hprod : n * r * c < 2 ^ 32) by lia.
    assert (Hkeq : k = n * r * c).
    { unfold k. rewrite mul_uint32_exact by lia. lia. }
    exists (Z.to_nat n), (Z.to_nat r), (Z.to_nat c), s4.
    rewrite !Z2Nat.id by lia.
    assert (Hnat : (Z.to_nat n * Z.to_nat r * Z.to_nat c)%nat = Z.to_nat k).
    { rewrite Hkeq. rewrite !Z2Nat.inj_mul by lia. done. }
    rewrite Hnat. repeat split; (lia || done).
  - intros (n & r & c & payload & -> & Hn & Hr & Hc & Hp & Hlen & ->).
    by apply extract_images_ok.
Qed.

(** Without the magic number 2051 the images file is refused with
    [ValueError], and so is a file that holds fewer bytes than its header
    announces. *)
Theorem mnist_images_rejected (file : list Byte.byte) :
  (forall magic rest, _read32 file = Ok (magic, rest) -> magic <> 2051 ->
     _extract_mnist_images file = Raise ValueError)
  /\ (forall (num_images rows cols : nat) payload,
        file = be32 2051 ++ be32 (Z.of_nat num_images) ++ be32 (Z.of_nat rows)
               ++ be32 (Z.of_nat cols) ++ payload ->
        Z.of_nat num_images < 2 ^ 32 -> Z.of_nat rows < 2 ^ 32 ->
        Z.of_nat cols < 2 ^ 32 ->
        (length payload < num_images * rows * cols)%nat ->
        _extract_mnist_images file = Raise ValueError).
Proof.
  split.
  - intros magic rest H Hm. unfold _extract_mnist_images. rewrite H. simpl.
    by destruct (Z.eqb_spec magic 2051).
  - intros n r c payload -> Hn Hr Hc Hlen. unfold _extract_mnist_images.
    rewrite read32_be32 by lia. cbn [mbind result_bind Z.eqb Pos.eqb negb].
    do 3 (rewrite read32_be32 by lia; cbn [mbind result_bind]).
    unfold reshape_u8. cbn [foldr]. rewrite length_take.
    rewrite (proj2 (Z.eqb_neq _ _)); [done|].
    assert (Z.of_nat (length payload) < Z.of_nat n * Z.of_nat r * Z.of_nat c) by lia.
    lia.
Qed.

(** [_extract_mnist_labels] checks the magic number 2049 and nothing else:
    of a file that announces [num_items] labels it returns the labels that
    are there, fewer than announced when the file is cut short; with another
    magic number it raises, [ValueError] when [labels_filepath] is a path
    object and [AttributeError] when it is a [str], which has no [name] for
    the message. *)
Theorem mnist_labels_decode (labels_filepath : filepath_kind) :
  (forall (num_items : nat) payload,
      Z.of_nat num_items < 2 ^ 32 ->
      _extract_mnist_labels labels_filepath
        (be32 2049 ++ be32 (Z.of_nat num_items) ++ payload)
      = Ok (U8Array [Nat.min num_items (length payload)] (take num_items payload)))
  /\ (forall file magic rest,
        _read32 file = Ok (magic, rest) -> magic <> 2049 ->
        _extract_mnist_labels labels_filepath file
        = Raise (match labels_filepath with
                 | StrPath => AttributeError
                 | PathObject => ValueError
                 end)).
Proof.
  split.
  - intros k payload Hk. by apply extract_labels_ok.
  - intros file magic rest H Hm. unfold _extract_mnist_labels. rewrite H. simpl.
    destruct (Z.eqb_spec magic 2049); [done|]. by destruct labels_filepath.
Qed.
End Mnist.

Lemma yield_all_ok {A B} (f : A -> result B) (g : A -> B) (l : list A) :
  (forall x, x ∈ l -> f x = Ok (g x)) -> yield_all f l = Ok (g <$> l).
Proof.
  induction l as [|x l IH]; intros H; [done|]. simpl.
  rewrite (H x) by left. simpl. rewrite IH; [done|].
  intros y Hy. apply H. by right.
Qed.

Lemma yield_all_raise {A B} (f : A -> result B) (l1 : list A) (x : A) (l2 : list A)
  (e : exn) :
  (forall y, y ∈ l1 -> exists v, f y = Ok v) -> f x = Raise e ->
  yield_all f (l1 ++ x :: l2) = Raise e.
Proof.
  induction l1 as [|y l1 IH]; intros H He; simpl.
  - by rewrite He.
  - destruct (H y) as [v ->]; [left|]. simpl. rewrite IH; [done| |done].
    intros z Hz. apply H. by right.
Qed.

Lemma take_block {A} (l : list A) (i size total : nat) :
  i * size + size <= total ->
  take size (drop (i * size) (take total l)) = take size (drop (i * size) l).
Proof.
  intros H. rewrite !take_drop_commute, take_take. do 2 f_equal. lia.
Qed.

Section WriteMnist.
Context {row : Type}.
Variable dict_to_row : gmap string SchemaField -> gmap string u8array -> row.
Variable encode_schema : gmap string SchemaField -> string.
Variable ndarray_dtype_to_dtype : string -> string.

(** [write_mnist] on well-formed files of [num_images] images of
    [rows x cols] pixels and of [num_items] labels: with a label for every
    image it hands [ParquetDataset.write] one record per image, in file
    order, the image as a [(rows, cols, 1)] array and the label as a scalar
    array, under a schema of two NDARRAY fields with these shapes (labels
    beyond the last image are ignored); with fewer labels than images the
    generator fails on [labels[i]] with [IndexError]. *)
Theorem write_mnist_records (num_images rows cols num_items : nat)
  (pixels labels : list Byte.byte) (labels_filepath : filepath_kind)
  (output_path : string) (block_size : nat) (write_mode : string) :
  (Z.of_nat num_images < 2 ^ 32)%Z -> (Z.of_nat rows < 2 ^ 32)%Z ->
  (Z.of_nat cols < 2 ^ 32)%Z -> (Z.of_nat num_items < 2 ^ 32)%Z ->
  (Z.of_nat (num_images * rows * cols) < 2 ^ 32)%Z ->
  num_images * rows * cols <= length pixels ->
  let image_file :=
    be32 2051 ++ be32 (Z.of_nat num_images) ++ be32 (Z.of_nat rows)
    ++ be32 (Z.of_nat cols) ++ pixels in
  let label_file := be32 2049 ++ be32 (Z.of_nat num_items) ++ labels in
  let dtype := ndarray_dtype_to_dtype "uint8" in
  let schema : gmap string SchemaField :=
    {[ "image" := mkSchemaField NDARRAY dtype [Z.of_nat rows; Z.of_nat cols; 1%Z];
       "label" := mkSchemaField NDARRAY dtype [] ]} in
  let record (i : nat) : gmap string u8array :=
    {[ "image" := U8Array [rows; cols; 1]
                    (take (rows * cols) (drop (i * (rows * cols)) pixels));
       "label" := U8Array [] (take 1 (drop i labels)) ]} in
  (num_images <= Nat.min num_items (length labels) ->
   write_mnist_files dict_to_row encode_schema ndarray_dtype_to_dtype
     image_file label_file labels_filepath output_path block_size write_mode
   = Ok (write dict_to_row encode_schema output_path (record <$> seq 0 num_images)
           schema block_size write_mode))
  /\ (Nat.min num_items (length labels) < num_images ->
      write_mnist_files dict_to_row encode_schema ndarray_dtype_to_dtype
        image_file label_file labels_filepath output_path block_size write_mode
      = Raise IndexError).
Proof.
  intros Hn Hr Hc Hk Hp Hlen image_file label_file dtype schema record.
  set (images := U8Array [num_images; rows; cols; 1]
                   (take (num_images * rows * cols) pixels)).
  set (labs := U8Array [Nat.min num_items (length labels)] (take num_items labels)).
  assert (Hi : _extract_mnist_images image_file = Ok images).
  { by apply extract_images_ok. }
  assert (Hl : _extract_mnist_labels labels_filepath label_file = Ok labs).
  { by apply extract_labels_ok. }
  unfold write_mnist_files. rewrite Hi, Hl. cbn [mbind result_bind].
  unfold _write_ndarrays, ndarrays_generator. cbn [u8_shape images].
  assert (Himg : forall i, i < num_images ->
            u8_index images i
            = Ok (U8Array [rows; cols; 1]
                    (take (rows * cols) (drop (i * (rows * cols)) pixels)))).
  { intros i Hi'. unfold u8_index. cbn [u8_shape u8_data images foldr].
    rewrite (proj2 (Nat.ltb_lt _ _)) by done.
    replace (rows * (cols * (1 * 1))) with (rows * cols) by lia.
    rewrite take_block; [done|]. nia. }
  assert (Hlab : forall i, i < Nat.min num_items (length labels) ->
            u8_index labs i = Ok (U8Array [] (take 1 (drop i labels)))).
  { intros i Hi'. unfold u8_index. cbn [u8_shape u8_data labs foldr].
    rewrite (proj2 (Nat.ltb_lt _ _)) by done.
    rewrite take_block by lia. by rewrite Nat.mul_1_r. }
  split.
  - intros Hall. rewrite (yield_all_ok _ record).
    + reflexivity.
    + intros i Hi'%elem_of_seq. rewrite Himg, Hlab by lia. reflexivity.
  - intros Hfew. set (l := Nat.min num_items (length labels)) in *.
    replace (seq 0 num_images) with (seq 0 l ++ l :: seq (S l) (num_images - S l)).
    + rewrite (yield_all_raise _ _ _ _ IndexError); [done| |].
      * intros i Hi'%elem_of_seq. rewrite Himg, Hlab by lia. by eexists.
      * rewrite Himg by lia. cbn [mbind result_bind]. unfold u8_index.
        cbn [u8_shape labs]. by rewrite (proj2 (Nat.ltb_ge _ _)) by lia.
    + change (l :: seq (S l) (num_images - S l)) with (seq l (S (num_images - S l))).
      rewrite <- seq_app. f_equal. lia.
Qed.
End WriteMnist.

(** Two images of 1 x 2 pixels with three labels, of which the third is
    ignored. *)
Lemma write_mnist_records_witness :
  write_mnist_files (fun _ r => r) (fun _ => "{}") (fun d => d)
    (be32 2051 ++ be32 2 ++ be32 1 ++ be32 2 ++ [Byte.x0a; Byte.x14; Byte.x1e; Byte.x28])
    (be32 2049 ++ be32 3 ++ [Byte.x07; Byte.x02; Byte.x01]) StrPath "/mnist" 1000 "overwrite"
  = Ok [ WriteParquet "/mnist/chunk=0" "overwrite"
           [ {[ "image" := U8Array [1; 2; 1] [Byte.x0a; Byte.x14];
                "label" := U8Array [] [Byte.x07] ]};
             {[ "image" := U8Array [1; 2; 1] [Byte.x1e; Byte.x28];
                "label" := U8Array [] [Byte.x02] ]} ];
         WriteText "/mnist/_orca_metadata" "{}" ].
Proof.
  pose proof (write_mnist_records (fun _ r => r) (fun _ => "{}") (fun d => d)
                2 1 2 3 [Byte.x0a; Byte.x14; Byte.x1e; Byte.x28] [Byte.x07; Byte.x02; Byte.x01]
                StrPath "/mnist" 1000 "overwrite") as H.
  destruct H as [H _]; [by vm_compute| by vm_compute| by vm_compute| by vm_compute
                        | by vm_compute | simpl; lia |].
  change (Z.of_nat 2) with 2%Z in H. change (Z.of_nat 1) with 1%Z in H.
  change (Z.of_nat 3) with 3%Z in H.
  rewrite H by (simpl; lia). vm_compute. reflexivity.
Defined.

(** ** [write_from_directory] *)

Lemma elem_of_concat {A} (x : A) (ls : list (list A)) :
  x ∈ concat ls <-> exists l, x ∈ l /\ l ∈ ls.
Proof.
  induction ls as [|l ls IH]; simpl.
  - split; [by intros ?%elem_of_nil|]. by intros (l & _ & ?%elem_of_nil).
  - rewrite elem_of_app, IH. split.
    + intros [H|(l' & H1 & H2)]; [exists l; split; [done|by left]|].
      exists l'. split; [done|by right].
    + intros (l' & H1 & [->|H2]%elem_of_cons); [by left|]. right. by exists l'.
Qed.

Lemma conforms_intro {blob} (files : gmap string blob) (sch : gmap string SchemaField)
  (rec : gmap string (@value blob)) :
  dom rec = dom sch ->
  (forall k v, rec !! k = Some v ->
     from_option (fun field => field_conforms files field v) false (sch !! k) = true) ->
  conforms files sch rec = true.
Proof.
  intros Hdom Hf. unfold conforms. rewrite bool_decide_eq_true_2 by done. simpl.
  apply forallb_forall. intros [k v] Hkv. simpl. apply Hf.
  by apply elem_of_map_to_list, list_elem_of_In.
Qed.

Section WriteFromDirectoryFacts.
Context {blob row : Type}.
Variable dict_to_row : gmap string SchemaField -> gmap string (@value blob) -> row.
Variable encode_schema : gmap string SchemaField -> string.
Variable listdir : string -> result (list string).
Variable shuffle : list (gmap string (@value blob)) -> list (gmap string (@value blob)).
Variable files : gmap string blob.

(** [write_from_directory] writes one record for every entry of every
    directory whose name is a key of [label_map], and none for the other
    directories: the record has the entry's path as [image] and [image_id],
    the directory's name as [label_str] and its value in [label_map] as
    [label].  The records reach [ParquetDataset.write] in listing order, or
    shuffled; and when every such entry is a readable file, each record
    conforms to the schema it is written under. *)
Theorem write_from_directory_records (directory : string) (label_map : gmap string Z)
  (output_path : string) (do_shuffle : bool) (block_size : nat) (write_mode : string)
  (labels : list string) (entries : string -> list string) :
  listdir directory = Ok labels ->
  (forall label, label ∈ labels -> is_Some (label_map !! label) ->
     listdir (path_join directory label) = Ok (entries label)) ->
  (forall l, shuffle l ≡ₚ l) ->
  let record_of (label image : string) : gmap string (@value blob) :=
    {[ "image" := VStr (path_join (path_join directory label) image);
       "label" := VInt (default 0%Z (label_map !! label));
       "image_id" := VStr (path_join (path_join directory label) image);
       "label_str" := VStr label ]} in
  let listed :=
    concat ((fun label => record_of label <$> entries label)
              <$> filter (fun label => is_Some (label_map !! label)) labels) in
  exists generator,
    write_from_directory_fn dict_to_row encode_schema listdir shuffle directory
      label_map output_path do_shuffle block_size write_mode
    = Ok (write dict_to_row encode_schema output_path generator image_folder_schema
            block_size write_mode)
    /\ generator ≡ₚ listed
    /\ (do_shuffle = false -> generator = listed)
    /\ ((forall label image,
           label ∈ labels -> is_Some (label_map !! label) -> image ∈ entries label ->
           is_Some (files !! path_join (path_join directory label) image)) ->
        Forall (fun rec => conforms files image_folder_schema rec = true) generator).
Proof.
  intros Hdir Hsub Hshuffle record_of listed.
  assert (Hrecs : directory_records listdir directory label_map = Ok listed).
  { unfold directory_records. rewrite Hdir. cbn [mbind result_bind].
    rewrite (yield_all_ok _ (fun label => record_of label <$> entries label)); [done|].
    intros label [Hl Hin]%list_elem_of_filter.
    cbn zeta. rewrite (Hsub label Hin Hl). cbn [mbind result_bind].
    apply yield_all_ok. intros image _. unfold image_record, record_of.
    by destruct Hl as [index ->]. }
  exists (if do_shuffle then shuffle listed else listed).
  unfold write_from_directory_fn. rewrite Hrecs. cbn [mbind result_bind].
  split; [done|].
  assert (Hperm : (if do_shuffle then shuffle listed else listed) ≡ₚ listed)
    by (destruct do_shuffle; [apply Hshuffle|done]).
  split; [done|]. split; [by intros ->|].
  intros Hfiles. rewrite Hperm.
  apply Forall_forall. intros rec Hrec. unfold listed in Hrec.
  apply elem_of_concat in Hrec as (group & Hrec & Hgroup).
  apply list_elem_of_fmap in Hgroup as (label & -> & [Hl Hin]%list_elem_of_filter).
  apply list_elem_of_fmap in Hrec as (image & -> & Himage).
  apply conforms_intro.
  - unfold record_of, image_folder_schema.
    by rewrite !dom_insert_L, !dom_singleton_L.
  - intros k v Hk. unfold record_of in Hk.
    repeat (apply lookup_insert_Some in Hk as [[<- <-]|[_ Hk]]; [|]).
    4: apply lookup_singleton_Some in Hk as [<- <-].
    all: try done.
    simpl. unfold field_conforms. simpl. apply bool_decide_eq_true.
    by apply Hfiles.
Qed.
End WriteFromDirectoryFacts.

(** Two label directories and one directory that [label_map] does not
    name; the records are shuffled by reversal. *)
Lemma write_from_directory_witness :
  exists generator,
    write_from_directory_fn (fun _ r => r) (fun _ => "{}")
      (fun p => if String.eqb p "/imgs" then Ok ["cat"; "notes"; "dog"]
                else if String.eqb p "/imgs/cat" then Ok ["1.jpg"]
                else if String.eqb p "/imgs/dog" then Ok ["2.jpg"; "3.jpg"]
                else Raise OSError)
      reverse "/imgs" {[ "cat" := 0%Z; "dog" := 1%Z ]} "/out" true 1000 "overwrite"
    = Ok (write (fun _ r => r) (fun _ => "{}") "/out" generator image_folder_schema
            1000 "overwrite")
    /\ length generator = 3
    /\ Forall (fun rec =>
                 conforms ({[ "/imgs/cat/1.jpg" := "c1"; "/imgs/dog/2.jpg" := "d2";
                              "/imgs/dog/3.jpg" := "d3" ]} : gmap string string)
                   image_folder_schema rec = true) generator.
Proof.
  destruct (write_from_directory_records (blob := string) (fun _ r => r) (fun _ => "{}")
              (fun p => if String.eqb p "/imgs" then Ok ["cat"; "notes"; "dog"]
                        else if String.eqb p "/imgs/cat" then Ok ["1.jpg"]
                        else if String.eqb p "/imgs/dog" then Ok ["2.jpg"; "3.jpg"]
                        else Raise OSError)
              reverse
              ({[ "/imgs/cat/1.jpg" := "c1"; "/imgs/dog/2.jpg" := "d2";
                  "/imgs/dog/3.jpg" := "d3" ]} : gmap string string)
              "/imgs" {[ "cat" := 0%Z; "dog" := 1%Z ]} "/out" true 1000 "overwrite"
              ["cat"; "notes"; "dog"]
              (fun label => if String.eqb label "cat" then ["1.jpg"]
                            else ["2.jpg"; "3.jpg"]))
    as (generator & Hw & Hperm & _ & Hconf).
  - reflexivity.
  - intros label Hl Hm. set_unfold in Hl.
    destruct Hl as [->|[->|[->|[]]]]; [reflexivity| |reflexivity].
    exfalso. revert Hm. apply (bool_decide_unpack _). vm_compute. exact I.
  - intros l. apply reverse_Permutation.
  - exists generator. split; [exact Hw|]. split.
    + rewrite Hperm. reflexivity.
    + apply Hconf. intros label image Hl Hm Hi. set_unfold in Hl.
      destruct Hl as [->|[->|[->|[]]]].
      * set_unfold in Hi. destruct Hi as [->|[]]. vm_compute. by eexists.
      * exfalso. revert Hm. apply (bool_decide_unpack _). vm_compute. exact I.
      * set_unfold in Hi. destruct Hi as [->|[->|[]]]; vm_compute; by eexists.
Defined.

(** ** [merge_records] *)

Lemma yield_all_some_raise {A B} (f : A -> result B) (e : exn) (l : list A) :
  (forall x, x ∈ l -> (exists v, f x = Ok v) \/ f x = Raise e) ->
  (exists x, x ∈ l /\ f x = Raise e) ->
  yield_all f l = Raise e.
Proof.
  induction l as [|x l IH]; intros Hall (y & Hy & He).
  - by apply elem_of_nil in Hy.
  - simpl. destruct (Hall x) as [[v Hv]| ->]; [left| |done].
    rewrite Hv. simpl. rewrite IH; [done| |].
    + intros z Hz. apply Hall. by right.
    + apply elem_of_cons in Hy as [->|Hy]; [congruence|]. by exists y.
Qed.

Lemma lookup_list_to_map_keyed {A B} (g : string -> A -> B) (m : gmap string A)
  (k : string) :
  (list_to_map ((fun kx : string * A => (kx.1, g kx.1 kx.2)) <$> map_to_list m)
     : gmap string B) !! k
  = g k <$> m !! k.
Proof.
  assert (Hkeys : ((fun kx : string * A => (kx.1, g kx.1 kx.2)) <$> map_to_list m).*1
                  = (map_to_list m).*1).
  { rewrite <- list_fmap_compose. by apply list_fmap_ext. }
  destruct (m !! k) as [x|] eqn:Hk; simpl.
  - apply elem_of_list_to_map_1.
    + rewrite Hkeys. apply NoDup_fst_map_to_list.
    + apply list_elem_of_fmap. exists (k, x). split; [done|].
      by apply elem_of_map_to_list.
  - apply not_elem_of_list_to_map_1. rewrite Hkeys.
    intros ((k' & x) & -> & Hin%elem_of_map_to_list)%list_elem_of_fmap.
    simpl in Hk. congruence.
Qed.

Section MergeFacts.
Context {blob : Type}.
Implicit Types (sch : gmap string SchemaField) (iter : list (gmap string (@value blob))).

Lemma merge_append_empty sch :
  yield_all (fun kf : string * SchemaField =>
               values ← yield_all (fun rec : gmap string (@value blob) =>
                                     match rec !! kf.1 with
                                     | Some v => Ok v
                                     | None => Raise KeyError
                                     end) [];
               Ok (kf, values)) (map_to_list sch)
  = Ok ((fun kf => (kf, [])) <$> map_to_list sch).
Proof. by apply yield_all_ok. Qed.

(** On a partition without records [merge_records] raises [ValueError] as
    soon as the schema has a field that is no image, for [np.stack] needs at
    least one array; when every field is an image it returns one dict that
    maps each field to the empty list. *)
Theorem merge_records_empty_partition sch :
  (forall k field, sch !! k = Some field -> feature_type field <> IMAGE ->
     merge_records (blob := blob) sch [] = Raise ValueError)
  /\ ((forall k field, sch !! k = Some field -> feature_type field = IMAGE) ->
      merge_records (blob := blob) sch [] = Ok [(fun _ => ColumnList []) <$> sch]).
Proof.
  split.
  - intros k field Hk Hne. unfold merge_records. rewrite merge_append_empty.
    cbn [mbind result_bind]. rewrite (yield_all_some_raise _ ValueError); [done| |].
    + intros [[k' f'] vs] [[k'' f''] [[= -> -> ->] _]]%list_elem_of_fmap. simpl.
      destruct (feature_type f''); [right|right|left]; by eauto.
    + exists (k, field, []). split.
      * apply list_elem_of_fmap. exists (k, field). split; [done|].
        by apply elem_of_map_to_list.
      * simpl. by destruct (feature_type field).
  - intros Himg. unfold merge_records. rewrite merge_append_empty.
    cbn [mbind result_bind].
    rewrite (yield_all_ok _ (fun kfv => (kfv.1.1, ColumnList []))).
    + cbn [mbind result_bind]. do 2 f_equal. apply map_eq. intros k.
      rewrite <- list_fmap_compose, lookup_fmap.
      by rewrite <- (lookup_list_to_map_keyed (fun _ _ => ColumnList []) sch k).
    + intros [[k f] vs] [[k' f'] [[= -> -> ->] Hin%elem_of_map_to_list]]%list_elem_of_fmap.
      simpl. by rewrite (Himg _ _ Hin).
Qed.

Lemma merge_values_ok (k : string) iter :
  (forall rec, rec ∈ iter -> is_Some (rec !! k)) ->
  yield_all (fun rec : gmap string (@value blob) =>
               match rec !! k with
               | Some v => Ok v
               | None => Raise KeyError
               end) iter
  = Ok (omap (.!! k) iter).
Proof.
  induction iter as [|rec iter IH]; intros H; [done|]. simpl.
  destruct (H rec) as [v Hv]; [left|]. rewrite Hv. simpl.
  rewrite IH; [done|]. intros r Hr. apply H. by right.
Qed.

Lemma merge_values_cases (k : string) iter :
  (exists vs, yield_all (fun rec : gmap string (@value blob) =>
                           match rec !! k with
                           | Some v => Ok v
                           | None => Raise KeyError
                           end) iter = Ok vs)
  \/ yield_all (fun rec : gmap string (@value blob) =>
                  match rec !! k with
                  | Some v => Ok v
                  | None => Raise KeyError
                  end) iter = Raise KeyError.
Proof.
  induction iter as [|rec iter IH]; simpl; [left; by eexists|].
  destruct (rec !! k); simpl; [|by right].
  destruct IH as [[vs ->]| ->]; simpl; [left; by eexists|by right].
Qed.

(** [merge_records] on a partition whose records all have every field of
    the schema, each field that is no image with values of one shape:
    the result is one dict with the fields of the schema as keys; a field
    maps to its values in record order, as a list for an image field and
    stacked into an array of shape [(number of records, *shape)] for any
    other. *)
Theorem merge_records_columns sch iter (first : gmap string (@value blob))
  (rest : list (gmap string (@value blob))) :
  iter = first :: rest ->
  (forall rec k, rec ∈ iter -> is_Some (sch !! k) -> is_Some (rec !! k)) ->
  (forall rec k field,
      rec ∈ iter -> sch !! k = Some field -> feature_type field <> IMAGE ->
      value_shape <$> rec !! k = value_shape <$> first !! k) ->
  exists res,
    merge_records sch iter = Ok [res]
    /\ forall k,
         res !! k
         = (fun field =>
              match feature_type field with
              | IMAGE => ColumnList (omap (.!! k) iter)
              | _ => ColumnStack
                       (length iter :: from_option value_shape [] (first !! k))
                       (omap (.!! k) iter)
              end) <$> sch !! k.
Proof.
  intros Hiter Hkeys Hshape.
  set (col := fun (k : string) (field : SchemaField) =>
                match feature_type field with
                | IMAGE => ColumnList (omap (.!! k) iter)
                | _ => ColumnStack
                         (length iter :: from_option value_shape [] (first !! k))
                         (omap (.!! k) iter)
                end).
  exists (list_to_map ((fun kf : string * SchemaField => (kf.1, col kf.1 kf.2))
                         <$> map_to_list sch)).
  split; [|intros k; apply lookup_list_to_map_keyed].
  unfold merge_records.
  rewrite (yield_all_ok _ (fun kf => (kf, omap (.!! kf.1) iter))).
  2:{ intros [k field] Hin%elem_of_map_to_list. simpl.
      rewrite merge_values_ok; [done|]. intros rec Hrec. apply Hkeys; [done|by eexists]. }
  cbn [mbind result_bind].
  rewrite (yield_all_ok _ (fun kfv => (kfv.1.1, col kfv.1.1 kfv.1.2))).
  { cbn [mbind result_bind]. by rewrite <- list_fmap_compose. }
  intros [[k f] vs] [[k' f'] [[= -> -> ->] Hin%elem_of_map_to_list]]%list_elem_of_fmap.
  simpl. unfold col.
  assert (Hstack : feature_type f' <> IMAGE ->
            np_stack (omap (.!! k') iter)
            = Ok (ColumnStack (length iter :: from_option value_shape [] (first !! k'))
                    (omap (.!! k') iter))).
  { intros Hne. destruct (Hkeys first k') as [v0 Hv0]; [subst; by left|by eexists|].
    assert (Hlen : length (omap (.!! k') iter) = length iter).
    { clear -Hkeys Hin. assert (H : forall rec, rec ∈ iter -> is_Some (rec !! k'))
        by (intros; apply Hkeys; [done|by eexists]).
      clear Hkeys. induction iter as [|r l IH]; [done|]. simpl.
      destruct (H r) as [v ->]; [left|]. simpl. f_equal. apply IH.
      intros; apply H; by right. }
    rewrite Hv0. simpl. rewrite <- Hlen.
    assert (Hall : Forall (fun w => value_shape w = value_shape v0) (omap (.!! k') iter)).
    { apply Forall_forall. intros w (rec & Hrec & Hw)%list_elem_of_omap.
      specialize (Hshape rec k' f' Hrec Hin Hne). rewrite Hw, Hv0 in Hshape.
      simpl in Hshape. congruence. }
    subst iter. cbn [omap list_omap] in *. rewrite Hv0 in *.
    fold (omap (M := list) (.!! k') rest) in *.
    unfold np_stack. apply Forall_cons in Hall as [_ Hall].
    rewrite (proj2 (forallb_forall _ _)); [done|].
    intros w Hw%list_elem_of_In. apply bool_decide_eq_true.
    by apply (proj1 (Forall_forall _ _) Hall). }
  destruct (feature_type f') eqn:Hft; [rewrite Hstack by done..|]; done.
Qed.

(** A record that lacks a field of the schema makes [merge_records] raise
    [KeyError], whatever else the partition holds. *)
Theorem merge_records_missing_field sch iter (rec : gmap string (@value blob))
  (k : string) :
  rec ∈ iter -> is_Some (sch !! k) -> rec !! k = None ->
  merge_records sch iter = Raise KeyError.
Proof.
  intros Hrec [field Hk] Hmiss. unfold merge_records.
  rewrite (yield_all_some_raise _ KeyError); [done| |].
  - intros [k' f'] _. simpl.
    destruct (merge_values_cases k' iter) as [[vs ->]| ->]; [left; by eexists|by right].
  - exists (k, field). split; [by apply elem_of_map_to_list|]. simpl.
    rewrite (yield_all_some_raise _ KeyError); [done| |].
    + intros r _. destruct (r !! k); [left; by eexists|by right].
    + exists rec. by rewrite Hmiss.
Qed.
End MergeFacts.

(** Two records with an integer label each. *)
Lemma merge_records_columns_witness :
  exists res,
    merge_records (blob := string) {[ "label" := mkSchemaField SCALAR "INT32" [] ]}
      [ {[ "label" := VInt 1 ]}; {[ "label" := VInt 2 ]} ] = Ok [res]
    /\ res !! "label" = Some (ColumnStack [2] [VInt 1; VInt 2]).
Proof.
  destruct (merge_records_columns (blob := string)
              {[ "label" := mkSchemaField SCALAR "INT32" [] ]}
              [ {[ "label" := VInt 1 ]}; {[ "label" := VInt 2 ]} ]
              {[ "label" := VInt 1 ]} [ {[ "label" := VInt 2 ]} ])
    as (res & Hres & Hcols).
  - reflexivity.
  - intros rec k Hrec [field [<- _]%lookup_singleton_Some].
    set_unfold in Hrec. destruct Hrec as [->|[->|[]]]; by eexists.
  - intros rec k field Hrec [<- _]%lookup_singleton_Some _.
    set_unfold in Hrec. by destruct Hrec as [->|[->|[]]].
  - exists res. split; [exact Hres|]. rewrite Hcols. reflexivity.
Defined.

(** The second record has no label. *)
Lemma merge_records_missing_field_witness :
  merge_records (blob := string) {[ "label" := mkSchemaField SCALAR "INT32" [] ]}
    [ {[ "label" := VInt 1 ]}; ∅ ] = Raise KeyError.
Proof.
  apply (merge_records_missing_field (blob := string) _ _ ∅ "label").
  - set_unfold. tauto.
  - by eexists.
  - reflexivity.
Defined.

(** ** Counts as floats: exact below 2^53 *)

Section ExactCounts.
Local Open Scope Z_scope.

(** A positive integer below 2^53 is a binary64 value. *)
Lemma binary_normalize_exact (p : positive) :
  Z.pos p < 2 ^ 53 ->
  exists m e,
    binary_normalize prec emax (Z.pos p) 0 false = S754_finite false m e
    /\ e <= 0 /\ Z.pos m = Z.pos p * 2 ^ (- e).
Proof.
  intros Hp. cbn [binary_normalize]. unfold binary_round.
  pose proof (digits2_pos_bound p 53 ltac:(lia) Hp) as Hd.
  assert (Hf : fexp prec emax (Z.pos (digits2_pos p) + 0) = Z.pos (digits2_pos p) - 53).
  { unfold fexp, SpecFloat.emin, prec, emax. lia. }
  rewrite Hf. unfold shl_align.
  assert (Haux : forall mz ez,
             Z.pos (digits2_pos mz) = 53 -> -52 <= ez <= 0 ->
             binary_round_aux prec emax false (Z.pos mz) ez loc_Exact
             = S754_finite false mz ez).
  { intros mz ez Hmz Hez. unfold binary_round_aux, shr_fexp, shr.
    cbn [Zdigits2]. rewrite Hmz.
    assert (Hz : fexp prec emax (53 + ez) - ez = 0)
      by (unfold fexp, SpecFloat.emin, prec, emax; lia).
    rewrite Hz. cbn [shr_record_of_loc shr_m loc_of_shr_record round_nearest_even
                     Zdigits2].
    rewrite Hmz, Hz. cbn [shr_record_of_loc shr_m].
    rewrite (proj2 (Z.leb_le _ _)); [done|]. unfold emax, prec. lia. }
  destruct (Z.pos (digits2_pos p) - 53 - 0) as [|k|k] eqn:Hk; [|lia|].
  - exists p, 0. rewrite Haux by lia. repeat split; lia.
  - exists (shift_pos k p), (Z.pos (digits2_pos p) - 53).
    unfold shift_pos. rewrite Haux.
    + rewrite shift_pos_value. repeat split; [lia|]. f_equal. f_equal. lia.
    + rewrite digits2_pos_shift. lia.
    + lia.
Qed.

(** [float(n)] of a count is the float numpy divides by. *)
Lemma float_of_int_nat (n : nat) :
  Z.of_nat n < 2 ^ 63 -> float_of_int (Z.of_nat n) = Some (float_of_nat n).
Proof.
  intros Hn. unfold float_of_int. rewrite <- float_of_nat_spec by done.
  destruct (Prim2SF (float_of_nat n)) as [| | |] eqn:Hsf;
    try (rewrite <- Hsf; by rewrite SF2Prim_Prim2SF).
  exfalso. rewrite float_of_nat_spec in Hsf by done.
  destruct n as [|n]; [done|].
  destruct (binary_normalize_finite (Z.of_nat (S n))) as (m & e & He); [lia|].
  congruence.
Qed.

Lemma math_ceil_count (n : nat) :
  Z.of_nat n < 2 ^ 53 -> math_ceil (float_of_nat n) = Some (Z.of_nat n).
Proof.
  intros Hn. unfold math_ceil. rewrite float_of_nat_spec by lia.
  destruct n as [|n]; [done|].
  destruct (Z.of_nat (S n)) as [|p|p] eqn:Hz; try lia.
  destruct (binary_normalize_exact p) as (m & e & -> & He & Hm); [lia|].
  destruct (Z.leb_spec 0 e).
  - replace e with 0 in * by lia. f_equal. lia.
  - f_equal. rewrite Hm. rewrite <- Z.mul_opp_l, Z.div_mul; [lia|].
    apply Z.pow_nonzero; lia.
Qed.

Lemma sub_zero_count (n : nat) :
  Z.of_nat n < 2 ^ 63 -> (float_of_nat n - 0)%float = float_of_nat n.
Proof.
  intros Hn. apply Prim2SF_inj. rewrite FloatAxioms.sub_spec.
  change (Prim2SF 0) with (S754_zero false).
  rewrite float_of_nat_spec by done.
  destruct n as [|n]; [done|].
  destruct (binary_normalize_finite (Z.of_nat (S n))) as (m & e & ->); [lia|done].
Qed.
End ExactCounts.

(** ** [worker_init_fn] and the records a worker draws *)

Section WorkerFacts.
Context {record : Type}.
Implicit Types (datapiece : list record) (transforms : option (record -> record)).

Lemma py_index_nat {A} (l : list A) (i : nat) : py_index l (Z.of_nat i) = l !! i.
Proof. unfold py_index. rewrite (proj2 (Z.leb_le _ _)) by lia. by rewrite Nat2Z.id. Qed.

Lemma drain_range datapiece transforms (k cur fuel : nat) :
  cur + k <= length datapiece -> k < fuel ->
  dataset_drain fuel datapiece transforms (Z.of_nat cur) (Z.of_nat (cur + k))
  = Ok (Some ((fun elem => match transforms with Some f => f elem | None => elem end)
                <$> take k (drop cur datapiece))).
Proof.
  revert cur fuel. induction k as [|k IH]; intros cur fuel Hlen Hfuel.
  - destruct fuel as [|fuel]; [lia|]. simpl. unfold dataset_next.
    rewrite (proj2 (Z.ltb_ge _ _)) by lia. done.
  - destruct fuel as [|fuel]; [lia|]. cbn [dataset_drain]. unfold dataset_next.
    rewrite (proj2 (Z.ltb_lt _ _)) by lia. rewrite py_index_nat.
    destruct (lookup_lt_is_Some_2 datapiece cur) as [x Hx]; [lia|].
    rewrite Hx. cbn [mbind result_bind].
    replace (Z.of_nat cur + 1)%Z with (Z.of_nat (S cur)) by lia.
    replace (cur + S k) with (S cur + k) by lia.
    rewrite IH by lia. cbn [mbind result_bind].
    by rewrite (drop_S _ _ _ Hx).
Qed.

Lemma drain_nothing datapiece transforms (cur cur_tail : Z) (fuel : nat) :
  (cur_tail <= cur)%Z -> 0 < fuel ->
  dataset_drain fuel datapiece transforms cur cur_tail = Ok (Some []).
Proof.
  intros H Hf. destruct fuel as [|fuel]; [lia|]. simpl. unfold dataset_next.
  by rewrite (proj2 (Z.ltb_ge _ _)) by lia.
Qed.

(** On a dataset as [__init__] leaves it ([cur = 0], [cur_tail] the number
    of records), [worker_init_fn] gives worker [w_id] the range that starts
    at [w_id * n] and ends at [n]: [per_worker] is
    [ceil(n - 0 / num_workers) = n].  So worker 0 draws every record, in
    order and through [transforms], and every other worker draws none. *)
Theorem worker_init_fn_fresh datapiece transforms (num_workers w_id : nat) :
  (Z.of_nat (length datapiece) < 2 ^ 53)%Z ->
  0 < num_workers -> (Z.of_nat num_workers < 2 ^ 63)%Z ->
  worker_init_fn 0 (Z.of_nat (length datapiece)) (Z.of_nat num_workers) (Z.of_nat w_id)
  = Some (Z.of_nat (w_id * length datapiece), Z.of_nat (length datapiece))
  /\ forall fuel,
       length datapiece < fuel ->
       dataset_drain fuel datapiece transforms
         (Z.of_nat (w_id * length datapiece)) (Z.of_nat (length datapiece))
       = Ok (Some (if (w_id =? 0)%nat then iterate datapiece transforms else [])).
Proof.
  intros Hn Hw Hw63. set (n := length datapiece) in *. split.
  - unfold worker_init_fn.
    rewrite (float_of_int_nat num_workers) by done. cbn [mbind option_bind].
    pose proof (float_of_nat_pos num_workers Hw Hw63) as Hpos.
    pose proof (posf_nonzero_number _ Hpos) as Hnz.
    unfold nonzero_number in Hnz. apply andb_true_iff in Hnz as [_ Hnz].
    apply negb_true_iff in Hnz. rewrite Hnz.
    change 0%Z with (Z.of_nat 0). rewrite (float_of_int_nat 0) by done.
    cbn [mbind option_bind]. rewrite (float_of_int_nat n) by lia.
    cbn [mbind option_bind].
    replace (float_of_nat 0) with 0%float by (vm_compute; reflexivity).
    rewrite (zero_div_pos _ Hpos), sub_zero_count by lia.
    rewrite math_ceil_count by done. cbn [mbind option_bind].
    f_equal. f_equal; lia.
  - intros fuel Hfuel. destruct w_id as [|w].
    + cbn [Nat.eqb Nat.mul]. pose proof (drain_range datapiece transforms n 0 fuel) as H.
      cbn [Nat.add] in H. rewrite H by (unfold n; lia).
      rewrite drop_0. unfold n. rewrite firstn_all. unfold iterate.
      destruct transforms; [done|]. by rewrite list_fmap_id.
    + cbn [Nat.eqb]. apply drain_nothing; lia.
Qed.
End WorkerFacts.

(** Five records, three workers: the second worker's range is empty. *)
Lemma worker_init_fn_fresh_witness :
  worker_init_fn 0 5 3 1 = Some (5%Z, 5%Z)
  /\ forall fuel, 5 < fuel ->
       dataset_drain fuel ["a"; "b"; "c"; "d"; "e"] None 5 5 = Ok (Some []).
Proof.
  apply (worker_init_fn_fresh ["a"; "b"; "c"; "d"; "e"] None 3 1).
  - by vm_compute.
  - lia.
  - by vm_compute.
Defined.

(** ** binary64 arithmetic: the sign of a difference *)

Section SignFacts.
Local Open Scope Z_scope.

Lemma binary_round_aux_sign (s : bool) (m e : Z) (l : location) :
  SFabs (binary_round_aux prec emax s m e l)
  = SFabs (binary_round_aux prec emax false m e l).
Proof.
  unfold binary_round_aux.
  destruct (shr_fexp prec emax m e l) as [mrs1 e1].
  destruct (shr_fexp prec emax _ e1 loc_Exact) as [mrs2 e2].
  destruct (shr_m mrs2); [done| |done]. by destruct (e2 <=? emax - prec).
Qed.

Lemma binary_normalize_opp (m e : Z) :
  SFabs (binary_normalize prec emax (- m) e false)
  = SFabs (binary_normalize prec emax m e false).
Proof.
  destruct m as [|p|p]; simpl; [done| |]; unfold binary_round;
    destruct (shl_align p e _) as [mz ez];
    [apply binary_round_aux_sign|symmetry; apply binary_round_aux_sign].
Qed.

Lemma SFsub_swap (x y : spec_float) :
  SFabs (SFsub prec emax x y) = SFabs (SFsub prec emax y x).
Proof.
  destruct x as [sx|sx| |sx mx ex], y as [sy|sy| |sy my ey];
    try (by destruct sx, sy); try (by destruct sx); try (by destruct sy); try done.
  cbn [SFsub]. rewrite (Z.min_comm ey ex).
  rewrite <- binary_normalize_opp. do 2 f_equal. lia.
Qed.

Lemma SFmul_square (x y : spec_float) :
  SFabs x = SFabs y -> SFmul prec emax x x = SFmul prec emax y y.
Proof.
  destruct x as [sx|sx| |sx mx ex], y as [sy|sy| |sy my ey]; try done; simpl.
  - by destruct sx, sy.
  - by destruct sx, sy.
  - intros [= -> ->]. by destruct sx, sy.
Qed.

Lemma SFadd_comm (x y : spec_float) : SFadd prec emax x y = SFadd prec emax y x.
Proof.
  destruct x as [sx|sx| |sx mx ex], y as [sy|sy| |sy my ey];
    try (by destruct sx, sy); try (by destruct sx); try (by destruct sy); try done.
  cbn [SFadd]. rewrite (Z.min_comm ey ex). f_equal. lia.
Qed.
End SignFacts.

Section FloatSymmetry.
Local Open Scope float_scope.

Lemma abs_sub_swap (a b : float) : abs (a - b) = abs (b - a).
Proof.
  apply Prim2SF_inj. rewrite !abs_spec, !FloatAxioms.sub_spec. apply SFsub_swap.
Qed.

Lemma square_sub_swap (a b : float) : (a - b) * (a - b) = (b - a) * (b - a).
Proof.
  apply Prim2SF_inj. rewrite !FloatAxioms.mul_spec, !FloatAxioms.sub_spec.
  apply SFmul_square, SFsub_swap.
Qed.

Lemma float_add_comm (a b : float) : a + b = b + a.
Proof.
  apply Prim2SF_inj. rewrite !FloatAxioms.add_spec. apply SFadd_comm.
Qed.
End FloatSymmetry.

(** ** Metrics that do not tell [y_true] from [y_pred] *)

Lemma zip_with_swap {A B} (f : A -> A -> B) (l k : list A) :
  (forall x y, f x y = f y x) -> zip_with f l k = zip_with f k l.
Proof.
  intros Hf. revert k. induction l as [|x l IH]; intros [|y k]; simpl; try done.
  by rewrite Hf, IH.
Qed.

Lemma fmap_zip_with_swap {A B C} (g : B -> C) (f : A -> A -> B) (l k : list A) :
  (forall x y, g (f x y) = g (f y x)) ->
  g <$> zip_with f l k = g <$> zip_with f k l.
Proof.
  intros Hf. revert k. induction l as [|x l IH]; intros [|y k]; simpl; try done.
  by rewrite Hf, IH.
Qed.

Lemma to_2d_same_shape (a b : ndarray) :
  shape a = shape b ->
  to_2d (PyNdarray b) = (fun t => NDArray (shape t) (data b)) <$> to_2d (PyNdarray a).
Proof.
  intros H. unfold to_2d, ndim, reshape. rewrite H.
  repeat case_match; simplify_eq; done.
Qed.

Section Symmetry.
Variable log1p : float -> float.
Variables (y_true y_pred : pyobj) (a b : ndarray).
Hypothesis Htrue : y_true = PyList a \/ y_true = PyTuple a \/ y_true = PyNdarray a.
Hypothesis Hpred : y_pred = PyList b \/ y_pred = PyTuple b \/ y_pred = PyNdarray b.
Hypothesis Hshape : shape a = shape b.

Lemma standardize_swap (mo : multioutput_arg) :
  match _standardize_input y_true y_pred mo with
  | Ok (t, p, os) =>
      _standardize_input y_pred y_true mo = Ok (p, t, os) /\ shape t = shape p
  | Raise e => _standardize_input y_pred y_true mo = Raise e
  end.
Proof.
  assert (Hf : standardized_forms y_true y_pred
               = (t ← to_2d (PyNdarray a); p ← to_2d (PyNdarray b);
                  Ok (t, p, tail (shape a)))).
  { by destruct Htrue as [->|[->| ->]], Hpred as [->|[->| ->]]. }
  assert (Hb : standardized_forms y_pred y_true
               = (p ← to_2d (PyNdarray b); t ← to_2d (PyNdarray a);
                  Ok (p, t, tail (shape b)))).
  { by destruct Htrue as [->|[->| ->]], Hpred as [->|[->| ->]]. }
  unfold _standardize_input. rewrite Hf, Hb, <- Hshape.
  rewrite (to_2d_same_shape a b Hshape).
  destruct (to_2d (PyNdarray a)) as [t|e]; [|done]. cbn -[Nat.eqb].
  unfold nrows, ncols. cbn [shape]. rewrite !Nat.eqb_refl. cbn [negb].
  destruct mo as [|s]; [done|]. by case_bool_decide.
Qed.

Lemma np_metric_swap (errors : ndarray -> ndarray -> ndarray) (mo : multioutput_arg) :
  (forall t p, shape t = shape p -> errors t p = errors p t) ->
  np_metric errors y_true y_pred mo = np_metric errors y_pred y_true mo.
Proof.
  intros He. unfold np_metric. pose proof (standardize_swap mo) as Hs.
  destruct (_standardize_input y_true y_pred mo) as [[[t p] os]|e].
  - destruct Hs as [-> Hsh]. cbn [mbind result_bind]. by rewrite He.
  - by rewrite Hs.
Qed.

Lemma sk_metric_swap (score : ndarray -> ndarray -> multioutput_arg -> result retval)
  (mo : multioutput_arg) :
  (forall t p, shape t = shape p -> score t p mo = score p t mo) ->
  sk_metric score y_true y_pred mo = sk_metric score y_pred y_true mo.
Proof.
  intros He. unfold sk_metric. pose proof (standardize_swap mo) as Hs.
  destruct (_standardize_input y_true y_pred mo) as [[[t p] os]|e].
  - destruct Hs as [-> Hsh]. cbn [mbind result_bind]. by rewrite He.
  - by rewrite Hs.
Qed.

Lemma map2_swap (f : float -> float -> float) (t p : ndarray) :
  shape t = shape p -> (forall x y, f x y = f y x) -> map2 f t p = map2 f p t.
Proof. intros Hs Hf. unfold map2. by rewrite Hs, (zip_with_swap f _ _ Hf). Qed.

Lemma check_reg_targets_swap (t p : ndarray) :
  _check_reg_targets t p = _check_reg_targets p t.
Proof.
  unfold _check_reg_targets, check_array.
  by repeat case_match.
Qed.

Lemma mean_squared_error_swap (t p : ndarray) (mo : multioutput_arg) :
  shape t = shape p -> mean_squared_error t p mo = mean_squared_error p t mo.
Proof.
  intros Hs. unfold mean_squared_error. rewrite (check_reg_targets_swap t p).
  destruct (_check_reg_targets p t); [|done]. cbn [mbind result_bind].
  f_equal. f_equal. unfold map1, map2. cbn [shape data]. rewrite Hs. f_equal.
  apply fmap_zip_with_swap. intros x y. apply square_sub_swap.
Qed.

Lemma mean_absolute_error_swap (t p : ndarray) (mo : multioutput_arg) :
  shape t = shape p -> mean_absolute_error t p mo = mean_absolute_error p t mo.
Proof.
  intros Hs. unfold mean_absolute_error. rewrite (check_reg_targets_swap t p).
  destruct (_check_reg_targets p t); [|done]. cbn [mbind result_bind].
  f_equal. f_equal. unfold map1, map2. cbn [shape data]. rewrite Hs. f_equal.
  apply fmap_zip_with_swap. intros x y. apply abs_sub_swap.
Qed.

Lemma smape_term_swap (x y : float) :
  (100 * abs (x - y) / (abs x + abs y + EPSILON)
   = 100 * abs (y - x) / (abs y + abs x + EPSILON))%float.
Proof. by rewrite (abs_sub_swap x y), (float_add_comm (abs x) (abs y)). Qed.

(** MAE, MSE, RMSE, MSLE, MSPE, sMAPE and sMDAPE return the same result,
    value or exception, when [y_true] and [y_pred] are exchanged, for two
    lists, tuples or arrays of one shape and every [multioutput]: in
    binary64 [|a - b| = |b - a|], [(a - b)^2 = (b - a)^2] and
    [|a| + |b| = |b| + |a|] hold exactly. *)
Theorem metrics_symmetric (multioutput : multioutput_arg) :
  Forall (fun f : metric_fn =>
            f y_true y_pred multioutput = f y_pred y_true multioutput)
    [MAE; MSE; RMSE; MSLE log1p; MSPE; sMAPE; sMDAPE].
Proof.
  assert (Hmse : MSE y_true y_pred multioutput = MSE y_pred y_true multioutput).
  { apply (sk_metric_swap mean_squared_error). intros t p Hs.
    by apply mean_squared_error_swap. }
  repeat constructor.
  - apply (sk_metric_swap mean_absolute_error). intros t p Hs.
    by apply mean_absolute_error_swap.
  - exact Hmse.
  - unfold RMSE. by rewrite Hmse.
  - apply (sk_metric_swap (mean_squared_log_error log1p)). intros t p Hs.
    unfold mean_squared_log_error. rewrite (check_reg_targets_swap t p).
    destruct (_check_reg_targets p t); [|done]. cbn [mbind result_bind].
    rewrite orb_comm. case_match; [done|]. by apply mean_squared_error_swap.
  - apply (np_metric_swap
             (fun t p => mean_axis0 (map1 (fun d => d * d)%float (map2 PrimFloat.sub t p)))).
    intros t p Hs. f_equal. unfold map1, map2. cbn [shape data]. rewrite Hs. f_equal.
    apply fmap_zip_with_swap. intros x y. apply square_sub_swap.
  - apply (np_metric_swap
             (fun t p => mean_axis0
                (map2 (fun t p => 100 * abs (t - p) / (abs t + abs p + EPSILON))%float t p))).
    intros t p Hs. f_equal. apply map2_swap; [done|]. apply smape_term_swap.
  - apply (np_metric_swap
             (fun t p => median_axis0
                (map2 (fun t p => 100 * abs (t - p) / (abs t + abs p + EPSILON))%float t p))).
    intros t p Hs. f_equal. apply map2_swap; [done|]. apply smape_term_swap.
Qed.
End Symmetry.

(** A list of three values against an array of the same shape. *)
Lemma metrics_symmetric_witness :
  Forall (fun f : metric_fn =>
            f (PyList (NDArray [3] [1; 2.5; -4]%float))
              (PyNdarray (NDArray [3] [0.5; 3; 8]%float)) (MoStr "raw_values")
            = f (PyNdarray (NDArray [3] [0.5; 3; 8]%float))
                (PyList (NDArray [3] [1; 2.5; -4]%float)) (MoStr "raw_values"))
    [MAE; MSE; RMSE; MSLE (fun v => v); MSPE; sMAPE; sMDAPE].
Proof.
  apply (metrics_symmetric (fun v => v)
           (PyList (NDArray [3] [1; 2.5; -4]%float))
           (PyNdarray (NDArray [3] [0.5; 3; 8]%float))
           (NDArray [3] [1; 2.5; -4]%float) (NDArray [3] [0.5; 3; 8]%float)).
  - by left.
  - by right; right.
  - reflexivity.
Defined.

(** ** [ParquetDataset.write]: the metadata *)

Section MetadataFacts.
Context {blob : Type}.
Implicit Types (s : @store blob).

Lemma run_ops_app (ops1 ops2 : list (fs_op (row := gmap string (@value blob)))) s :
  run_ops (ops1 ++ ops2) s = run_ops ops1 s ≫= run_ops ops2.
Proof.
  revert s. induction ops1 as [|op ops1 IH]; intros s; [done|].
  cbn [app run_ops]. destruct (run_op op s) as [s1|e]; [|done].
  cbn [mbind result_bind]. apply IH.
Qed.

Lemma run_parquet_ops_text (ops : list (fs_op (row := gmap string (@value blob)))) s s' :
  Forall (fun op => exists p mode rows, op = WriteParquet p mode rows) ops ->
  run_ops ops s = Ok s' -> text_files s' = text_files s.
Proof.
  intros Hops. revert s. induction Hops as [|op ops (p & mode & rows & ->) _ IH];
    intros s; [by intros [= ->]|].
  cbn [run_ops]. destruct (run_op _ s) as [s1|e] eqn:H1; [|done].
  cbn [mbind result_bind]. intros H. rewrite (IH _ H). clear -H1.
  unfold run_op in H1. repeat case_match; by simplify_eq.
Qed.

(** Whatever the write mode, a call of [write] that completes leaves the
    encoded schema in [_orca_metadata] under the path and touches no other
    text file: the metadata is rewritten also where the mode (["ignore"],
    ["append"]) keeps rows that were written before. *)
Theorem write_sets_metadata (encode_schema : gmap string SchemaField -> string)
  (dict_to_row : gmap string SchemaField -> gmap string (@value blob)
                 -> gmap string (@value blob))
  (path : string) (generator : list (gmap string (@value blob)))
  (sch : gmap string SchemaField) (block_size : nat) (write_mode : string) s s' :
  run_ops (write dict_to_row encode_schema path generator sch block_size write_mode) s
  = Ok s' ->
  text_files s'
  = <[path_join path "_orca_metadata" := encode_schema sch]> (text_files s).
Proof.
  unfold write. rewrite run_ops_app.
  destruct (run_ops _ s) as [s1|e] eqn:H1; [|done]. cbn [mbind result_bind run_ops run_op].
  intros [= <-]. cbn [text_files]. f_equal.
  apply (fun Hops => run_parquet_ops_text _ _ _ Hops H1).
  apply Forall_forall. intros op (i & chunk & -> & _)%elem_of_lookup_imap.
  by eexists _, _, _.
Qed.
End MetadataFacts.

(** A path written in mode ["ignore"] over a chunk that is already there:
    the rows stay, the metadata is replaced. *)
Lemma write_sets_metadata_witness :
  exists s',
    run_ops (write (fun _ r => r) (fun _ => "new") "/data" [ {[ "label" := VInt 1 ]} ]
               (∅ : gmap string SchemaField) 1000 "ignore")
      (Store (blob := string) {[ "/data/chunk=0" := [ {[ "label" := VInt 7 ]} ] ]}
         {[ "/data/_orca_metadata" := "old" ]}) = Ok s'
    /\ parquet_dirs s' = {[ "/data/chunk=0" := [ {[ "label" := VInt 7 ]} ] ]}
    /\ text_files s' !! "/data/_orca_metadata" = Some "new".
Proof.
  destruct (run_ops (write (fun _ r => r) (fun _ => "new") "/data"
                       [ {[ "label" := VInt 1 ]} ] (∅ : gmap string SchemaField)
                       1000 "ignore")
              (Store (blob := string) {[ "/data/chunk=0" := [ {[ "label" := VInt 7 ]} ] ]}
                 {[ "/data/_orca_metadata" := "old" ]})) as [s'|e] eqn:Hrun.
  - exists s'. split; [done|]. split.
    + vm_compute in Hrun. by injection Hrun as <-.
    + rewrite (write_sets_metadata _ _ _ _ _ _ _ _ _ Hrun). apply lookup_insert_eq.
  - vm_compute in Hrun. discriminate.
Defined.

(** ** [Accuracy]: scores and labels *)

Lemma to_int64_count (n : nat) :
  (Z.of_nat n < 2 ^ 53)%Z -> to_int64 (float_of_nat n) = Some (Z.of_nat n).
Proof.
  intros Hn. unfold to_int64. rewrite float_of_nat_spec by lia.
  destruct n as [|n]; [done|].
  destruct (Z.of_nat (S n)) as [|p|p] eqn:Hz; try lia.
  destruct (binary_normalize_exact p) as (m & e & -> & He & Hm); [lia|].
  destruct (Z.leb_spec 0 e).
  - replace e with 0%Z in * by lia.
    replace (Z.pos m * 2 ^ 0)%Z with (Z.pos p) by lia.
    by rewrite (proj2 (andb_true_iff _ _)) by (split; [apply Z.leb_le|apply Z.ltb_lt]; lia).
  - rewrite Hm, Z.mod_mul by (apply Z.pow_nonzero; lia). cbn [Z.eqb].
    rewrite Z.div_mul by (apply Z.pow_nonzero; lia).
    by rewrite (proj2 (andb_true_iff _ _)) by (split; [apply Z.leb_le|apply Z.ltb_lt]; lia).
Qed.

Lemma argmax_from_bound (l : list float) (best_i i : nat) (best : float) :
  best_i < i -> argmax_from best_i best i l < i + length l.
Proof.
  revert best_i best i. induction l as [|x l IH]; intros best_i best i H; simpl; [lia|].
  destruct (_ && _).
  - pose proof (IH i x (S i) ltac:(lia)). lia.
  - pose proof (IH best_i best (S i) ltac:(lia)). lia.
Qed.

Lemma argmax_list_bound (l : list float) : l <> [] -> argmax_list l < length l.
Proof.
  destruct l as [|x l]; [done|]. intros _. simpl.
  pose proof (argmax_from_bound l 0 1 x ltac:(lia)). lia.
Qed.

Lemma filter_all {A} (P : A -> Prop) `{!forall x, Decision (P x)} (l : list A) :
  Forall P l -> filter P l = l.
Proof.
  induction 1 as [|x l Hx _ IH]; [done|]. by rewrite filter_cons_True, IH.
Qed.

Lemma Forall_bind_seq {B} (P : B -> Prop) (f : nat -> list B) (s n : nat) :
  (forall i, Forall P (f i)) -> Forall P (i ← seq s n; f i).
Proof.
  intros H. revert s. induction n as [|n IH]; intros s; [done|].
  cbn [seq mbind list_bind]. apply Forall_app. split; [apply H|apply IH].
Qed.

Lemma existsb_none {A} (f : A -> bool) (l : list A) :
  Forall (fun v => f v = false) l -> existsb f l = false.
Proof. induction 1 as [|x l Hx _ IH]; [done|]. simpl. by rewrite Hx, IH. Qed.

(** A prediction that does not squeeze to 1-D and has an entry that is no
    integer is taken for scores and replaced by [np.argmax(y_pred, axis=1)]:
    [Accuracy] returns [accuracy_score] of the squeezed [y_true] and these
    labels, which is also what it returns when called on the labels
    themselves. *)
Theorem Accuracy_of_scores (y_true : pyobj) (p labels : ndarray)
  (multioutput : multioutput_arg) :
  ndim (squeeze p) <> 1 ->
  existsb differs_from_int_cast (data p) = true ->
  (Z.of_nat (ncols (squeeze p)) < 2 ^ 53)%Z ->
  argmax_axis1 (squeeze p) = Ok labels ->
  Accuracy y_true (PyNdarray p) multioutput
  = accuracy_score (np_squeeze y_true) labels
  /\ Accuracy y_true (PyNdarray labels) multioutput
     = Accuracy y_true (PyNdarray p) multioutput.
Proof.
  intros Hd Hp Hk Harg.
  assert (H1 : Accuracy y_true (PyNdarray p) multioutput
               = accuracy_score (np_squeeze y_true) labels).
  { unfold Accuracy. cbn [np_squeeze].
    change (data (squeeze p)) with (data p). rewrite Hp.
    rewrite (proj2 (Nat.eqb_neq _ _) Hd). by rewrite Harg. }
  split; [done|]. rewrite H1. clear H1.
  revert Harg Hk. unfold argmax_axis1, ncols.
  assert (Hsq : Forall (fun d => d <> 1) (shape (squeeze p))).
  { unfold squeeze. cbn [shape]. apply Forall_forall.
    by intros d [? _]%list_elem_of_filter. }
  destruct (shape (squeeze p)) as [|n [|k rest]]; try done. cbn [nth].
  destruct (Nat.eqb_spec k 0) as [|Hk0]; [done|]. intros [= <-] Hk.
  unfold Accuracy. cbn [np_squeeze].
  assert (Hshape : squeeze (NDArray (n :: rest)
                     (i ← seq 0 n; r ← seq 0 (size_of rest);
                      [float_of_nat
                         (argmax_list
                            ((fun j => nth ((i * k + j) * size_of rest + r) (data p) nan)
                               <$> seq 0 k))]))
                   = NDArray (n :: rest)
                       (i ← seq 0 n; r ← seq 0 (size_of rest);
                        [float_of_nat
                           (argmax_list
                              ((fun j => nth ((i * k + j) * size_of rest + r) (data p) nan)
                                 <$> seq 0 k))])).
  { unfold squeeze. cbn [shape data]. f_equal. apply filter_all.
    apply Forall_cons in Hsq as [Hn Hsq]. apply Forall_cons in Hsq as [_ Hsq].
    by constructor. }
  change (data (squeeze p)) with (data p) in *.
  rewrite Hshape. cbn [data].
  rewrite existsb_none; [done|].
  apply Forall_bind_seq. intros i.
  apply Forall_bind_seq. intros r. constructor; [|done].
  unfold differs_from_int_cast. rewrite to_int64_count; [done|].
  pose proof (argmax_list_bound
                ((fun j => nth ((i * k + j) * size_of rest + r) (data p) nan) <$> seq 0 k))
    as Hb.
  rewrite length_fmap, length_seq in Hb.
  assert (argmax_list ((fun j => nth ((i * k + j) * size_of rest + r) (data p) nan)
                         <$> seq 0 k) < k).
  { apply Hb. destruct k; [done|]. done. }
  lia.
Qed.

(** Three samples scored over two classes. *)
Lemma Accuracy_of_scores_witness :
  Accuracy (PyList (NDArray [3] [1; 0; 0]%float))
    (PyNdarray (NDArray [3; 2] [0.25; 0.75; 0.5; 0.25; 0.125; 0.875]%float)) MoNone
  = accuracy_score (np_squeeze (PyList (NDArray [3] [1; 0; 0]%float)))
      (NDArray [3] [1; 0; 1]%float)
  /\ Accuracy (PyList (NDArray [3] [1; 0; 0]%float))
       (PyNdarray (NDArray [3] [1; 0; 1]%float)) MoNone
     = Accuracy (PyList (NDArray [3] [1; 0; 0]%float))
         (PyNdarray (NDArray [3; 2] [0.25; 0.75; 0.5; 0.25; 0.125; 0.875]%float)) MoNone.
Proof.
  apply (Accuracy_of_scores (PyList (NDArray [3] [1; 0; 0]%float))
           (NDArray [3; 2] [0.25; 0.75; 0.5; 0.25; 0.125; 0.875]%float)
           (NDArray [3] [1; 0; 1]%float) MoNone).
  - by vm_compute.
  - by vm_compute.
  - by vm_compute.
  - by vm_compute.
Defined.

(** ** binary64 arithmetic: rounding keeps the sign *)

Section SignedRounding.
Local Open Scope Z_scope.

Lemma shr_1_nonneg (mrs : shr_record) : 0 <= shr_m mrs -> 0 <= shr_m (shr_1 mrs).
Proof. destruct mrs as [m r s]. destruct m as [|[p|p|]|p]; simpl; lia. Qed.

Lemma iter_shr_1_nonneg (k : positive) (mrs : shr_record) :
  0 <= shr_m mrs -> 0 <= shr_m (SpecFloat.iter_pos shr_1 k mrs).
Proof.
  revert mrs. induction k as [k IH|k IH|]; intros mrs H; simpl.
  - by apply IH, IH, shr_1_nonneg.
  - by apply IH, IH.
  - by apply shr_1_nonneg.
Qed.

Lemma shr_fexp_nonneg (m e : Z) (l : location) :
  0 <= m -> 0 <= shr_m (fst (shr_fexp prec emax m e l)).
Proof.
  intros H. unfold shr_fexp, shr.
  destruct (fexp prec emax (Zdigits2 m + e) - e) as [|k|k]; simpl;
    rewrite ?shr_record_of_loc_m; try done.
  apply iter_shr_1_nonneg. by rewrite shr_record_of_loc_m.
Qed.

Lemma round_nearest_even_nonneg (m : Z) (l : location) :
  0 <= m -> 0 <= round_nearest_even m l.
Proof. intros H. destruct l as [|[]]; simpl; try lia. destruct (Z.even m); lia. Qed.

(** Rounding a mantissa that is not negative gives a number of the sign
    asked for: a zero, a finite value or an infinity, never NaN. *)
Lemma binary_round_aux_signed (s : bool) (m e : Z) (l : location) :
  0 <= m ->
  match binary_round_aux prec emax s m e l with
  | S754_nan => False
  | S754_zero s' | S754_infinity s' | S754_finite s' _ _ => s' = s
  end.
Proof.
  intros H. unfold binary_round_aux.
  pose proof (shr_fexp_nonneg m e l H) as H1.
  destruct (shr_fexp prec emax m e l) as [mrs1 e1]. simpl in H1.
  pose proof (round_nearest_even_nonneg _ (loc_of_shr_record mrs1) H1) as H2.
  pose proof (shr_fexp_nonneg _ e1 loc_Exact H2) as H3.
  destruct (shr_fexp prec emax _ e1 loc_Exact) as [mrs2 e2]. simpl in H3.
  destruct (shr_m mrs2); [done| |lia]. by destruct (e2 <=? emax - prec).
Qed.
End SignedRounding.

Section NonNegative.
Local Open Scope float_scope.

Lemma sub_number (a b : float) :
  is_finite a = true -> is_finite b = true -> is_nan (a - b) = false.
Proof.
  intros Ha Hb. rewrite is_nan_spec, FloatAxioms.sub_spec.
  pose proof (Prim2SF_valid_emin a) as Va. pose proof (Prim2SF_valid_emin b) as Vb.
  apply is_finite_cases in Ha, Hb.
  destruct (Prim2SF a) as [sa|[]| |sa ma ea], (Prim2SF b) as [sb|[]| |sb mb eb];
    try done.
  - by destruct sa, sb.
  - unfold SF64sub, SFsub.
    match goal with
    | |- context [binary_normalize _ _ ?z ?e _] =>
        pose proof (binary_normalize_number z e) as Hn
    end.
    destruct (binary_normalize _ _ _ _ _); try done.
    exfalso. apply Hn. specialize (Va _ _ _ eq_refl). specialize (Vb _ _ _ eq_refl). lia.
Qed.

Lemma nonnegf_abs_number (x : float) : is_nan x = false -> nonnegf (abs x).
Proof.
  rewrite is_nan_spec. unfold nonnegf. rewrite FloatAxioms.abs_spec.
  by destruct (Prim2SF x).
Qed.

Lemma nonnegf_square (x : float) : is_nan x = false -> nonnegf (x * x).
Proof.
  rewrite is_nan_spec. unfold nonnegf. rewrite FloatAxioms.mul_spec.
  destruct (Prim2SF x) as [[]|[]| |s m e]; try done. intros _.
  unfold SF64mul, SFmul.
  pose proof (binary_round_aux_signed (xorb s s) (Z.pos (m * m)) (e + e) loc_Exact
                ltac:(lia)) as H.
  destruct (binary_round_aux _ _ _ _ _ _) as [s'|s'| |s' m' e']; try done;
    subst s'; by destruct s.
Qed.

Lemma nonnegf_div_count (x : float) (n : nat) :
  nonnegf x -> count_ok n -> nonnegf (x / float_of_nat n).
Proof.
  unfold nonnegf. intros Hx [H0 Hn]. rewrite FloatAxioms.div_spec.
  assert (Hd : exists m e, Prim2SF (float_of_nat n) = S754_finite false m e).
  { unfold float_of_nat. rewrite of_uint63_spec, of_Z_spec.
    rewrite Z.mod_small by (change wB with (2 ^ 63)%Z; lia).
    apply binary_normalize_finite. lia. }
  destruct Hd as (md & ed & ->).
  destruct (Prim2SF x) as [[]|[]| |[] mx ex]; try done.
  unfold SF64div, SFdiv, SFdiv_core_binary.
  match goal with
  | |- context [Z.div_eucl ?a ?b] =>
      pose proof (Z.div_pos a b) as Hq; unfold Z.div in Hq;
      destruct (Z.div_eucl a b) as [q r] eqn:Hqr
  end.
  simpl in Hq.
  assert (Hq0 : (0 <= q)%Z).
  { apply Hq; [|lia].
    destruct (_ - _ - _)%Z; [lia| |lia]. rewrite Z.shiftl_mul_pow2 by lia.
    apply Z.mul_nonneg_nonneg; [lia|]. apply Z.pow_nonneg. lia. }
  pose proof (binary_round_aux_signed (xorb false false) q
                (Z.min (fexp prec emax (Zdigits2 (Z.pos mx) + ex - (Zdigits2 (Z.pos md) + ed)))
                   (ex - ed))
                (new_location (Z.pos md) r) Hq0) as Hsg.
  destruct (binary_round_aux _ _ _ _ _ _) as [s'|s'| |s' m' e']; try done; by subst s'.
Qed.

Lemma nonnegf_sqrt (x : float) : nonnegf x -> nonnegf (PrimFloat.sqrt x).
Proof.
  unfold nonnegf. intros Hx. rewrite FloatAxioms.sqrt_spec.
  destruct (Prim2SF x) as [[]|[]| |[] mx ex]; try done.
  unfold SF64sqrt, SFsqrt, SFsqrt_core_binary.
  match goal with
  | |- context [Z.sqrtrem ?a] =>
      pose proof (Z.sqrtrem_sqrt a) as Hs; pose proof (Z.sqrt_nonneg a) as Hn;
      destruct (Z.sqrtrem a) as [q r] eqn:Hqr
  end.
  simpl in Hs. subst q.
  match goal with
  | |- context [binary_round_aux _ _ false ?q ?e ?l] =>
      pose proof (binary_round_aux_signed false q e l Hn) as H
  end.
  destruct (binary_round_aux _ _ _ _ _ _) as [s'|s'| |s' m' e']; try done; by subst s'.
Qed.

Lemma nonnegf_fsum (l : list float) : Forall nonnegf l -> nonnegf (fsum l).
Proof.
  destruct l as [|x l]; [intros _; by vm_compute|].
  intros H. apply Forall_cons in H as [Hx Hl]. simpl.
  revert x Hx. induction Hl as [|y l Hy _ IH]; intros x Hx; [done|].
  simpl. apply IH. by apply nonnegf_add.
Qed.
End NonNegative.

(** ** Errors that are never negative *)

Lemma Forall_zip_with2 {A B C} (P : A -> Prop) (Q : B -> Prop) (R : C -> Prop)
  (f : A -> B -> C) (l : list A) (k : list B) :
  Forall P l -> Forall Q k -> (forall x y, P x -> Q y -> R (f x y)) ->
  Forall R (zip_with f l k).
Proof.
  intros Hl. revert k. induction Hl as [|x l Hx _ IH]; intros k Hk Hf; [done|].
  destruct Hk as [|y k Hy Hk]; [done|]. simpl. constructor; [by apply Hf|by apply IH].
Qed.

Lemma mean_axis0_nonneg (a : ndarray) :
  Forall nonnegf (data a) -> count_ok (nrows a) -> Forall nonnegf (data (mean_axis0 a)).
Proof.
  intros Hd Hn. simpl. apply Forall_fmap.
  eapply Forall_impl; [by apply Forall_columns|].
  intros c Hc. simpl. apply nonnegf_div_count; [by apply nonnegf_fsum|done].
Qed.

Lemma mean_nonneg (a : ndarray) :
  Forall nonnegf (data a) -> count_ok (size_of (shape a)) -> nonnegf (mean a).
Proof.
  intros Hd Hn. unfold mean. apply nonnegf_div_count; [by apply nonnegf_fsum|done].
Qed.

Lemma raw_or_mean_nonneg (e : ndarray) (os : list nat) (mo : multioutput_arg)
  (r : retval) :
  Forall nonnegf (data e) -> count_ok (size_of (shape e)) ->
  raw_or_mean e os mo = Ok r -> Forall nonnegf (values_of r).
Proof.
  intros Hd Hn. unfold raw_or_mean. destruct (mo_eq mo "raw_values").
  - destruct (reshape e (Z.of_nat <$> os)) as [a|] eqn:Ha; [|done].
    simpl. intros [= <-]. simpl. apply reshape_to_shape in Ha as (_ & -> & _). done.
  - intros [= <-]. simpl. repeat constructor. by apply mean_nonneg.
Qed.

Lemma score_result_nonneg (e : ndarray) (os : list nat) (mo : multioutput_arg)
  (res r : retval) :
  Forall nonnegf (data e) -> count_ok (size_of (shape e)) ->
  reduce_errors e mo = Ok res -> raw_or_result res os mo = Ok r ->
  Forall nonnegf (values_of r).
Proof.
  intros Hd Hn Hres. unfold raw_or_result.
  assert (Hv : Forall nonnegf (values_of res)).
  { revert Hres. unfold reduce_errors. destruct mo as [|s].
    - intros [= <-]. repeat constructor. by apply mean_nonneg.
    - destruct (String.eqb s "raw_values"); [by intros [= <-]|].
      destruct (String.eqb s "uniform_average"); [|done].
      intros [= <-]. repeat constructor. by apply mean_nonneg. }
  destruct (mo_eq mo "raw_values"); [|by intros [= <-]].
  unfold reshape_result. destruct res as [v|a|v]; [| |done].
  - destruct (reshape _ _) as [a|] eqn:Ha; [|done]. simpl. intros [= <-]. simpl.
    by apply reshape_to_shape in Ha as (_ & -> & _).
  - destruct (reshape _ _) as [a'|] eqn:Ha; [|done]. simpl. intros [= <-]. simpl.
    by apply reshape_to_shape in Ha as (_ & -> & _).
Qed.

Section NonNegativeErrors.
Local Open Scope float_scope.
Variables (y_true y_pred : pyobj) (multioutput : multioutput_arg).
Variables (t p : ndarray) (original_shape : list nat).
Hypothesis Hstd : _standardize_input y_true y_pred multioutput = Ok (t, p, original_shape).
Hypothesis Ht : Forall (fun v => is_finite v = true) (data t).
Hypothesis Hp : Forall (fun v => is_finite v = true) (data p).
Hypothesis Hn : count_ok (nrows t).
Hypothesis Hk : count_ok (ncols t).

Lemma squared_errors_nonneg :
  Forall nonnegf (data (map1 (fun d => d * d) (map2 PrimFloat.sub t p))).
Proof.
  simpl. apply Forall_fmap.
  apply (Forall_zip_with2 (fun v => is_finite v = true) (fun v => is_finite v = true));
    [done|done|].
  intros x y Hx Hy. simpl. apply nonnegf_square. by apply sub_number.
Qed.

Lemma absolute_errors_nonneg :
  Forall nonnegf (data (map1 abs (map2 PrimFloat.sub p t))).
Proof.
  simpl. apply Forall_fmap.
  apply (Forall_zip_with2 (fun v => is_finite v = true) (fun v => is_finite v = true));
    [done|done|].
  intros x y Hx Hy. simpl. apply nonnegf_abs_number. by apply sub_number.
Qed.

Lemma count_outputs (a : ndarray) :
  ncols a = ncols t -> count_ok (size_of (shape (mean_axis0 a))).
Proof. intros H. simpl. unfold size_of. simpl. by rewrite Nat.mul_1_r, H. Qed.

Lemma MSE_nonneg (r : retval) :
  MSE y_true y_pred multioutput = Ok r -> Forall nonnegf (values_of r).
Proof.
  unfold MSE. rewrite Hstd. cbn [mbind result_bind]. unfold mean_squared_error.
  destruct (_check_reg_targets t p); [|done]. cbn [mbind result_bind].
  destruct (reduce_errors _ multioutput) as [res|] eqn:Hres; [|done].
  cbn [mbind result_bind]. intros Hr.
  eapply score_result_nonneg; [| |exact Hres|exact Hr].
  - apply mean_axis0_nonneg; [apply squared_errors_nonneg|done].
  - by apply count_outputs.
Qed.

(** MAE, MSE, RMSE and MSPE never return a negative value or NaN on finite
    inputs with at least one sample and one output: every value they return
    is a zero, a positive number or [+inf] (an overflow).  (The docstrings
    promise "a non-negative floating point value" for every metric.) *)
Theorem squared_and_absolute_errors_nonnegative :
  Forall (fun f : metric_fn =>
            forall r, f y_true y_pred multioutput = Ok r -> Forall nonnegf (values_of r))
    [MAE; MSE; RMSE; MSPE].
Proof.
  repeat constructor.
  - intros r. unfold MAE. rewrite Hstd. cbn [mbind result_bind].
    unfold mean_absolute_error.
    destruct (_check_reg_targets t p); [|done]. cbn [mbind result_bind].
    destruct (reduce_errors _ multioutput) as [res|] eqn:Hres; [|done].
    cbn [mbind result_bind]. intros Hr.
    eapply score_result_nonneg; [| |exact Hres|exact Hr].
    + apply mean_axis0_nonneg; [apply absolute_errors_nonneg|].
      unfold nrows. cbn [shape map1 map2].
      destruct (standardize_same_shape _ _ _ _ _ _ Hstd) as (_ & _ & Hsh).
      rewrite Hsh. exact Hn.
    + apply count_outputs. unfold ncols. cbn [shape map1 map2].
      by destruct (standardize_same_shape _ _ _ _ _ _ Hstd) as (_ & _ & ->).
  - apply MSE_nonneg.
  - intros r. unfold RMSE. destruct (MSE y_true y_pred multioutput) as [r0|] eqn:Hm; [|done].
    intros [= <-]. rewrite (proj1 (np_sqrt_values r0)). apply Forall_fmap.
    eapply Forall_impl; [by apply MSE_nonneg|]. intros v Hv. by apply nonnegf_sqrt.
  - intros r. unfold MSPE. rewrite Hstd. cbn [mbind result_bind].
    apply raw_or_mean_nonneg.
    + apply mean_axis0_nonneg; [apply squared_errors_nonneg|done].
    + by apply count_outputs.
Qed.
End NonNegativeErrors.

(** Two samples of two outputs. *)
Lemma squared_and_absolute_errors_witness :
  Forall (fun f : metric_fn =>
            forall r,
              f (PyList (NDArray [2; 2] [1; -2; 3; 0.5]%float))
                (PyList (NDArray [2; 2] [0; 4; 3; -1]%float)) (MoStr "raw_values") = Ok r ->
              Forall nonnegf (values_of r))
    [MAE; MSE; RMSE; MSPE].
Proof.
  apply (squared_and_absolute_errors_nonnegative
           (PyList (NDArray [2; 2] [1; -2; 3; 0.5]%float))
           (PyList (NDArray [2; 2] [0; 4; 3; -1]%float)) (MoStr "raw_values")
           (NDArray [2; 2] [1; -2; 3; 0.5]%float) (NDArray [2; 2] [0; 4; 3; -1]%float)
           [2]).
  - vm_compute. reflexivity.
  - repeat constructor.
  - repeat constructor.
  - unfold count_ok, nrows. cbn. lia.
  - unfold count_ok, ncols. cbn. lia.
Defined.

(** ** [MSPE] and [MSE] *)

(** [MSPE] takes the mean of the squared differences, without dividing by
    [y_true]: whenever [MSE] returns a value, [MSPE] returns the same value
    on the same arguments. *)
Theorem MSPE_returns_MSE (y_true y_pred : pyobj) (multioutput : multioutput_arg)
  (r : retval) :
  MSE y_true y_pred multioutput = Ok r -> MSPE y_true y_pred multioutput = Ok r.
Proof.
  unfold MSE, MSPE.
  destruct (_standardize_input y_true y_pred multioutput) as [[[t p] os]|e]; [|done].
  cbn [mbind result_bind]. unfold mean_squared_error.
  destruct (_check_reg_targets t p); [|done]. cbn [mbind result_bind].
  unfold reduce_errors, raw_or_result, raw_or_mean.
  destruct multioutput as [|s]; cbn [mbind result_bind mo_eq]; [done|].
  destruct (String.eqb s "raw_values"); cbn [mbind result_bind]; [done|].
  by destruct (String.eqb s "uniform_average").
Qed.

(** Two samples of two outputs, per output. *)
Lemma MSPE_returns_MSE_witness :
  MSPE (PyList (NDArray [2; 2] [1; -2; 3; 0.5]%float))
    (PyList (NDArray [2; 2] [0; 4; 3; -1]%float)) (MoStr "raw_values")
  = Ok (RArray (NDArray [2] [0.5; 19.125]%float)).
Proof.
  apply (MSPE_returns_MSE (PyList (NDArray [2; 2] [1; -2; 3; 0.5]%float))
           (PyList (NDArray [2; 2] [0; 4; 3; -1]%float)) (MoStr "raw_values")).
  vm_compute. reflexivity.
Defined.
